(** * Minimal DOM (minidom): a shallow embedding of the facade and its properties

    The development follows the single source file of the library
    (the [dom] object and its private helpers).  JavaScript values that the
    facade inspects are modelled by [value]; strings are [string] with the
    string primitives the source calls ([split], [trim], [join], [replace])
    written out; the host document is a store of nodes threaded through a
    state-and-exception monad. *)

From Stdlib Require Import ZArith Ascii String DecimalString.
From stdpp Require Import base option list strings gmap.

Local Open Scope Z_scope.

(** ** Numbers as strings *)

Module JsNumber.

(** The double nearest to a positive integer, ties to even; [None] is
    [Infinity]. *)
Definition nearest_double (m : Z) : option Z :=
  let bits := Z.log2 m + 1 in
  if bits <=? 53 then Some m
  else
    let shift := bits - 53 in
    let q := Z.shiftr m shift in
    let r := Z.land m (Z.ones shift) in
    let half := Z.shiftl 1 (shift - 1) in
    let q := if (half <? r) || ((r =? half) && Z.odd q) then q + 1 else q in
    let d := Z.shiftl q shift in
    if 2 ^ 1024 <=? d then None else Some d.

(** The decimal numeral of a natural number. *)
Definition numeral (m : Z) : string :=
  NilZero.string_of_uint (N.to_uint (Z.to_N m)).

(** Whether [s * 10 ^ e] is read as the double [x]. *)
Definition identifies (x s e : Z) : bool :=
  match nearest_double (s * 10 ^ e) with
  | Some d => d =? x
  | None => false
  end.

(** The fewest digits [s], with their exponent, that identify the double
    [x] of [n] digits, tried from [k] digits on: of two candidates the one
    closer to [x], and the even one when they are as close. *)
Fixpoint shortest (fuel : nat) (x n k : Z) : Z * Z :=
  match fuel with
  | O => (x, 0)
  | S fuel =>
      if n <=? k then (x, 0)
      else
        let e := n - k in
        let lo := x / 10 ^ e in
        let hi := lo + 1 in
        if identifies x lo e then
          if identifies x hi e then
            let below := x - lo * 10 ^ e in
            let above := hi * 10 ^ e - x in
            if below <? above then (lo, e)
            else if above <? below then (hi, e)
            else if Z.even lo then (lo, e) else (hi, e)
          else (lo, e)
        else if identifies x hi e then (hi, e)
        else shortest fuel x n (k + 1)
  end.

(** Zeros at the end of the digits go to the exponent. *)
Fixpoint strip (fuel : nat) (s e : Z) : Z * Z :=
  match fuel with
  | O => (s, e)
  | S fuel =>
      if (s mod 10 =? 0) && (0 <? s) then strip fuel (s / 10) (e + 1)
      else (s, e)
  end.

Fixpoint zeros (n : nat) : string :=
  match n with
  | O => EmptyString
  | S n => String "0"%char (zeros n)
  end.

(** [Number::toString] of the double nearest to a positive integer: the
    digits and zeros up to 21 places, the exponent form beyond. *)
Definition positive_to_string (m : Z) : string :=
  match nearest_double m with
  | None => "Infinity"
  | Some x =>
      let n := Z.of_nat (String.length (numeral x)) in
      let '(s, e) := shortest 17 x n 1 in
      let '(s, e) := strip 400 s e in
      let digits := numeral s in
      let n := Z.of_nat (String.length digits) + e in
      if n <=? 21 then digits +:+ zeros (Z.to_nat e)
      else
        let exponent := "e+" +:+ numeral (n - 1) in
        match digits with
        | String d EmptyString => String d exponent
        | String d rest => String d (String "."%char (rest +:+ exponent))
        | EmptyString => EmptyString
        end
  end.

(** ['' + n] for the number written as the integer [n].  An integer up to
    2^53 is a double and its decimal numeral is its shortest form; a larger
    one stands for the double nearest to it. *)
Definition to_string (n : Z) : string :=
  if Z.abs n <=? 2 ^ 53 then NilZero.string_of_int (Z.to_int n)
  else if n <? 0 then String "-"%char (positive_to_string (- n))
  else positive_to_string n.

End JsNumber.

(** ** JavaScript values *)

(** Handles of host objects (nodes, windows, arbitrary objects). *)
Abbreviation ref := positive.

Inductive value : Type :=
  | VUndefined
  | VNull
  | VBool (b : bool)
  | VNum (n : Z)
  | VStr (s : string)
  | VObject (h : ref).

#[global] Instance value_eq_dec : EqDecision value.
Proof. solve_decision. Defined.

(** [ToBoolean]: what [if (v)], [!v] and [v || d] test. *)
Definition truthy (v : value) : bool :=
  match v with
  | VUndefined | VNull => false
  | VBool b => b
  | VNum n => negb (n =? 0)
  | VStr s => negb (String.eqb s "")
  | VObject _ => true
  end.

(** [a || b] *)
Definition js_or (a b : value) : value := if truthy a then a else b.

(** ['' + v] for primitives; an object is converted by the host. *)
Definition to_string (obj_string : ref -> string) (v : value) : string :=
  match v with
  | VUndefined => "undefined"
  | VNull => "null"
  | VBool true => "true"
  | VBool false => "false"
  | VNum n => JsNumber.to_string n
  | VStr s => s
  | VObject h => obj_string h
  end.

(** [typeof v === 'string'] *)
Definition isString (v : value) : bool :=
  match v with VStr _ => true | _ => false end.

(** ** String primitives *)

Module JsString.

Definition space : ascii := " "%char.

Definition is_space (c : ascii) : bool := Ascii.eqb c space.

(** White space and line terminators removed by [String.prototype.trim]
    (code units below 256). *)
Definition is_white (c : ascii) : bool :=
  let n := nat_of_ascii c in
  (Nat.eqb n 9 || Nat.eqb n 10 || Nat.eqb n 11 || Nat.eqb n 12
   || Nat.eqb n 13 || Nat.eqb n 32 || Nat.eqb n 160)%bool.

Definition is_upper (c : ascii) : bool :=
  let n := nat_of_ascii c in (Nat.leb 65 n && Nat.leb n 90)%bool.

Definition to_lower (c : ascii) : ascii :=
  if is_upper c then ascii_of_nat (nat_of_ascii c + 32) else c.

(** [s.split(' ')] *)
Fixpoint split_space (s : string) : list string :=
  match s with
  | EmptyString => [EmptyString]
  | String c s' =>
      if is_space c then EmptyString :: split_space s'
      else match split_space s' with
           | t :: ts => String c t :: ts
           | [] => [String c EmptyString]
           end
  end.

(** [s.split(/ +/)]: [in_sep] records that the previous character was part
    of the separator run being consumed. *)
Fixpoint split_spaces_from (in_sep : bool) (s : string) : list string :=
  match s with
  | EmptyString => [EmptyString]
  | String c s' =>
      if is_space c then
        if in_sep then split_spaces_from true s'
        else EmptyString :: split_spaces_from true s'
      else match split_spaces_from false s' with
           | t :: ts => String c t :: ts
           | [] => [String c EmptyString]
           end
  end.

Definition split_spaces (s : string) : list string :=
  split_spaces_from false s.

Fixpoint trimStart (s : string) : string :=
  match s with
  | EmptyString => EmptyString
  | String c s' => if is_white c then trimStart s' else s
  end.

Fixpoint trimEnd (s : string) : string :=
  match s with
  | EmptyString => EmptyString
  | String c s' =>
      match trimEnd s' with
      | EmptyString => if is_white c then EmptyString else String c EmptyString
      | r => String c r
      end
  end.

(** [s.trim()] *)
Definition trim (s : string) : string := trimEnd (trimStart s).

(** [names.join(' ')] *)
Fixpoint join_space (l : list string) : string :=
  match l with
  | [] => EmptyString
  | [t] => t
  | t :: ts => t +:+ String space (join_space ts)
  end.

(** [names.indexOf(name)], [-1] when absent. *)
Fixpoint indexOf (l : list string) (x : string) : Z :=
  match l with
  | [] => -1
  | y :: ys =>
      if String.eqb y x then 0
      else let i := indexOf ys x in if i <? 0 then -1 else i + 1
  end.

(** [names.splice(i, 1)] for [i >= 0] *)
Definition splice1 (l : list string) (i : Z) : list string :=
  take (Z.to_nat i) l ++ drop (S (Z.to_nat i)) l.

(** [key.replace(/[A-Z]/g, (char) => '-' + char.toLowerCase())] *)
Fixpoint hyphenate (s : string) : string :=
  match s with
  | EmptyString => EmptyString
  | String c s' =>
      if is_upper c then String "-"%char (String (to_lower c) (hyphenate s'))
      else String c (hyphenate s')
  end.

(** The key translation as the specification words it: each uppercase
    letter is prefixed with a hyphen and lowercased, every other character
    is kept. *)
Definition kebab_piece (c : ascii) : string :=
  if is_upper c then String "-"%char (String (to_lower c) EmptyString)
  else String c EmptyString.

Definition kebab_case (key : string) : string :=
  String.concat "" (map kebab_piece (list_ascii_of_string key)).

(** A string without white space. *)
Fixpoint white_free (s : string) : bool :=
  match s with
  | EmptyString => true
  | String c s' => negb (is_white c) && white_free s'
  end.

(** A class name that is a token: not empty and without white space. *)
Definition valid_name (s : string) : Prop :=
  s <> EmptyString /\ white_free s = true.

(** The class names an attribute value holds are in order: the value is
    blank (it reads as the single empty name), or every name is a token. *)
Definition tidy (names : list string) : Prop :=
  names = [EmptyString] \/ Forall valid_name names.

(** Whether the last character of a string is not white space. *)
Fixpoint ends_clean (s : string) : bool :=
  match s with
  | EmptyString => false
  | String c EmptyString => negb (is_white c)
  | String _ s' => ends_clean s'
  end.

(** What [getClassNames] reads after [className] was assigned the join of
    [names]. *)
Definition read_back (names : list string) : list string :=
  split_spaces (trim (join_space names)).

(** Whether [c] occurs an odd number of times in [names]: whether toggling
    [names] one by one flips [c]. *)
Fixpoint flips (c : string) (names : list string) : bool :=
  match names with
  | [] => false
  | x :: names' => xorb (bool_decide (x = c)) (flips c names')
  end.

(** The names read back from the join of tokens: the tokens, or the single
    empty name when there is none. *)
Definition normal (tokens : list string) : list string :=
  match tokens with
  | [] => [EmptyString]
  | _ => tokens
  end.

End JsString.

(** ** Node classification *)

Module NodeType.

(** The table [nodeTypes], indexed by the node-kind tag. *)
Definition nodeTypes : list string :=
  [ ""; "element"; "attribute"; "text"; "cdata"; "reference"; "entity";
    "instruction"; "comment"; "document"; "doctype"; "fragment"; "notation" ].

(** [nodeTypes[i]]: [undefined] outside the array. *)
Definition nodeTypes_at (i : Z) : value :=
  if i <? 0 then VUndefined
  else match nodeTypes !! Z.to_nat i with
       | Some s => VStr s
       | None => VUndefined
       end.

(** [dom.getType(node)], on the node-kind tag of [node]. *)
Definition getType (nodeType : Z) : value :=
  js_or (nodeTypes_at nodeType) (VStr "").

(** What [isNode] may be handed: any JavaScript value.  Objects carry the
    result of [typeof] (functions answer ['function']) and their
    [nodeType] property when they have one. *)
Inductive any : Type :=
  | AUndefined
  | ANull
  | ABool (b : bool)
  | ANum (n : Z)
  | AStr (s : string)
  | AFunction (nodeType : option Z)
  | AObject (nodeType : option Z).

(** [value !== null && typeof value === 'object'] *)
Definition isObject (v : any) : bool :=
  match v with AObject _ => true | _ => false end.

(** [value.nodeType] where the access is reached. *)
Definition nodeType_of (v : any) : option Z :=
  match v with
  | AFunction t | AObject t => t
  | _ => None
  end.

(** [x >= lo] and [x <= hi] with [x] possibly [undefined]
    (comparisons with [undefined] are false). *)
Definition ge_num (x : option Z) (lo : Z) : bool :=
  match x with Some n => lo <=? n | None => false end.
Definition le_num (x : option Z) (hi : Z) : bool :=
  match x with Some n => n <=? hi | None => false end.

(** [dom.isNode(value)] *)
Definition isNode (v : any) : bool :=
  isObject v && ge_num (nodeType_of v) 1 && le_num (nodeType_of v) 12.

(** The names the specification documents for tags 1 to 12. *)
Definition documented_name (tag : Z) : string :=
  if tag =? 1 then "element" else if tag =? 2 then "attribute"
  else if tag =? 3 then "text" else if tag =? 4 then "cdata"
  else if tag =? 5 then "reference" else if tag =? 6 then "entity"
  else if tag =? 7 then "instruction" else if tag =? 8 then "comment"
  else if tag =? 9 then "document" else if tag =? 10 then "doctype"
  else if tag =? 11 then "fragment" else if tag =? 12 then "notation"
  else "".

(** "a non-null object whose node-kind tag lies in [1,12]" *)
Definition is_tagged_object (v : any) : Prop :=
  exists t, v = AObject (Some t) /\ 1 <= t <= 12.

End NodeType.

(** ** Outcomes of calls *)

(** Exceptions a call can end with: a [TypeError] of the language (property
    access on [null] or [undefined], call of a missing method), an [Error]
    constructed by the facade itself, or an exception raised by the host. *)
Inductive exn : Type :=
  | TypeError
  | Error (message : string)
  | DOMException (name : string).

(** [OutOfFuel] is the one outcome that is not JavaScript's: a bounded
    unrolling of a [while] loop that ran out of steps. *)
Inductive outcome (A : Type) : Type :=
  | Ok (a : A)
  | Throw (e : exn)
  | OutOfFuel.
Arguments Ok {A} a.
Arguments Throw {A} e.
Arguments OutOfFuel {A}.

(** ** Tests of the node kind *)

Module NodeTest.

Import NodeType.

(** [node.nodeType === tag].  Reading a property of [null] or [undefined]
    is a [TypeError]; a value without the property answers [false]. *)
Definition nodeType_is (tag : Z) (node : any) : outcome bool :=
  match node with
  | AUndefined | ANull => Throw TypeError
  | _ => Ok (match nodeType_of node with
             | Some t => t =? tag
             | None => false
             end)
  end.

(** [dom.isElement(node)] *)
Definition isElement (node : any) : outcome bool := nodeType_is 1 node.

(** [dom.isText(node)] *)
Definition isText (node : any) : outcome bool := nodeType_is 3 node.

(** [dom.isInstruction(node)] *)
Definition isInstruction (node : any) : outcome bool := nodeType_is 7 node.

(** [dom.isComment(node)] *)
Definition isComment (node : any) : outcome bool := nodeType_is 8 node.

(** [dom.isDocument(node)] *)
Definition isDocument (node : any) : outcome bool := nodeType_is 9 node.

(** [dom.isDoctype(node)] *)
Definition isDoctype (node : any) : outcome bool := nodeType_is 10 node.

(** [dom.isFragment(node)] *)
Definition isFragment (node : any) : outcome bool := nodeType_is 11 node.

(** The seven tests, each with the name that [getType] gives to its kind. *)
Definition tests : list (string * (any -> outcome bool)) :=
  [ ("element", isElement); ("text", isText); ("instruction", isInstruction);
    ("comment", isComment); ("document", isDocument); ("doctype", isDoctype);
    ("fragment", isFragment) ].

End NodeTest.

(** ** Shapes of data keys and names *)

Module Shape.

(** A string without a hyphen. *)
Fixpoint hyphen_free (s : string) : bool :=
  match s with
  | EmptyString => true
  | String c s' => negb (Ascii.eqb c "-"%char) && hyphen_free s'
  end.

(** A string without an uppercase letter. *)
Fixpoint upper_free (s : string) : bool :=
  match s with
  | EmptyString => true
  | String c s' => negb (JsString.is_upper c) && upper_free s'
  end.

(** A string without a space. *)
Fixpoint space_free (s : string) : bool :=
  match s with
  | EmptyString => true
  | String c s' => negb (JsString.is_space c) && space_free s'
  end.

(** The number of spaces in a string. *)
Fixpoint spaces (s : string) : nat :=
  match s with
  | EmptyString => O
  | String c s' => if JsString.is_space c then S (spaces s') else spaces s'
  end.

(** Whether the first, and the last, character of a string is a space. *)
Definition starts_with_space (s : string) : bool :=
  match s with
  | EmptyString => false
  | String c _ => JsString.is_space c
  end.

Fixpoint ends_with_space (s : string) : bool :=
  match s with
  | EmptyString => false
  | String c EmptyString => JsString.is_space c
  | String _ s' => ends_with_space s'
  end.

(** A name read from a class attribute that is not blank: not empty, and
    without a space. *)
Definition plain_name (s : string) : Prop :=
  s <> EmptyString /\ space_free s = true.

(** A name of ASCII letters and digits that begins with a letter. *)
Definition is_letter (c : ascii) : bool :=
  let n := nat_of_ascii c in
  (Nat.leb 65 n && Nat.leb n 90) || (Nat.leb 97 n && Nat.leb n 122).

Definition is_digit (c : ascii) : bool :=
  let n := nat_of_ascii c in Nat.leb 48 n && Nat.leb n 57.

Fixpoint letters_and_digits (s : string) : bool :=
  match s with
  | EmptyString => true
  | String c s' => (is_letter c || is_digit c) && letters_and_digits s'
  end.

Definition simple_name (s : string) : bool :=
  match s with
  | EmptyString => false
  | String c s' => is_letter c && letters_and_digits s'
  end.

(** ASCII lowercasing, as an HTML document folds attribute names. *)
Fixpoint lowercase (s : string) : string :=
  match s with
  | EmptyString => EmptyString
  | String c s' => String (JsString.to_lower c) (lowercase s')
  end.

End Shape.

(** ** Synthetic events *)

Module Event.

(** The [config] object: own properties by name. *)
Abbreviation config := (gmap string value).

(** What [dom.event] is given as [config]: nothing (the default [{}]
    applies), [null], or an object. *)
Inductive config_arg : Type :=
  | NoConfig
  | NullConfig
  | Config (c : config).

(** [config.name]: [undefined] when the property is missing. *)
Definition prop (c : config) (name : string) : value :=
  default VUndefined (c !! name).

(** [getEventModifiers(config)] *)
Definition getEventModifiers (c : config) : string :=
  let modifiers := [] in
  let modifiers :=
    if truthy (prop c "ctrlKey") then modifiers ++ ["Control"] else modifiers in
  let modifiers :=
    if truthy (prop c "altKey") then modifiers ++ ["Alt"] else modifiers in
  let modifiers :=
    if truthy (prop c "shiftKey") then modifiers ++ ["Shift"] else modifiers in
  let modifiers :=
    if truthy (prop c "metaKey") then modifiers ++ ["Meta"] else modifiers in
  JsString.join_space modifiers.

(** An event object, described by the host call that produced it: the
    one-call constructor [new window[iface](name, init)], where [init] is
    [None] for [null], or [document.createEvent(iface)] followed by
    [event[method](args...)]. *)
Inductive event_object : Type :=
  | Constructed (iface : string) (name : string) (init : option config)
  | Initialised (iface : string) (method : string) (args : list value).

(** The [switch (type)] of [dom.event]: the constructor prefix and the
    arguments after [name, bubbles, cancelable]; [Ok None] is the [default]
    branch.  A branch that reads a property of [config] ends in a
    [TypeError] when [config] is [null] ([None]). *)
Definition switch_type (type : string) (config : option config)
  : outcome (option (string * list value)) :=
  let reading (prefix : string) (args : Event.config -> list value) :=
    match config with
    | Some config => Ok (Some (prefix, args config))
    | None => Throw TypeError
    end in
  if String.eqb type "event" then
    Ok (Some ("", []))
  else if String.eqb type "ui" then
    reading "UI" (fun config =>
      [ js_or (prop config "view") VNull;
        js_or (prop config "detail") (VNum 0) ])
  else if String.eqb type "keyboard" then
    reading "Keyboard" (fun config =>
      [ js_or (prop config "view") VNull;
        js_or (prop config "key") (VStr "");
        js_or (prop config "location") (VNum 0);
        VStr (getEventModifiers config);
        js_or (prop config "repeat") (VBool false);
        VStr "" ])
  else if String.eqb type "mouse" then
    reading "Mouse" (fun config =>
      [ js_or (prop config "view") VNull;
        js_or (prop config "detail") (VNum 0);
        js_or (prop config "screenX") (VNum 0);
        js_or (prop config "screenY") (VNum 0);
        js_or (prop config "clientX") (VNum 0);
        js_or (prop config "clientY") (VNum 0);
        js_or (prop config "ctrlKey") (VBool false);
        js_or (prop config "altKey") (VBool false);
        js_or (prop config "shiftKey") (VBool false);
        js_or (prop config "metaKey") (VBool false);
        js_or (prop config "button") (VNum 0);
        js_or (prop config "relatedTarget") VNull ])
  else if String.eqb type "wheel" then
    reading "Wheel" (fun config =>
      [ js_or (prop config "view") VNull;
        js_or (prop config "detail") (VNum 0);
        js_or (prop config "screenX") (VNum 0);
        js_or (prop config "screenY") (VNum 0);
        js_or (prop config "clientX") (VNum 0);
        js_or (prop config "clientY") (VNum 0);
        js_or (prop config "button") (VNum 0);
        js_or (prop config "relatedTarget") VNull;
        VStr (getEventModifiers config);
        js_or (prop config "deltaX") (VNum 0);
        js_or (prop config "deltaY") (VNum 0);
        js_or (prop config "deltaZ") (VNum 0);
        js_or (prop config "deltaMode") (VNum 0) ])
  else if String.eqb type "focus" then
    reading "Focus" (fun config =>
      [ js_or (prop config "view") VNull;
        js_or (prop config "detail") (VNum 0);
        js_or (prop config "relatedTarget") VNull ])
  else if String.eqb type "custom" then
    reading "Custom" (fun config => [ js_or (prop config "detail") VNull ])
  else Ok None.

Section Host.

(** Whether [new window[iface](name, init)] returns normally on the host
    (an engine without that constructor throws, and the exception is
    caught). *)
Variable new_event : string -> string -> option config -> bool.

(** The exception with which [document.createEvent(iface)] ends on the
    host, or the [TypeError] of reaching for an [init] method that the event
    lacks, if any: both come before the arguments are built. *)
Variable createEvent : string -> option exn.

(** The exception with which the call of the [init] method ends, if any. *)
Variable init_event : string -> list value -> option exn.

(** [dom.event(type, name, config = {})]; [Ok None] is [null]. *)
Definition event (type name : string) (config : config_arg)
  : outcome (option event_object) :=
  let config :=
    match config with
    | NoConfig => Some ∅
    | NullConfig => None
    | Config c => Some c
    end in
  match switch_type type config with
  | Throw e => Throw e
  | OutOfFuel => OutOfFuel
  | Ok None => Ok None
  | Ok (Some (type, args)) =>
      let type := type +:+ "Event" in
      let event :=
        if new_event type name config
        then Some (Constructed type name config) else None in
      match event with
      | Some event => Ok (Some event)
      | None =>
          match createEvent type with
          | Some e => Throw e
          | None =>
              match config with
              | None => Throw TypeError
              | Some config =>
                  let args :=
                    [ VStr name;
                      js_or (prop config "bubbles") (VBool false);
                      js_or (prop config "cancelable") (VBool false) ]
                    ++ args in
                  match init_event type args with
                  | Some e => Throw e
                  | None => Ok (Some (Initialised type ("init" +:+ type) args))
                  end
              end
          end
      end
  end.

End Host.

(** *** The documented table *)

(** The seven recognized kinds. *)
Definition recognized : list string :=
  [ "event"; "ui"; "keyboard"; "mouse"; "wheel"; "focus"; "custom" ].

(** The native event type of a recognized kind. *)
Definition native_type (kind : string) : string :=
  if String.eqb kind "event" then "Event"
  else if String.eqb kind "ui" then "UIEvent"
  else if String.eqb kind "keyboard" then "KeyboardEvent"
  else if String.eqb kind "mouse" then "MouseEvent"
  else if String.eqb kind "wheel" then "WheelEvent"
  else if String.eqb kind "focus" then "FocusEvent"
  else "CustomEvent".

(** Field classes and their documented defaults: numeric fields 0, boolean
    fields false, reference fields null, text fields empty. *)
Inductive field_class : Type := Numeric | Boolean | Reference | Text.

Definition default_of (k : field_class) : value :=
  match k with
  | Numeric => VNum 0
  | Boolean => VBool false
  | Reference => VNull
  | Text => VStr ""
  end.

(** One positional argument: a config field with its class, the modifier
    list derived from the four modifier flags, or the empty locale. *)
Inductive arg_spec : Type :=
  | Field (name : string) (k : field_class)
  | Modifiers
  | Locale.

Definition documented_fields (kind : string) : list arg_spec :=
  if String.eqb kind "ui" then
    [ Field "view" Reference; Field "detail" Numeric ]
  else if String.eqb kind "keyboard" then
    [ Field "view" Reference; Field "key" Text; Field "location" Numeric;
      Modifiers; Field "repeat" Boolean; Locale ]
  else if String.eqb kind "mouse" then
    [ Field "view" Reference; Field "detail" Numeric;
      Field "screenX" Numeric; Field "screenY" Numeric;
      Field "clientX" Numeric; Field "clientY" Numeric;
      Field "ctrlKey" Boolean; Field "altKey" Boolean;
      Field "shiftKey" Boolean; Field "metaKey" Boolean;
      Field "button" Numeric; Field "relatedTarget" Reference ]
  else if String.eqb kind "wheel" then
    [ Field "view" Reference; Field "detail" Numeric;
      Field "screenX" Numeric; Field "screenY" Numeric;
      Field "clientX" Numeric; Field "clientY" Numeric;
      Field "button" Numeric; Field "relatedTarget" Reference;
      Modifiers;
      Field "deltaX" Numeric; Field "deltaY" Numeric;
      Field "deltaZ" Numeric; Field "deltaMode" Numeric ]
  else if String.eqb kind "focus" then
    [ Field "view" Reference; Field "detail" Numeric;
      Field "relatedTarget" Reference ]
  else if String.eqb kind "custom" then
    [ Field "detail" Reference ]
  else [].

(** A field counts as given when the config holds it with a value that is
    not empty: not [undefined], [null], [false], [0] or the empty string. *)
Definition is_set (c : config) (name : string) : bool :=
  match c !! name with
  | None => false
  | Some (VUndefined | VNull | VBool false | VNum 0 | VStr "") => false
  | Some _ => true
  end.

(** The modifiers whose flag is given in [c], in the order Control, Alt,
    Shift, Meta. *)
Definition modifiers_set (c : config) : list string :=
  (if is_set c "ctrlKey" then ["Control"] else []) ++
  (if is_set c "altKey" then ["Alt"] else []) ++
  (if is_set c "shiftKey" then ["Shift"] else []) ++
  (if is_set c "metaKey" then ["Meta"] else []).

(** The documented value of an argument: a field that is given has its
    value, one that is not has the default of its class. *)
Definition documented_arg (c : config) (a : arg_spec) : value :=
  match a with
  | Field name k =>
      if is_set c name
      then match c !! name with Some v => v | None => default_of k end
      else default_of k
  | Modifiers => VStr (JsString.join_space (modifiers_set c))
  | Locale => VStr ""
  end.

(** The arguments of the [init] call that are documented for a kind. *)
Definition documented_args (kind name : string) (c : config) : list value :=
  [ VStr name;
    documented_arg c (Field "bubbles" Boolean);
    documented_arg c (Field "cancelable" Boolean) ]
  ++ map (documented_arg c) (documented_fields kind).

(** The event a recognized kind is documented to produce on a host, by
    construction path. *)
Definition documented_event (modern : bool) (kind name : string) (c : config)
  : event_object :=
  if modern then Constructed (native_type kind) name (Some c)
  else Initialised (native_type kind) ("init" +:+ native_type kind)
         (documented_args kind name c).

(** *** Observable fields of a keyboard event *)

(** The two signatures that [initKeyboardEvent] has had in engines: after
    [type, bubbles, cancelable, view], either
    [key, location, modifiersList, repeat, locale], or
    [keyIdentifier, location, ctrlKey, altKey, shiftKey, metaKey]. *)
Inductive init_signature : Type := ModifiersList | ModifierFlags.

(** The [key] of a keyboard event: the [key] member of the init dictionary
    as a string (empty when missing), or the key argument of
    [initKeyboardEvent] where its signature has one ([None] where it
    initialises the key identifier instead). *)
Definition keyboard_key (obj_string : ref -> string) (sig : init_signature)
  (e : event_object) : option string :=
  match e with
  | Constructed _ _ init =>
      match init with
      | Some init =>
          match init !! "key" with
          | None | Some VUndefined => Some ""
          | Some v => Some (to_string obj_string v)
          end
      | None => Some ""
      end
  | Initialised _ _ args =>
      match sig with
      | ModifiersList =>
          match args !! 4%nat with
          | Some v => Some (to_string obj_string v)
          | None => None
          end
      | ModifierFlags => None
      end
  end.

(** Whether argument [i] of an [init] call is a flag that is on. *)
Definition flag_at (args : list value) (i : nat) : bool :=
  match args !! i with
  | Some v => truthy v
  | None => false
  end.

(** The modifiers that are on, in the order Control, Alt, Shift, Meta: the
    flags of the init dictionary that are on; or the names in the
    modifier-list argument of [initKeyboardEvent]; or the four flag
    arguments that are on. *)
Definition keyboard_modifiers (sig : init_signature) (e : event_object)
  : list string :=
  let on (ctrl alt shift meta : bool) :=
    (if ctrl then ["Control"] else []) ++ (if alt then ["Alt"] else []) ++
    (if shift then ["Shift"] else []) ++ (if meta then ["Meta"] else []) in
  match e with
  | Constructed _ _ init =>
      let c := default ∅ init in
      on (truthy (prop c "ctrlKey")) (truthy (prop c "altKey"))
         (truthy (prop c "shiftKey")) (truthy (prop c "metaKey"))
  | Initialised _ _ args =>
      match sig with
      | ModifiersList =>
          match args !! 6%nat with
          | Some (VStr m) =>
              let names := JsString.split_space m in
              on (bool_decide ("Control" ∈ names)) (bool_decide ("Alt" ∈ names))
                 (bool_decide ("Shift" ∈ names)) (bool_decide ("Meta" ∈ names))
          | _ => []
          end
      | ModifierFlags =>
          on (flag_at args 6) (flag_at args 7) (flag_at args 8) (flag_at args 9)
      end
  end.

End Event.

(** ** The host document *)

Module Dom.

(** *** Nodes and the store *)

(** A boundary point and a range of the document. *)
Record Range : Type := mkRange {
  startContainer : ref;
  startOffset : Z;
  endContainer : ref;
  endOffset : Z;
}.

(** [range.collapsed]: both boundary points coincide. *)
Definition collapsed (r : Range) : bool :=
  bool_decide (startContainer r = endContainer r) &&
  (startOffset r =? endOffset r).

(** A node of the host.  [attributes] holds the content attributes by
    qualified name ([class] is what [className] reflects); [classList] and
    [dataset] are the native token list and string map where the element
    has them; [matchers] names the selector-matching methods the element
    exposes and [has_closest] says whether it has a native [closest]. *)
Record node : Type := mkNode {
  nodeType : Z;
  nodeName : string;
  nodeValue : string;
  parentNode : option ref;
  childNodes : list ref;
  attributes : gmap string string;
  classList : option (list string);
  dataset : option (gmap string string);
  matchers : list string;
  has_closest : bool;
}.

(** The state the facade runs in: the nodes of the host, the next free
    handle, the document, the two module-level caches [docRange] and
    [nodeFactory], and the log of attribute writes
    (element, attribute, value). *)
Record world : Type := mkWorld {
  nodes : gmap ref node;
  next_ref : ref;
  document : ref;
  docRange : option Range;
  nodeFactory : option ref;
  attr_writes : list (ref * string * string);
}.

Definition with_nodes (w : world) (ns : gmap ref node) : world :=
  {| nodes := ns; next_ref := next_ref w; document := document w;
     docRange := docRange w; nodeFactory := nodeFactory w;
     attr_writes := attr_writes w |}.

(** *** State and exceptions *)

Definition M (A : Type) : Type := world -> outcome (A * world).

Definition ret {A} (a : A) : M A := fun w => Ok (a, w).

Definition bind {A B} (m : M A) (k : A -> M B) : M B :=
  fun w =>
    match m w with
    | Ok (a, w') => k a w'
    | Throw e => Throw e
    | OutOfFuel => OutOfFuel
    end.

Definition throw {A} (e : exn) : M A := fun _ => Throw e.

Definition out_of_fuel {A} : M A := fun _ => OutOfFuel.

Declare Scope dom_scope.
Delimit Scope dom_scope with dom.
Notation "'do' x <- m ; k" := (bind m (fun x => k))
  (at level 10, x name, m at level 100, k at level 200) : dom_scope.
Notation "'exec' m ; k" := (bind m (fun _ => k))
  (at level 10, m at level 100, k at level 200) : dom_scope.
Local Open Scope dom_scope.

(** [list.forEach(f)] *)
Fixpoint forEach {A} (l : list A) (f : A -> M unit) : M unit :=
  match l with
  | [] => ret tt
  | x :: l' => exec f x; forEach l' f
  end.

(** The results of [f] on the elements of a list, in order. *)
Fixpoint mapM {A B} (f : A -> M B) (l : list A) : M (list B) :=
  match l with
  | [] => ret []
  | x :: l' => do y <- f x; do ys <- mapM f l'; ret (y :: ys)
  end.

(** [list.every(f)]: stops at the first element that fails. *)
Fixpoint every {A} (l : list A) (f : A -> M bool) : M bool :=
  match l with
  | [] => ret true
  | x :: l' => do b <- f x; if b then every l' f else ret false
  end.

(** Reading a property of [null] is a [TypeError]. *)
Definition deref (o : option ref) : M ref :=
  match o with
  | Some r => ret r
  | None => throw TypeError
  end.

(** The object behind a handle. *)
Definition node_of (r : ref) : M node :=
  fun w =>
    match nodes w !! r with
    | Some n => Ok (n, w)
    | None => Throw TypeError
    end.

Definition update_node (r : ref) (f : node -> node) : M unit :=
  fun w =>
    match nodes w !! r with
    | Some n => Ok (tt, with_nodes w (<[r := f n]> (nodes w)))
    | None => Throw TypeError
    end.

Definition get_document : M ref := fun w => Ok (document w, w).

(** A fresh handle for a new object. *)
Definition alloc (n : node) : M ref :=
  fun w =>
    let r := next_ref w in
    Ok (r, {| nodes := <[r := n]> (nodes w); next_ref := Pos.succ r;
              document := document w; docRange := docRange w;
              nodeFactory := nodeFactory w; attr_writes := attr_writes w |}).

(** *** Field updates of a node *)

Definition set_parentNode (p : option ref) (n : node) : node :=
  {| nodeType := nodeType n; nodeName := nodeName n;
     nodeValue := nodeValue n; parentNode := p;
     childNodes := childNodes n; attributes := attributes n;
     classList := classList n; dataset := dataset n;
     matchers := matchers n; has_closest := has_closest n |}.

Definition set_childNodes (l : list ref) (n : node) : node :=
  {| nodeType := nodeType n; nodeName := nodeName n;
     nodeValue := nodeValue n; parentNode := parentNode n;
     childNodes := l; attributes := attributes n;
     classList := classList n; dataset := dataset n;
     matchers := matchers n; has_closest := has_closest n |}.

Definition set_nodeValue (s : string) (n : node) : node :=
  {| nodeType := nodeType n; nodeName := nodeName n;
     nodeValue := s; parentNode := parentNode n;
     childNodes := childNodes n; attributes := attributes n;
     classList := classList n; dataset := dataset n;
     matchers := matchers n; has_closest := has_closest n |}.

Definition set_attributes (a : gmap string string) (n : node) : node :=
  {| nodeType := nodeType n; nodeName := nodeName n;
     nodeValue := nodeValue n; parentNode := parentNode n;
     childNodes := childNodes n; attributes := a;
     classList := classList n; dataset := dataset n;
     matchers := matchers n; has_closest := has_closest n |}.

Definition set_classList (l : option (list string)) (n : node) : node :=
  {| nodeType := nodeType n; nodeName := nodeName n;
     nodeValue := nodeValue n; parentNode := parentNode n;
     childNodes := childNodes n; attributes := attributes n;
     classList := l; dataset := dataset n;
     matchers := matchers n; has_closest := has_closest n |}.

Definition set_dataset (d : option (gmap string string)) (n : node) : node :=
  {| nodeType := nodeType n; nodeName := nodeName n;
     nodeValue := nodeValue n; parentNode := parentNode n;
     childNodes := childNodes n; attributes := attributes n;
     classList := classList n; dataset := d;
     matchers := matchers n; has_closest := has_closest n |}.

(** *** What the facade is given *)

(** The subject of an operation: a CSS selector string or a node. *)
Inductive target : Type :=
  | Selector (s : string)
  | NodeRef (r : ref).

(** What is inserted: a markup string or a node. *)
Inductive content : Type :=
  | Html (s : string)
  | NodeArg (r : ref).

(** A parsed piece of markup. *)
Inductive markup : Type :=
  | MElement (tag : string) (attrs : list (string * string))
             (children : list markup)
  | MText (data : string)
  | MComment (data : string).

(** The parts of the platform the facade consumes as black boxes: the
    selector engine, the markup parser, node cloning, event listeners and
    dispatch, the tree order of boundary points, and which optional
    capabilities the engine gives to elements and ranges. *)
Class Host : Type := {
  (** ['' + object] *)
  obj_string : ref -> string;
  (** [scope.querySelector(selector)] and [scope.querySelectorAll(selector)] *)
  querySelector : ref -> string -> M (option ref);
  querySelectorAll : ref -> string -> M (list ref);
  (** [element[method](selector)] for a matching method the element has *)
  call_matcher : string -> ref -> string -> M bool;
  (** [element.closest(selector)] where native *)
  native_closest : ref -> string -> M (option ref);
  (** the HTML parser behind [innerHTML] *)
  parseHTML : string -> list markup;
  (** [node.insertAdjacentHTML(position, html)] *)
  insertAdjacentHTML : ref -> string -> string -> M unit;
  (** [node.cloneNode(deep)] *)
  cloneNode : ref -> bool -> M ref;
  (** [addEventListener], [removeEventListener], [dispatchEvent] *)
  addEventListener : ref -> string -> ref -> bool -> M unit;
  removeEventListener : ref -> string -> ref -> bool -> M unit;
  dispatchEvent : ref -> value -> M bool;
  (** [range.createContextualFragment], where the engine has it *)
  createContextualFragment : option (Range -> string -> M ref);
  (** whether the first boundary point is after the second in tree order
      or lies in another tree *)
  misordered : world -> ref * Z -> ref * Z -> bool;
  (** the name under which an attribute is stored (HTML documents fold
      case), and whether the host accepts the name at all *)
  attribute_key : string -> string;
  attribute_name_ok : string -> bool;
  (** whether the host accepts a [dataset] property name *)
  dataset_name_ok : string -> bool;
  (** the object that the prototype chain of a [dataset] has under a name
      ([toString], [constructor] and the like), if any *)
  dataset_inherited : string -> option ref;
  (** whether [document.createElement] takes a name on which hosts differ,
      and whether the document is an HTML document, which folds the case of
      the element names it is given *)
  element_name_ok : string -> bool;
  html_document : bool;
  (** capabilities of a newly created element *)
  new_classList : bool;
  new_dataset : bool;
  new_matchers : list string;
  new_closest : bool;
}.

Section Platform.

Context `{Host}.

(** *** Tree primitives of the host *)

(** [node.firstChild] *)
Definition firstChild (r : ref) : M (option ref) :=
  do n <- node_of r; ret (head (childNodes n)).

(** [node.parentNode] *)
Definition get_parentNode (r : ref) : M (option ref) :=
  do n <- node_of r; ret (parentNode n).

Fixpoint next_after (r : ref) (l : list ref) : option ref :=
  match l with
  | [] => None
  | x :: l' => if Pos.eqb x r then head l' else next_after r l'
  end.

(** [node.nextSibling] *)
Definition nextSibling (r : ref) : M (option ref) :=
  do n <- node_of r;
  match parentNode n with
  | None => ret None
  | Some p => do pn <- node_of p; ret (next_after r (childNodes pn))
  end.

Definition is_element (ns : gmap ref node) (k : ref) : bool :=
  match ns !! k with
  | Some kn => nodeType kn =? 1
  | None => false
  end.

(** [Array.from(parent.children)]: the element children, as a snapshot.
    Elements, documents and fragments have [children]; on any other node
    the property is [undefined], of which [Array.from] is a [TypeError]. *)
Definition children (r : ref) : M (list ref) :=
  fun w =>
    match nodes w !! r with
    | Some n =>
        if (nodeType n =? 1) || (nodeType n =? 9) || (nodeType n =? 11) then
          Ok (filter (fun k => is_element (nodes w) k = true) (childNodes n),
              w)
        else Throw TypeError
    | None => Throw TypeError
    end.

Definition without (r : ref) (l : list ref) : list ref :=
  filter (fun x => x <> r) l.

(** Unlink [r] from the parent it has, if any. *)
Definition detach (r : ref) : M unit :=
  do n <- node_of r;
  match parentNode n with
  | None => ret tt
  | Some p =>
      exec update_node p (fun pn => set_childNodes (without r (childNodes pn)) pn);
      update_node r (set_parentNode None)
  end.

(** [parent.removeChild(child)] *)
Definition removeChild (parent child : ref) : M ref :=
  do c <- node_of child;
  if bool_decide (parentNode c = Some parent) then
    exec detach child; ret child
  else throw (DOMException "NotFoundError").

(** Whether [a] is [r] or one of its ancestors; the walk up the parent
    chain is bounded by the number of nodes. *)
Fixpoint inclusive_ancestor (fuel : nat) (ns : gmap ref node) (a r : ref)
  : bool :=
  Pos.eqb a r ||
  match fuel with
  | O => false
  | S fuel =>
      match ns !! r with
      | Some n =>
          match parentNode n with
          | Some p => inclusive_ancestor fuel ns a p
          | None => false
          end
      | None => false
      end
  end.

Fixpoint splice_at (moving : list ref) (b : ref) (l : list ref)
  : list ref :=
  match l with
  | [] => moving
  | x :: l' =>
      if Pos.eqb x b then moving ++ x :: l'
      else x :: splice_at moving b l'
  end.

Definition splice_before (moving : list ref) (before : option ref)
  (l : list ref) : list ref :=
  match before with
  | None => l ++ moving
  | Some b => splice_at moving b l
  end.

(** Character data (text, CDATA section, processing instruction, comment),
    and text among it. *)
Definition is_character_data (t : Z) : bool :=
  (t =? 3) || (t =? 4) || (t =? 7) || (t =? 8).

Definition is_text_kind (t : Z) : bool := (t =? 3) || (t =? 4).

(** Whether the node [k] is of kind [t]. *)
Definition has_kind (ns : gmap ref node) (t : Z) (k : ref) : bool :=
  match ns !! k with
  | Some kn => nodeType kn =? t
  | None => false
  end.

(** The nodes of [l] after [b], and before it. *)
Fixpoint following (b : ref) (l : list ref) : list ref :=
  match l with
  | [] => []
  | x :: l' => if Pos.eqb x b then l' else following b l'
  end.

Fixpoint preceding (b : ref) (l : list ref) : list ref :=
  match l with
  | [] => []
  | x :: l' => if Pos.eqb x b then [] else x :: preceding b l'
  end.

(** What a document takes before its child [before]: a fragment with no
    text and at most one element, an element, or a doctype, as long as it
    keeps at most one element and at most one doctype, the doctype first;
    and any other character data. *)
Definition document_admits (ns : gmap ref node) (p n : node)
  (before : option ref) : bool :=
  let element_fits :=
    negb (existsb (has_kind ns 1) (childNodes p)
          || match before with
             | Some b =>
                 has_kind ns 10 b
                 || existsb (has_kind ns 10) (following b (childNodes p))
             | None => false
             end) in
  if nodeType n =? 11 then
    negb (existsb (fun k => has_kind ns 3 k || has_kind ns 4 k) (childNodes n))
    && match filter (fun k => has_kind ns 1 k = true) (childNodes n) with
       | [] => true
       | [_] => element_fits
       | _ => false
       end
  else if nodeType n =? 1 then element_fits
  else if nodeType n =? 10 then
    negb (existsb (has_kind ns 10) (childNodes p)
          || match before with
             | Some b => existsb (has_kind ns 1) (preceding b (childNodes p))
             | None => existsb (has_kind ns 1) (childNodes p)
             end)
  else true.

(** Whether the parent [p] takes the node [n] by its kind: [n] is a
    fragment, a doctype, an element or character data; a text goes under no
    document and a doctype under nothing else; and a document has its own
    rules. *)
Definition admits (ns : gmap ref node) (p n : node) (before : option ref)
  : bool :=
  let t := nodeType n in
  ((t =? 11) || (t =? 10) || (t =? 1) || is_character_data t)
  && negb (is_text_kind t && (nodeType p =? 9))
  && negb ((t =? 10) && negb (nodeType p =? 9))
  && (if nodeType p =? 9 then document_admits ns p n before else true).

(** [parent.insertBefore(node, before)]; [before = None] appends.  A
    document fragment hands over its children instead of itself. *)
Definition insertBefore (parent node : ref) (before : option ref) : M ref :=
  do p <- node_of parent;
  if negb ((nodeType p =? 1) || (nodeType p =? 9) || (nodeType p =? 11)) then
    throw (DOMException "HierarchyRequestError")
  else
  do n <- node_of node;
  do ancestor <- (fun w =>
                    Ok (inclusive_ancestor (size (nodes w)) (nodes w)
                          node parent, w));
  if ancestor : bool then throw (DOMException "HierarchyRequestError")
  else
  do before_ok <-
    match before with
    | None => ret true
    | Some b => do bn <- node_of b;
                ret (bool_decide (parentNode bn = Some parent))
    end;
  if negb before_ok then throw (DOMException "NotFoundError")
  else
  do admitted <- (fun w => Ok (admits (nodes w) p n before, w));
  if negb admitted then throw (DOMException "HierarchyRequestError")
  else
  do before <-
    (if bool_decide (before = Some node) then nextSibling node
     else ret before);
  let moving := if nodeType n =? 11 then childNodes n else [node] in
  exec forEach moving detach;
  exec (if nodeType n =? 11
        then update_node node (set_childNodes []) else ret tt);
  exec forEach moving (fun m => update_node m (set_parentNode (Some parent)));
  exec update_node parent
         (fun pn => set_childNodes
                      (splice_before moving before (childNodes pn)) pn);
  ret node.

(** [parent.appendChild(node)] *)
Definition appendChild (parent node : ref) : M ref :=
  insertBefore parent node None.

(** *** Creating nodes *)

(** ASCII white space, which neither the name of an element nor a class
    token may contain. *)
Definition is_ascii_whitespace (c : ascii) : bool :=
  let n := nat_of_ascii c in
  (Nat.eqb n 9 || Nat.eqb n 10 || Nat.eqb n 12 || Nat.eqb n 13
   || Nat.eqb n 32)%bool.

Fixpoint has_ascii_whitespace (s : string) : bool :=
  match s with
  | EmptyString => false
  | String c s' => is_ascii_whitespace c || has_ascii_whitespace s'
  end.

Definition blank (type : Z) (name data : string) (parent : option ref)
  : node :=
  {| nodeType := type; nodeName := name; nodeValue := data;
     parentNode := parent; childNodes := []; attributes := ∅;
     classList := None; dataset := None; matchers := [];
     has_closest := false |}.

Definition new_element_node (tag : string) (attrs : list (string * string))
  (parent : option ref) : node :=
  {| nodeType := 1; nodeName := tag; nodeValue := "";
     parentNode := parent; childNodes := [];
     attributes := list_to_map attrs;
     classList := if new_classList then Some [] else None;
     dataset := if new_dataset then Some ∅ else None;
     matchers := new_matchers; has_closest := new_closest |}.

(** Whether [document.createElement] takes the name.  Every host takes a
    name of ASCII letters and digits that begins with a letter, and none
    takes the empty name or a name with white space in it; on the other
    names hosts differ (the names of XML, or the wider element names of the
    later DOM standard). *)
Definition element_name_accepted (name : string) : bool :=
  Shape.simple_name name
  || (negb (String.eqb name "") && negb (has_ascii_whitespace name)
      && element_name_ok name).

(** [document.createElement(tagName)]: the name is checked, and folded to
    lower case in an HTML document. *)
Definition createElement (tagName : string) : M ref :=
  if element_name_accepted tagName then
    alloc (new_element_node
             (if html_document then Shape.lowercase tagName else tagName)
             [] None)
  else throw (DOMException "InvalidCharacterError").

(** [document.createDocumentFragment()] *)
Definition createDocumentFragment : M ref :=
  alloc (blank 11 "#document-fragment" "" None).

(** The nodes of a parsed piece of markup, allocated under [parent]. *)
Fixpoint build (parent : ref) (m : markup) : M ref :=
  match m with
  | MText data => alloc (blank 3 "#text" data (Some parent))
  | MComment data => alloc (blank 8 "#comment" data (Some parent))
  | MElement tag attrs kids =>
      do r <- alloc (new_element_node tag attrs (Some parent));
      do ks <- mapM (build r) kids;
      exec update_node r (set_childNodes ks);
      ret r
  end.

Definition build_all (parent : ref) (ms : list markup) : M (list ref) :=
  mapM (build parent) ms.

(** [element.innerHTML = html]: the children are replaced by the parsed
    nodes.  (On a node that is not an element the assignment only
    creates a property.) *)
Definition set_innerHTML (r : ref) (html : string) : M unit :=
  do n <- node_of r;
  if nodeType n =? 1 then
    exec forEach (childNodes n) (fun c => update_node c (set_parentNode None));
    do ks <- build_all r (parseHTML html);
    update_node r (set_childNodes ks)
  else ret tt.

(** [node.textContent = text] *)
Definition set_textContent (r : ref) (text : string) : M unit :=
  do n <- node_of r;
  if (nodeType n =? 1) || (nodeType n =? 11) then
    exec forEach (childNodes n) (fun c => update_node c (set_parentNode None));
    if String.eqb text "" then update_node r (set_childNodes [])
    else do t <- alloc (blank 3 "#text" text (Some r));
         update_node r (set_childNodes [t])
  else if (nodeType n =? 9) || (nodeType n =? 10) then ret tt
  else update_node r (set_nodeValue text).

(** *** Attributes, classes and data of the host *)

(** [element.setAttribute(name, value)] *)
Definition setAttribute (r : ref) (name value : string) : M unit :=
  do n <- node_of r;
  if negb (nodeType n =? 1) then throw TypeError
  else if negb (attribute_name_ok name) then
    throw (DOMException "InvalidCharacterError")
  else
    fun w =>
      Ok (tt, {| nodes := <[r := set_attributes
                                   (<[attribute_key name := value]>
                                      (attributes n)) n]> (nodes w);
                 next_ref := next_ref w; document := document w;
                 docRange := docRange w; nodeFactory := nodeFactory w;
                 attr_writes :=
                   attr_writes w ++ [(r, attribute_key name, value)] |}).

(** [element.getAttribute(name)]; [None] is [null]. *)
Definition getAttribute (r : ref) (name : string) : M (option string) :=
  do n <- node_of r;
  if negb (nodeType n =? 1) then throw TypeError
  else ret (attributes n !! attribute_key name).

(** [element.className]; a node without the property answers
    [undefined], on which the caller's [trim()] is a [TypeError]. *)
Definition get_className (r : ref) : M string :=
  do n <- node_of r;
  if nodeType n =? 1 then ret (default "" (attributes n !! "class"))
  else throw TypeError.

(** [element.className = names] *)
Definition set_className (r : ref) (names : string) : M unit :=
  do n <- node_of r;
  fun w =>
    Ok (tt, {| nodes := <[r := set_attributes
                                 (<["class" := names]> (attributes n)) n]>
                          (nodes w);
               next_ref := next_ref w; document := document w;
               docRange := docRange w; nodeFactory := nodeFactory w;
               attr_writes := attr_writes w ++ [(r, "class", names)] |}).

(** The exception with which the native token list rejects a token. *)
Definition token_error (name : string) : option exn :=
  if String.eqb name "" then Some (DOMException "SyntaxError")
  else if has_ascii_whitespace name
       then Some (DOMException "InvalidCharacterError")
       else None.

(** The native token list of an element that has one. *)
Definition tokens_of (r : ref) : M (list string) :=
  do n <- node_of r;
  match classList n with
  | Some tokens => ret tokens
  | None => throw TypeError
  end.

Definition classList_update (r : ref) (name : string)
  (f : list string -> list string) : M unit :=
  do tokens <- tokens_of r;
  match token_error name with
  | Some e => throw e
  | None => update_node r (set_classList (Some (f tokens)))
  end.

(** The token list after [classList.add], [remove] and [toggle]. *)
Definition add_token (name : string) (tokens : list string) : list string :=
  if bool_decide (name ∈ tokens) then tokens else tokens ++ [name].

Definition remove_token (name : string) (tokens : list string) : list string :=
  filter (fun t => t <> name) tokens.

Definition toggle_token (name : string) (tokens : list string) : list string :=
  if bool_decide (name ∈ tokens)
  then filter (fun t => t <> name) tokens
  else tokens ++ [name].

(** [classList.add(name)] *)
Definition classList_add (r : ref) (name : string) : M unit :=
  classList_update r name (add_token name).

(** [classList.remove(name)] *)
Definition classList_remove (r : ref) (name : string) : M unit :=
  classList_update r name (remove_token name).

(** [classList.toggle(name)] *)
Definition classList_toggle (r : ref) (name : string) : M unit :=
  classList_update r name (toggle_token name).

(** [classList.contains(name)] *)
Definition classList_contains (r : ref) (name : string) : M bool :=
  do tokens <- tokens_of r; ret (bool_decide (name ∈ tokens)).

(** [dataset[key] = text] *)
Definition dataset_set (r : ref) (key text : string) : M unit :=
  do n <- node_of r;
  match dataset n with
  | None => throw TypeError
  | Some d =>
      if dataset_name_ok key
      then update_node r (set_dataset (Some (<[key := text]> d)))
      else throw (DOMException "SyntaxError")
  end.

(** [dataset[key]]: the value of the custom data attribute of that name;
    without one, what the prototype chain has under the name, or
    [undefined]. *)
Definition dataset_get (r : ref) (key : string) : M value :=
  do n <- node_of r;
  match dataset n with
  | None => throw TypeError
  | Some d => ret (match d !! key with
                   | Some text => VStr text
                   | None =>
                       match dataset_inherited key with
                       | Some h => VObject h
                       | None => VUndefined
                       end
                   end)
  end.

End Platform.

(** ** The facade *)

Section Facade.

Context `{Host}.

(** [resolveNode(node)]: [dom.query(node)] for a string, which with no
    parent is [document.querySelector(node)]; the node itself otherwise.
    [None] is [null]. *)
Definition resolveNode (node : target) : M (option ref) :=
  match node with
  | Selector s => do doc <- get_document; querySelector doc s
  | NodeRef r => ret (Some r)
  end.

(** [resolveNames(names)]: a string is split on single spaces. *)
Definition resolveNames (names : string + list string) : list string :=
  match names with
  | inl s => JsString.split_space s
  | inr l => l
  end.

(** Truthiness of an optional [parent] argument: a missing argument and
    the empty string are falsy. *)
Definition given (parent : option target) : bool :=
  match parent with
  | None => false
  | Some (Selector s) => negb (String.eqb s "")
  | Some (NodeRef _) => true
  end.

(** [dom.query(selector, parent)] *)
Definition query (selector : string) (parent : option target)
  : M (option ref) :=
  do parent <- (match parent with
                | Some p =>
                    if given (Some p) then resolveNode p
                    else do doc <- get_document; ret (Some doc)
                | None => do doc <- get_document; ret (Some doc)
                end);
  do scope <- deref parent;
  querySelector scope selector.

(** [dom.queryAll(selector, parent)] *)
Definition queryAll (selector : string) (parent : option target)
  : M (list ref) :=
  do parent <- (match parent with
                | Some p =>
                    if given (Some p) then resolveNode p
                    else do doc <- get_document; ret (Some doc)
                | None => do doc <- get_document; ret (Some doc)
                end);
  do scope <- deref parent;
  querySelectorAll scope selector.

(** [dom.setup(element, attributes)]; [attributes] lists the own
    properties in the order of [Object.keys]. *)
Definition setup (element : target) (attributes : list (string * value))
  : M (option ref) :=
  do element <- resolveNode element;
  exec forEach attributes
         (fun '(name, value) =>
            do e <- deref element;
            if String.eqb name "_text" then
              set_textContent e
                (match value with
                 | VNull | VUndefined => ""
                 | _ => to_string obj_string value
                 end)
            else if String.eqb name "_html" then
              set_innerHTML e
                (match value with VNull => "" | _ => to_string obj_string value end)
            else setAttribute e name (to_string obj_string value));
  ret element.

(** [dom.element(tagName, attributes)] *)
Definition element (tagName : string)
  (attributes : option (list (string * value))) : M ref :=
  do newElement <- createElement tagName;
  exec (match attributes with
        | Some attributes =>
            exec setup (NodeRef newElement) attributes; ret tt
        | None => ret tt
        end);
  ret newElement.

(** [getClassNames(element)] *)
Definition getClassNames (element : ref) : M (list string) :=
  do className <- get_className element;
  ret (JsString.split_spaces (JsString.trim className)).

(** The loop of the fallback of [addClass] over the local array
    [currentNames] and the flag [update]. *)
Definition add_step (state : list string * bool) (name : string)
  : list string * bool :=
  let '(currentNames, update) := state in
  if JsString.indexOf currentNames name <? 0
  then (currentNames ++ [name], true)
  else (currentNames, update).

Definition add_missing (classNames currentNames : list string)
  : list string * bool :=
  fold_left add_step classNames (currentNames, false).

(** [dom.addClass(element, classNames)] *)
Definition addClass (element : target) (classNames : string + list string)
  : M (option ref) :=
  do element <- resolveNode element;
  let classNames := resolveNames classNames in
  do e <- deref element;
  do n <- node_of e;
  match classList n with
  | Some _ =>
      exec forEach classNames (fun name => classList_add e name);
      ret element
  | None =>
      do currentNames <- getClassNames e;
      let '(currentNames, update) := add_missing classNames currentNames in
      exec (if update
            then set_className e (JsString.join_space currentNames)
            else ret tt);
      ret element
  end.

(** The loop of the fallback of [removeClass]. *)
Definition remove_step (state : list string * bool) (name : string)
  : list string * bool :=
  let '(currentNames, update) := state in
  let i := JsString.indexOf currentNames name in
  if 0 <=? i
  then (JsString.splice1 currentNames i, true)
  else (currentNames, update).

Definition remove_present (classNames currentNames : list string)
  : list string * bool :=
  fold_left remove_step classNames (currentNames, false).

(** [dom.removeClass(element, classNames)] *)
Definition removeClass (element : target)
  (classNames : string + list string) : M (option ref) :=
  do element <- resolveNode element;
  let classNames := resolveNames classNames in
  do e <- deref element;
  do n <- node_of e;
  match classList n with
  | Some _ =>
      exec forEach classNames (fun name => classList_remove e name);
      ret element
  | None =>
      do currentNames <- getClassNames e;
      let '(currentNames, update) :=
        remove_present classNames currentNames in
      exec (if update
            then set_className e (JsString.join_space currentNames)
            else ret tt);
      ret element
  end.

(** The loop of the fallback of [toggleClass]. *)
Definition toggle_step (currentNames : list string) (name : string)
  : list string :=
  let i := JsString.indexOf currentNames name in
  if i <? 0 then currentNames ++ [name]
  else JsString.splice1 currentNames i.

Definition toggle_each (classNames currentNames : list string)
  : list string :=
  fold_left toggle_step classNames currentNames.

(** [dom.toggleClass(element, classNames)] *)
Definition toggleClass (element : target)
  (classNames : string + list string) : M (option ref) :=
  do element <- resolveNode element;
  let classNames := resolveNames classNames in
  do e <- deref element;
  do n <- node_of e;
  match classList n with
  | Some _ =>
      exec forEach classNames (fun name => classList_toggle e name);
      ret element
  | None =>
      do currentNames <- getClassNames e;
      let currentNames := toggle_each classNames currentNames in
      exec set_className e (JsString.join_space currentNames);
      ret element
  end.

(** [dom.hasClass(element, classNames)] *)
Definition hasClass (element : target) (classNames : string + list string)
  : M bool :=
  do element <- resolveNode element;
  let classNames := resolveNames classNames in
  do e <- deref element;
  do n <- node_of e;
  match classList n with
  | Some _ => every classNames (fun name => classList_contains e name)
  | None =>
      do currentNames <- getClassNames e;
      every classNames
        (fun name => ret (0 <=? JsString.indexOf currentNames name))
  end.

(** What [getClassNames] reads from a node: the class attribute, trimmed
    and split on runs of spaces. *)
Definition class_names (n : node) : list string :=
  JsString.split_spaces (JsString.trim (default "" (attributes n !! "class"))).

(** The state after [element.className = names] on the element [e], whose
    node was [n]. *)
Definition write_class (e : ref) (n : node) (names : string) (w : world)
  : world :=
  {| nodes := <[e := set_attributes (<["class" := names]> (attributes n)) n]>
                (nodes w);
     next_ref := next_ref w; document := document w;
     docRange := docRange w; nodeFactory := nodeFactory w;
     attr_writes := attr_writes w ++ [(e, "class", names)] |}.

(** Two states that differ at most in the class attribute of [e] (and in
    the log of writes). *)
Definition only_class_differs (e : ref) (w w' : world) : Prop :=
  next_ref w' = next_ref w /\ document w' = document w /\
  docRange w' = docRange w /\ nodeFactory w' = nodeFactory w /\
  (forall r, r <> e -> nodes w' !! r = nodes w !! r) /\
  (forall n, nodes w !! e = Some n ->
             exists n',
               nodes w' !! e = Some n' /\
               nodeType n' = nodeType n /\ nodeName n' = nodeName n /\
               nodeValue n' = nodeValue n /\ parentNode n' = parentNode n /\
               childNodes n' = childNodes n /\ classList n' = classList n /\
               dataset n' = dataset n /\ matchers n' = matchers n /\
               has_closest n' = has_closest n /\
               forall k, k <> "class" ->
                         attributes n' !! k = attributes n !! k).

(** The class names [hasClass] tests against: the native token list where
    the element has one, what [getClassNames] reads otherwise. *)
Definition members (n : node) : list string :=
  match classList n with
  | Some tokens => tokens
  | None => class_names n
  end.

(** Without the native list, the class attribute holds tokens
    ([class_tidy]), which are pairwise distinct ([class_distinct]). *)
Definition class_tidy (n : node) : Prop :=
  classList n = None -> JsString.tidy (class_names n).

Definition class_distinct (n : node) : Prop :=
  classList n = None -> NoDup (class_names n).

(** [toDataKey(key)] *)
Definition toDataKey (key : string) : string :=
  "data-" +:+ JsString.hyphenate key.

(** [dom.setData(element, key, value)] *)
Definition setData (element : target) (key : string) (value : value)
  : M (option ref) :=
  do element <- resolveNode element;
  do e <- deref element;
  do n <- node_of e;
  exec (match dataset n with
        | Some _ => dataset_set e key ("" +:+ to_string obj_string value)
        | None =>
            setAttribute e (toDataKey key) ("" +:+ to_string obj_string value)
        end);
  ret element.

(** [dom.getData(element, key)]: a string, [undefined] (no such entry
    in the dataset) or [null] (no such attribute). *)
Definition getData (element : target) (key : string) : M value :=
  do element <- resolveNode element;
  do e <- deref element;
  do n <- node_of e;
  match dataset n with
  | Some _ => dataset_get e key
  | None =>
      do a <- getAttribute e (toDataKey key);
      ret (match a with Some text => VStr text | None => VNull end)
  end.

(** [dom.append(parent, node)] *)
Definition append (parent : target) (node : content) : M (option ref) :=
  do parent <- resolveNode parent;
  do p <- deref parent;
  exec (match node with
        | Html html => insertAdjacentHTML p "beforeend" html
        | NodeArg node => exec appendChild p node; ret tt
        end);
  ret parent.

(** [dom.prepend(parent, node)] *)
Definition prepend (parent : target) (node : content) : M (option ref) :=
  do parent <- resolveNode parent;
  do p <- deref parent;
  exec (match node with
        | Html html => insertAdjacentHTML p "afterbegin" html
        | NodeArg node =>
            do first <- firstChild p;
            match first with
            | Some first => exec insertBefore p node (Some first); ret tt
            | None => exec appendChild p node; ret tt
            end
        end);
  ret parent.

(** [dom.before(target, node)] *)
Definition before (target : target) (node : content) : M (option ref) :=
  do target <- resolveNode target;
  do t <- deref target;
  exec (match node with
        | Html html => insertAdjacentHTML t "beforebegin" html
        | NodeArg node =>
            do parent <- get_parentNode t;
            do p <- deref parent;
            exec insertBefore p node (Some t); ret tt
        end);
  ret target.

(** [dom.after(target, node)] *)
Definition after (target : target) (node : content) : M (option ref) :=
  do target <- resolveNode target;
  do t <- deref target;
  exec (match node with
        | Html html => insertAdjacentHTML t "afterend" html
        | NodeArg node =>
            do parent <- get_parentNode t;
            do next <- nextSibling t;
            do p <- deref parent;
            match next with
            | Some next => exec insertBefore p node (Some next); ret tt
            | None => exec appendChild p node; ret tt
            end
        end);
  ret target.

(** [dom.remove(node)] *)
Definition remove (node : target) : M (option ref) :=
  do node <- resolveNode node;
  do n <- deref node;
  do parent <- get_parentNode n;
  exec (match parent with
        | Some parent => exec removeChild parent n; ret tt
        | None => ret tt
        end);
  ret node.

(** [dom.clear(node)] *)
Definition clear (node : target) : M (option ref) :=
  do node <- resolveNode node;
  do n <- deref node;
  exec set_textContent n "";
  ret node.

(** [dom.clone(node, deep = true)] *)
Definition clone (node : target) (deep : option bool) : M ref :=
  let deep := default true deep in
  do node <- resolveNode node;
  do n <- deref node;
  cloneNode n deep.

(** The matching methods [dom.matches] probes, in order. *)
Definition matcher_names : list string :=
  [ "matches"; "matchesSelector"; "webkitMatchesSelector";
    "mozMatchesSelector"; "msMatchesSelector"; "oMatchesSelector" ].

(** [a || b || ...] over the probed properties: the first one the
    element has. *)
Definition first_matcher (available : list string) : option string :=
  List.find (fun name => bool_decide (name ∈ available)) matcher_names.

(** [m] is the first probed method that the element has. *)
Definition first_available (available : list string) (m : string) : Prop :=
  exists earlier later,
    matcher_names = earlier ++ m :: later /\
    m ∈ available /\
    forall x, x ∈ earlier -> x ∉ available.

(** [dom.matches(element, selector)] *)
Definition matches (element : ref) (selector : string) : M bool :=
  do n <- node_of element;
  match first_matcher (matchers n) with
  | None => throw (Error "Method matches() is not supported")
  | Some method => call_matcher method element selector
  end.

(** The [while (element)] loop of [dom.closest]. *)
Fixpoint closest_loop (fuel : nat) (element : option ref)
  (selector : string) : M (option ref) :=
  match fuel with
  | O => out_of_fuel
  | S fuel =>
      match element with
      | None => ret None
      | Some e =>
          do found <- matches e selector;
          if found then ret (Some e)
          else do parent <- get_parentNode e;
               closest_loop fuel parent selector
      end
  end.

(** [dom.closest(element, selector)] *)
Definition closest (fuel : nat) (element : target) (selector : string)
  : M (option ref) :=
  do element <- resolveNode element;
  do e <- deref element;
  do n <- node_of e;
  if has_closest n then native_closest e selector
  else closest_loop fuel element selector.

(** [dom.each(parent, callback)]; the callback is given its receiver
    and the element. *)
Definition each (parent : target) (callback : ref -> ref -> M unit)
  : M (option ref) :=
  do parent <- resolveNode parent;
  do p <- deref parent;
  do elements <- children p;
  exec forEach elements (fun element => callback p element);
  ret parent.

(** [dom.on(element, eventName, callback)] *)
Definition on (element : target) (eventName : string) (callback : ref)
  : M (option ref) :=
  do element <- resolveNode element;
  do e <- deref element;
  exec addEventListener e eventName callback false;
  ret element.

(** [dom.off(element, eventName, callback)] *)
Definition off (element : target) (eventName : string) (callback : ref)
  : M (option ref) :=
  do element <- resolveNode element;
  do e <- deref element;
  exec removeEventListener e eventName callback false;
  ret element.

(** [dom.trigger(element, event)] *)
Definition trigger (element : target) (event : value) : M bool :=
  do element <- resolveNode element;
  do e <- deref element;
  dispatchEvent e event.

(** *** Ranges *)

(** [document.createRange()]: both boundary points at the start of the
    document. *)
Definition createRange : M Range :=
  do doc <- get_document; ret (mkRange doc 0 doc 0).

(** The length of a node: of its data for character data, of its child
    list otherwise. *)
Definition node_length (n : node) : Z :=
  if (nodeType n =? 3) || (nodeType n =? 4) || (nodeType n =? 7)
     || (nodeType n =? 8)
  then Z.of_nat (String.length (nodeValue n))
  else if nodeType n =? 10 then 0
  else Z.of_nat (length (childNodes n)).

(** An offset as the [unsigned long] that [setStart] and [setEnd] take: the
    number modulo 2^32. *)
Definition unsigned_long (offset : Z) : Z := offset mod 2 ^ 32.

(** A boundary point is refused in a doctype, and with an offset, an
    [unsigned long], beyond the length of the node. *)
Definition check_boundary (node : ref) (offset : Z) : M unit :=
  do n <- node_of node;
  if nodeType n =? 10 then throw (DOMException "InvalidNodeTypeError")
  else if negb ((0 <=? offset) && (offset <? 2 ^ 32))
          || (node_length n <? offset)
       then throw (DOMException "IndexSizeError")
       else ret tt.

(** [range.setStart(node, offset)]: an end that would precede the new
    start is moved onto it. *)
Definition setStart (range : Range) (node : ref) (offset : Z) : M Range :=
  let offset := unsigned_long offset in
  exec check_boundary node offset;
  fun w =>
    Ok (if misordered w (node, offset) (endContainer range, endOffset range)
        then mkRange node offset node offset
        else mkRange node offset (endContainer range) (endOffset range),
        w).

(** [range.setEnd(node, offset)]: a start that would follow the new end
    is moved onto it. *)
Definition setEnd (range : Range) (node : ref) (offset : Z) : M Range :=
  let offset := unsigned_long offset in
  exec check_boundary node offset;
  fun w =>
    Ok (if misordered w (startContainer range, startOffset range)
             (node, offset)
        then mkRange node offset node offset
        else mkRange (startContainer range) (startOffset range) node offset,
        w).

Fixpoint index_in (r : ref) (l : list ref) : Z :=
  match l with
  | [] => 0
  | x :: l' => if Pos.eqb x r then 0 else 1 + index_in r l'
  end.

(** [range.selectNode(node)]: from just before the node to just after
    it, in its parent. *)
Definition selectNode (range : Range) (node : ref) : M Range :=
  do n <- node_of node;
  match parentNode n with
  | None => throw (DOMException "InvalidNodeTypeError")
  | Some parent =>
      do pn <- node_of parent;
      let index := index_in node (childNodes pn) in
      ret (mkRange parent index parent (index + 1))
  end.

(** [dom.range(startNode = null, startOffset = 0, endNode = null,
    endOffset = 0)]; a missing argument is [None]. *)
Definition range (startNode : option ref) (startOffset : option Z)
  (endNode : option ref) (endOffset : option Z) : M Range :=
  let startOffset := default 0 startOffset in
  let endOffset := default 0 endOffset in
  do range <- createRange;
  match startNode with
  | Some startNode =>
      match endNode with
      | Some endNode =>
          do range <- setStart range startNode startOffset;
          setEnd range endNode endOffset
      | None => selectNode range startNode
      end
  | None => ret range
  end.

(** *** Fragments parsed from markup *)

(** What a node is, apart from its place in the tree: kind, name, data. *)
Definition describe (w : world) (r : ref) : option (Z * string * string) :=
  match nodes w !! r with
  | Some n => Some (nodeType n, nodeName n, nodeValue n)
  | None => None
  end.

(** What the node of a parsed piece of markup is. *)
Definition parsed_as (m : markup) : Z * string * string :=
  match m with
  | MElement tag _ _ => (1, tag, "")
  | MText data => (3, "#text", data)
  | MComment data => (8, "#comment", data)
  end.

(** Every handle in use is below the next free one. *)
Definition store_ok (w : world) : Prop :=
  forall r n, nodes w !! r = Some n -> (r < next_ref w)%positive.

(** The cached scratch element, once created, is an element without
    children. *)
Definition factory_ready (w : world) : Prop :=
  forall f, nodeFactory w = Some f ->
            exists fn, nodes w !! f = Some fn /\ nodeType fn = 1 /\
                       childNodes fn = [].

(** [w'] has the nodes of [w] as they were, and possibly new ones. *)
Definition extends (w w' : world) : Prop :=
  (next_ref w <= next_ref w')%positive /\
  (forall r, (r < next_ref w)%positive -> nodes w' !! r = nodes w !! r) /\
  document w' = document w /\ docRange w' = docRange w /\
  nodeFactory w' = nodeFactory w /\ attr_writes w' = attr_writes w.

(** The node [r] of [w] lies under [parent] and is what [m] parses to. *)
Definition built_from (w : world) (parent : ref) (r : ref) (m : markup)
  : Prop :=
  exists n, nodes w !! r = Some n /\ parentNode n = Some parent /\
            (nodeType n, nodeName n, nodeValue n) = parsed_as m.

(** [getRange()] *)
Definition getRange : M Range :=
  do cached <- (fun w => Ok (docRange w, w));
  match cached with
  | Some docRange => ret docRange
  | None =>
      do fresh <- range None None None None;
      exec (fun w =>
              Ok (tt, {| nodes := nodes w; next_ref := next_ref w;
                         document := document w; docRange := Some fresh;
                         nodeFactory := nodeFactory w;
                         attr_writes := attr_writes w |}));
      ret fresh
  end.

(** [getNodeFactory()] *)
Definition getNodeFactory : M ref :=
  do cached <- (fun w => Ok (nodeFactory w, w));
  match cached with
  | Some nodeFactory => ret nodeFactory
  | None =>
      do fresh <- element "div" None;
      exec (fun w =>
              Ok (tt, {| nodes := nodes w; next_ref := next_ref w;
                         document := document w; docRange := docRange w;
                         nodeFactory := Some fresh;
                         attr_writes := attr_writes w |}));
      ret fresh
  end.

(** [while (factory.firstChild) fragment.appendChild(factory.firstChild)] *)
Fixpoint drain (fuel : nat) (factory fragment : ref) : M unit :=
  match fuel with
  | O => out_of_fuel
  | S fuel =>
      do first <- firstChild factory;
      match first with
      | None => ret tt
      | Some _ =>
          do first <- firstChild factory;
          do child <- deref first;
          exec appendChild fragment child;
          drain fuel factory fragment
      end
  end.

(** [createFragment(html = '')]; [fuel] bounds the iterations of the
    draining loop. *)
Definition createFragment (fuel : nat) (html : option string) : M ref :=
  let html := default "" html in
  if String.eqb html "" then createDocumentFragment
  else
    do range <- getRange;
    match createContextualFragment with
    | Some method => method range html
    | None =>
        do fragment <- createDocumentFragment;
        do factory <- getNodeFactory;
        exec set_innerHTML factory html;
        exec drain fuel factory fragment;
        ret fragment
    end.

(** *** The operations on a subject *)

(** A call of one of the operations that take a subject (element, node,
    parent, target or scope), with its other arguments. *)
Inductive call : Type :=
  | CallSetup (attributes : list (string * value))
  | CallAddClass (classNames : string + list string)
  | CallRemoveClass (classNames : string + list string)
  | CallToggleClass (classNames : string + list string)
  | CallHasClass (classNames : string + list string)
  | CallSetData (key : string) (value : value)
  | CallGetData (key : string)
  | CallAppend (node : content)
  | CallPrepend (node : content)
  | CallBefore (node : content)
  | CallAfter (node : content)
  | CallRemove
  | CallClear
  | CallClone (deep : option bool)
  | CallClosest (fuel : nat) (selector : string)
  | CallEach (callback : ref -> ref -> M unit)
  | CallOn (eventName : string) (callback : ref)
  | CallOff (eventName : string) (callback : ref)
  | CallTrigger (event : value)
  | CallQuery (selector : string)
  | CallQueryAll (selector : string).

(** What a call returns. *)
Inductive result : Type :=
  | Subject (r : option ref)
  | Answer (b : bool)
  | Data (v : value)
  | Found (r : option ref)
  | FoundAll (l : list ref)
  | Copy (r : ref).

Definition returning {A} (f : A -> result) (m : M A) : M result :=
  do a <- m; ret (f a).

(** The call [c] on the subject [subject]. *)
Definition perform (c : call) (subject : target) : M result :=
  match c with
  | CallSetup attributes => returning Subject (setup subject attributes)
  | CallAddClass names => returning Subject (addClass subject names)
  | CallRemoveClass names => returning Subject (removeClass subject names)
  | CallToggleClass names => returning Subject (toggleClass subject names)
  | CallHasClass names => returning Answer (hasClass subject names)
  | CallSetData key value => returning Subject (setData subject key value)
  | CallGetData key => returning Data (getData subject key)
  | CallAppend node => returning Subject (append subject node)
  | CallPrepend node => returning Subject (prepend subject node)
  | CallBefore node => returning Subject (before subject node)
  | CallAfter node => returning Subject (after subject node)
  | CallRemove => returning Subject (remove subject)
  | CallClear => returning Subject (clear subject)
  | CallClone deep => returning Copy (clone subject deep)
  | CallClosest fuel selector =>
      returning Found (closest fuel subject selector)
  | CallEach callback => returning Subject (each subject callback)
  | CallOn eventName callback =>
      returning Subject (on subject eventName callback)
  | CallOff eventName callback =>
      returning Subject (off subject eventName callback)
  | CallTrigger event => returning Answer (trigger subject event)
  | CallQuery selector => returning Found (query selector (Some subject))
  | CallQueryAll selector =>
      returning FoundAll (queryAll selector (Some subject))
  end.

(** The operations that change the document or its listeners, and [each]:
    the ones that are chained. *)
Definition chained (c : call) : bool :=
  match c with
  | CallSetup _ | CallAddClass _ | CallRemoveClass _ | CallToggleClass _
  | CallSetData _ _ | CallAppend _ | CallPrepend _ | CallBefore _
  | CallAfter _ | CallRemove | CallClear | CallEach _ | CallOn _ _
  | CallOff _ _ => true
  | _ => false
  end.

(** Every normal result of [m] is [x]. *)
Definition returns {A} (x : A) (m : M A) : Prop :=
  forall w a w', m w = Ok (a, w') -> a = x.

End Facade.

(** ** Text, comments and fragments from templates *)

Section Creation.

Context `{Host}.

(** [document.createTextNode(data)] *)
Definition createTextNode (data : string) : M ref :=
  alloc (blank 3 "#text" data None).

(** [document.createComment(data)] *)
Definition createComment (data : string) : M ref :=
  alloc (blank 8 "#comment" data None).

(** [dom.text(string = '')]; a missing argument is [None]. *)
Definition text (data : option string) : M ref :=
  createTextNode (default "" data).

(** [dom.comment(string = '')] *)
Definition comment (data : option string) : M ref :=
  createComment (default "" data).

(** A value as [typeof] and a read of [nodeType] see it: an object is a
    node of the state, with its kind, or an object without [nodeType]. *)
Definition view (w : world) (v : value) : NodeType.any :=
  match v with
  | VUndefined => NodeType.AUndefined
  | VNull => NodeType.ANull
  | VBool b => NodeType.ABool b
  | VNum n => NodeType.ANum n
  | VStr s => NodeType.AStr s
  | VObject h => NodeType.AObject (nodeType <$> nodes w !! h)
  end.

(** One of the tests of the node kind, on a value of the state. *)
Definition test (f : NodeType.any -> outcome bool) (v : value) : M bool :=
  fun w =>
    match f (view w v) with
    | Ok b => Ok (b, w)
    | Throw e => Throw e
    | OutOfFuel => OutOfFuel
    end.

(** What [dom.fragment] is given: nothing, a primitive or one object
    ([One]), or an array or [NodeList] of nodes ([Many]). *)
Inductive template : Type :=
  | One (v : value)
  | Many (items : list ref).

(** [template.content] of an element, and [document.importNode(node, deep)]. *)
Variable content_of : ref -> value.
Variable importNode : ref -> bool -> M ref.

(** [nodes.forEach((node) => docFragment.appendChild(node.cloneNode(true)))] *)
Definition append_clones (docFragment : ref) (nodes : list ref) : M unit :=
  forEach nodes
    (fun node =>
       do copy <- cloneNode node true;
       exec appendChild docFragment copy;
       ret tt).

(** The length of [Array.from(template)] for a template that is no list:
    that of the data of character data, which has a [length]; none for a
    value without [length]. *)
Definition array_length (w : world) (v : value) : nat :=
  match v with
  | VObject h =>
      match nodes w !! h with
      | Some n =>
          if is_character_data (nodeType n) then String.length (nodeValue n)
          else O
      | None => O
      end
  | _ => O
  end.

(** [dom.fragment(template)]; [fuel] is handed to [createFragment].  A
    falsy template that is not a string is falsy as [html] too, and takes
    the branch of the missing argument.  [Array.from] of a template that is
    no list holds [undefined] as often as the template is long, and
    [cloneNode] of the first [undefined] is a [TypeError]. *)
Definition fragment (fuel : nat) (template : template) : M ref :=
  match template with
  | One v =>
      if negb (truthy v) || isString v then
        createFragment fuel (match v with VStr s => Some s | _ => None end)
      else
        do is_element <- test NodeTest.isElement v;
        if is_element then
          match v with
          | VObject h =>
              let content := content_of h in
              do is_fragment <- test NodeTest.isFragment content;
              if is_fragment then
                match content with
                | VObject c => importNode c true
                | _ => throw TypeError
                end
              else
                do docFragment <- createFragment fuel None;
                do n <- node_of h;
                exec append_clones docFragment (childNodes n);
                ret docFragment
          | _ => throw TypeError
          end
        else
          do is_fragment <- test NodeTest.isFragment v;
          if is_fragment then
            match v with
            | VObject h => cloneNode h true
            | _ => throw TypeError
            end
          else
            do docFragment <- createFragment fuel None;
            do holes <- (fun w => Ok (array_length w v, w));
            match holes with
            | O => exec append_clones docFragment []; ret docFragment
            | S _ => throw TypeError
            end
  | Many items =>
      do docFragment <- createFragment fuel None;
      exec append_clones docFragment items;
      ret docFragment
  end.

End Creation.

(** ** Climbing the ancestors *)

Section Climbing.

Context `{Host}.

(** The element [r] has a matching method, which answers [b] for the
    selector and leaves the state as it is. *)
Definition answers (w : world) (selector : string) (b : bool) (r : ref)
  : Prop :=
  exists n m,
    nodes w !! r = Some n /\ first_matcher (matchers n) = Some m /\
    call_matcher m r selector w = Ok (b, w).

(** Each node of the list is the parent of the one before it, and the
    parent of the last one is [top]. *)
Fixpoint climbs (w : world) (rs : list ref) (top : option ref) : Prop :=
  match rs with
  | [] => True
  | r :: rest =>
      (exists n,
          nodes w !! r = Some n /\
          parentNode n = match rest with
                         | [] => top
                         | p :: _ => Some p
                         end) /\
      climbs w rest top
  end.

(** Where the climb starts: at the first node of the list, or at [top] when
    there is none. *)
Definition start (rs : list ref) (top : option ref) : option ref :=
  match rs with
  | [] => top
  | r :: _ => Some r
  end.

End Climbing.

(** ** Places in the tree *)

(** The nodes of [l] are nodes of the state whose parent is [p]. *)
Definition children_of (w : world) (p : ref) (l : list ref) : Prop :=
  forall k, k ∈ l ->
            exists kn, nodes w !! k = Some kn /\ parentNode kn = Some p.

(** A parent of kind [tp] takes a child of kind [tc] wherever it is put:
    an element or a fragment takes an element and character data, a
    document takes a processing instruction and a comment. *)
Definition takes (tp tc : Z) : Prop :=
  ((tp = 1 \/ tp = 11) /\ (tc = 1 \/ is_character_data tc = true)) \/
  (tp = 9 /\ (tc = 7 \/ tc = 8)).

(** The node [c] can be put under [p]: [p] takes the kind of [c], and [c]
    has no parent and is neither [p] nor one of its ancestors. *)
Definition insertable (w : world) (p c : ref) : Prop :=
  (exists pn cn,
      nodes w !! p = Some pn /\ nodes w !! c = Some cn /\
      parentNode cn = None /\ takes (nodeType pn) (nodeType cn)) /\
  inclusive_ancestor (size (nodes w)) (nodes w) c p = false.

(** From [w] to [w'] the node [c] has got the parent [p], the children of
    [p] have become [l], and nothing else has changed. *)
Definition placed (w w' : world) (p c : ref) (l : list ref) : Prop :=
  (exists pn,
      nodes w !! p = Some pn /\ nodes w' !! p = Some (set_childNodes l pn)) /\
  (exists cn,
      nodes w !! c = Some cn /\
      nodes w' !! c = Some (set_parentNode (Some p) cn)) /\
  (forall k, k <> p -> k <> c -> nodes w' !! k = nodes w !! k) /\
  next_ref w' = next_ref w /\ document w' = document w /\
  docRange w' = docRange w /\ nodeFactory w' = nodeFactory w /\
  attr_writes w' = attr_writes w.

(** ** New nodes and copies *)

(** From [w] to [w'] the handle [r], not in use before, has become a node
    of the kind that [getType] calls [kind], with the data [data], without
    parent and without children; the nodes and caches of [w] are as they
    were. *)
Definition fresh_node (w w' : world) (r : ref) (kind data : string) : Prop :=
  nodes w !! r = None /\ extends w w' /\ store_ok w' /\
  exists n,
    nodes w' !! r = Some n /\
    NodeType.getType (nodeType n) = VStr kind /\ nodeValue n = data /\
    parentNode n = None /\ childNodes n = [].

Section Copies.

Context `{Host}.



End Copies.

(** ** The properties given to [setup] *)

Section Given.

Context `{Host}.





End Given.

(** ** Hosts *)

(** What a dataset inherits on the engines: the members of
    [Object.prototype], each an object of its own, which an entry of the
    dataset under the same name hides. *)
Definition object_members : list string :=
  [ "toString"; "valueOf"; "hasOwnProperty"; "isPrototypeOf";
    "propertyIsEnumerable"; "toLocaleString"; "constructor"; "__proto__";
    "__defineGetter__"; "__defineSetter__"; "__lookupGetter__";
    "__lookupSetter__" ].

Fixpoint member_handle (key : string) (names : list string) (h : ref)
  : option ref :=
  match names with
  | [] => None
  | name :: names =>
      if String.eqb key name then Some h
      else member_handle key names (Pos.succ h)
  end.

Definition inherited_member (key : string) : option ref :=
  member_handle key object_members 1000%positive.

(** ** A sample host and page *)

Module Sample.

(** An engine without the optional capabilities: [#test] selects node 2,
    every matching method answers [true], and any markup parses to a
    paragraph, a text and a comment. *)
Definition host : Host :=
  {| obj_string := fun _ => "[object Object]";
     querySelector := fun _ s =>
       ret (if String.eqb s "#test" then Some 2%positive else None);
     querySelectorAll := fun _ s =>
       ret (if String.eqb s "#test" then [2%positive] else []);
     call_matcher := fun _ _ _ => ret true;
     native_closest := fun _ _ => ret None;
     parseHTML := fun s =>
       [ MElement "p" [("id", "foo")] [MText s]; MText "tail";
         MComment "end" ];
     insertAdjacentHTML := fun _ _ _ => ret tt;
     cloneNode := fun r _ => ret r;
     addEventListener := fun _ _ _ _ => ret tt;
     removeEventListener := fun _ _ _ _ => ret tt;
     dispatchEvent := fun _ _ => ret true;
     createContextualFragment := None;
     misordered := fun _ _ _ => false;
     attribute_key := fun name => name;
     attribute_name_ok := fun _ => true;
     dataset_name_ok := fun _ => true;
     dataset_inherited := inherited_member;
     element_name_ok := fun _ => true;
     html_document := false;
     new_classList := false;
     new_dataset := false;
     new_matchers := ["webkitMatchesSelector"];
     new_closest := false |}.

(** A document (1) holding [<div id="test" class="foo bar">] (2) with a
    paragraph (3), which has the native token list and dataset, and a
    text (4); (5) is a detached [span] of class [dup dup]. *)
Definition page : world :=
  {| nodes :=
       <[1%positive :=
           {| nodeType := 9; nodeName := "#document"; nodeValue := "";
              parentNode := None; childNodes := [2%positive];
              attributes := ∅; classList := None; dataset := None;
              matchers := []; has_closest := false |}]>
       (<[2%positive :=
           {| nodeType := 1; nodeName := "div"; nodeValue := "";
              parentNode := Some 1%positive;
              childNodes := [3%positive; 4%positive];
              attributes := <["id" := "test"]> (<["class" := "foo bar"]> ∅);
              classList := None; dataset := None;
              matchers := ["webkitMatchesSelector"];
              has_closest := false |}]>
       (<[3%positive :=
           {| nodeType := 1; nodeName := "p"; nodeValue := "";
              parentNode := Some 2%positive; childNodes := [];
              attributes := ∅; classList := Some ["foo"];
              dataset := Some ∅;
              matchers := ["matches"]; has_closest := true |}]>
       (<[4%positive :=
           {| nodeType := 3; nodeName := "#text"; nodeValue := "hello";
              parentNode := Some 2%positive; childNodes := [];
              attributes := ∅; classList := None; dataset := None;
              matchers := []; has_closest := false |}]>
       (<[5%positive :=
           {| nodeType := 1; nodeName := "span"; nodeValue := "";
              parentNode := None; childNodes := [];
              attributes := <["class" := "dup dup"]> ∅;
              classList := None; dataset := None;
              matchers := []; has_closest := false |}]> ∅))));
     next_ref := 6%positive;
     document := 1%positive;
     docRange := None;
     nodeFactory := None;
     attr_writes := [] |}.

End Sample.

(** ** A second engine and tree *)

Module Engine.

(** [node.cloneNode(deep)]: a copy of the node, detached, with copies of
    its descendants when [deep]; [fuel] bounds the depth of the tree. *)
Fixpoint clone_tree (fuel : nat) (deep : bool) (r : ref) : M ref :=
  match fuel with
  | O => out_of_fuel
  | S fuel =>
      do n <- node_of r;
      do copy <- alloc (set_parentNode None (set_childNodes [] n));
      if deep then
        do copies <- mapM (clone_tree fuel deep) (childNodes n);
        exec forEach copies
               (fun k => update_node k (set_parentNode (Some copy)));
        exec update_node copy (set_childNodes copies);
        ret copy
      else ret copy
  end.

(** An engine that matches type selectors only, by the name of the
    element, folds attribute names to lower case and clones nodes. *)
Definition host : Host :=
  {| obj_string := fun _ => "[object Object]";
     querySelector := fun _ _ => ret None;
     querySelectorAll := fun _ _ => ret [];
     call_matcher := fun _ r s =>
       do n <- node_of r; ret (String.eqb (nodeName n) s);
     native_closest := fun _ _ => ret None;
     parseHTML := fun s => [MText s];
     insertAdjacentHTML := fun _ _ _ => ret tt;
     cloneNode := fun r deep w => clone_tree (size (nodes w)) deep r w;
     addEventListener := fun _ _ _ _ => ret tt;
     removeEventListener := fun _ _ _ _ => ret tt;
     dispatchEvent := fun _ _ => ret true;
     createContextualFragment := None;
     misordered := fun _ _ _ => false;
     attribute_key := Shape.lowercase;
     attribute_name_ok := fun _ => true;
     dataset_name_ok := fun _ => true;
     dataset_inherited := inherited_member;
     element_name_ok := fun _ => false;
     html_document := true;
     new_classList := true;
     new_dataset := true;
     new_matchers := ["matches"];
     new_closest := false |}.

Definition element_node (name : string) (parent : option ref)
  (children : list ref) : node :=
  {| nodeType := 1; nodeName := name; nodeValue := "";
     parentNode := parent; childNodes := children;
     attributes := ∅; classList := Some []; dataset := Some ∅;
     matchers := ["matches"]; has_closest := false |}.

(** A document (1) holding [<section>] (2), which holds [<div>] (3) with a
    [<span>] (4), a text (5) and an [<em>] (6); (7) is a detached [<p>] and
    (8) a detached text. *)
Definition tree : world :=
  {| nodes :=
       <[1%positive := set_childNodes [2%positive]
                         (blank 9 "#document" "" None)]>
       (<[2%positive := element_node "section" (Some 1%positive) [3%positive]]>
       (<[3%positive := element_node "div" (Some 2%positive)
                          [4%positive; 5%positive; 6%positive]]>
       (<[4%positive := element_node "span" (Some 3%positive) []]>
       (<[5%positive := blank 3 "#text" "x" (Some 3%positive)]>
       (<[6%positive := element_node "em" (Some 3%positive) []]>
       (<[7%positive := element_node "p" None []]>
       (<[8%positive := blank 3 "#text" "loose" None]> ∅)))))));
     next_ref := 9%positive;
     document := 1%positive;
     docRange := None;
     nodeFactory := None;
     attr_writes := [] |}.

End Engine.

End Dom.

(** ** Waiting for the document *)

Module Ready.

(** Functions, by identity: a function of the caller, whose calls are
    recorded, or the closure [onDocumentReady] that a call of [dom.ready]
    creates around its callback. *)
Inductive function : Type :=
  | Given (id : nat)
  | OnDocumentReady (id : nat) (callback : function).

#[global] Instance function_eq_dec : EqDecision function.
Proof. solve_decision. Defined.

(** The document as an event target (its listeners, registered without
    capture, in the order of registration), the timers of the window, the
    record of the calls of functions of the caller, and the identity of the
    next function object. *)
Record page : Type := mkPage {
  readyState : string;
  listeners : list (string * function);
  timers : list (function * Z);
  calls : list nat;
  next_function : nat;
}.

Definition with_listeners (l : list (string * function)) (p : page) : page :=
  {| readyState := readyState p; listeners := l; timers := timers p;
     calls := calls p; next_function := next_function p |}.

(** [document.addEventListener(type, listener, false)]: a listener that is
    registered already is not registered again. *)
Definition addEventListener (type : string) (listener : function) (p : page)
  : page :=
  if bool_decide ((type, listener) ∈ listeners p) then p
  else with_listeners (listeners p ++ [(type, listener)]) p.

(** [document.removeEventListener(type, listener, false)] *)
Definition removeEventListener (type : string) (listener : function)
  (p : page) : page :=
  with_listeners (filter (fun l => l <> (type, listener)) (listeners p)) p.

(** [dom.on(document, eventName, callback)] *)
Definition on (eventName : string) (callback : function) (p : page) : page :=
  addEventListener eventName callback p.

(** [dom.off(document, eventName, callback)] *)
Definition off (eventName : string) (callback : function) (p : page) : page :=
  removeEventListener eventName callback p.

(** [setTimeout(callback, delay)] *)
Definition setTimeout (callback : function) (delay : Z) (p : page) : page :=
  {| readyState := readyState p; listeners := listeners p;
     timers := timers p ++ [(callback, delay)];
     calls := calls p; next_function := next_function p |}.

(** Calling a function: a call of a function of the caller is recorded;
    [onDocumentReady] removes itself from the listeners and calls its
    callback. *)
Fixpoint call (f : function) (p : page) : page :=
  match f with
  | Given id =>
      {| readyState := readyState p; listeners := listeners p;
         timers := timers p; calls := calls p ++ [id];
         next_function := next_function p |}
  | OnDocumentReady _ callback =>
      call callback (off "DOMContentLoaded" f p)
  end.

(** The document receives an event of the given type: the listeners of
    that type that are registered when the dispatch starts are called in
    their order, but for those removed in the meantime. *)
Definition dispatch (type : string) (p : page) : page :=
  foldl (fun p listener =>
           if bool_decide ((type, listener) ∈ listeners p)
           then call listener p else p)
    p (map snd (filter (fun l => l.1 = type) (listeners p))).

(** The timers run out: their functions are called in their order. *)
Definition run_timers (p : page) : page :=
  foldl (fun p t => call t.1 p)
    {| readyState := readyState p; listeners := listeners p; timers := [];
       calls := calls p; next_function := next_function p |}
    (timers p).

(** [dom.ready(callback)] *)
Definition ready (callback : function) (p : page) : page :=
  if negb (String.eqb (readyState p) "loading") then setTimeout callback 1 p
  else
    let eventName := "DOMContentLoaded" in
    let onDocumentReady := OnDocumentReady (next_function p) callback in
    on eventName onDocumentReady
      {| readyState := readyState p; listeners := listeners p;
         timers := timers p; calls := calls p;
         next_function := S (next_function p) |}.

(** No listener waits for the document yet. *)
Definition nobody_waits (p : page) : Prop :=
  Forall (fun l => l.1 <> "DOMContentLoaded") (listeners p).

End Ready.

(** * Properties *)

(** C3: [getType] returns the documented lowercase name for tags 1 to 12 and
    the empty string for tag 0 and for every tag outside 0..12; [isNode] is
    true exactly for non-null objects whose node-kind tag lies in [1,12]. *)
Theorem getType_isNode_classification :
  (forall tag : Z,
      NodeType.getType tag =
      VStr (if (1 <=? tag) && (tag <=? 12)
            then NodeType.documented_name tag else "")) /\
  (forall v : NodeType.any,
      NodeType.isNode v = true <-> NodeType.is_tagged_object v).
Proof.
  split.
  - intros tag. unfold NodeType.getType, NodeType.nodeTypes_at.
    destruct (Z.ltb_spec tag 0) as [Hneg|Hpos].
    + destruct (Z.leb_spec 1 tag); [lia|]. reflexivity.
    + destruct (Z.leb_spec tag 12) as [Hle|Hgt].
      * assert (Hcases : tag = 0 \/ tag = 1 \/ tag = 2 \/ tag = 3 \/ tag = 4 \/
                         tag = 5 \/ tag = 6 \/ tag = 7 \/ tag = 8 \/ tag = 9 \/
                         tag = 10 \/ tag = 11 \/ tag = 12) by lia.
        repeat (destruct Hcases as [->|Hcases]; [reflexivity|]).
        subst tag. reflexivity.
      * assert (Hnone : NodeType.nodeTypes !! Z.to_nat tag = None).
        { apply lookup_ge_None. simpl. lia. }
        rewrite Hnone, andb_false_r. reflexivity.
  - intros v. unfold NodeType.isNode, NodeType.is_tagged_object. split.
    + destruct v as [| | | | |t|[t|]]; simpl; try discriminate.
      intros H. apply andb_prop in H as [H1 H2].
      exists t. split; [reflexivity|]. lia.
    + intros (t & -> & Ht). simpl.
      apply andb_true_intro. split; lia.
Qed.

(** A document node (tag 9) is a node; an object without a tag is not. *)
Lemma getType_isNode_classification_witness :
  NodeType.isNode (NodeType.AObject (Some 9)) = true /\
  NodeType.isNode (NodeType.AObject None) = false.
Proof.
  split.
  - apply (proj2 getType_isNode_classification).
    exists 9. split; [reflexivity | lia].
  - reflexivity.
Defined.

(** ** Event construction *)

Section EventProperties.

Variable new_event : string -> string -> option Event.config -> bool.
Variable createEvent : string -> option exn.
Variable init_event : string -> list value -> option exn.
Variable obj_string : ref -> string.

Lemma truthy_is_set (c : Event.config) (name : string) :
  truthy (Event.prop c name) = Event.is_set c name.
Proof.
  unfold Event.prop, Event.is_set.
  destruct (c !! name) as [[| |[]|[]|[]|]|]; reflexivity.
Qed.

Lemma js_or_documented (c : Event.config) (name : string)
  (k : Event.field_class) :
  js_or (Event.prop c name) (Event.default_of k)
  = Event.documented_arg c (Event.Field name k).
Proof.
  unfold js_or. rewrite truthy_is_set. unfold Event.documented_arg.
  destruct (Event.is_set c name) eqn:Hset; [|reflexivity].
  unfold Event.prop, Event.is_set in *.
  destruct (c !! name); [reflexivity | discriminate].
Qed.

Lemma getEventModifiers_set (c : Event.config) :
  Event.getEventModifiers c = JsString.join_space (Event.modifiers_set c).
Proof.
  unfold Event.getEventModifiers, Event.modifiers_set.
  rewrite !truthy_is_set.
  destruct (Event.is_set c "ctrlKey"), (Event.is_set c "altKey"),
    (Event.is_set c "shiftKey"), (Event.is_set c "metaKey");
    reflexivity.
Qed.

Lemma switch_type_recognized (type : string) (c : Event.config) :
  type ∈ Event.recognized ->
  exists prefix : string,
    Event.switch_type type (Some c) =
    Ok (Some (prefix,
              map (Event.documented_arg c) (Event.documented_fields type)))
    /\ prefix +:+ "Event" = Event.native_type type.
Proof.
  unfold Event.recognized. rewrite !elem_of_cons, elem_of_nil.
  intros [->|[->|[->|[->|[->|[->|[->|[]]]]]]]];
    eexists;
    (split;
     [ cbn [Event.switch_type Event.documented_fields String.eqb Ascii.eqb
            Bool.eqb map];
       rewrite <- ?js_or_documented;
       cbn [Event.documented_arg Event.default_of];
       rewrite ?getEventModifiers_set; reflexivity
     | reflexivity ]).
Qed.

Lemma switch_type_null (type : string) :
  type ∈ Event.recognized ->
  Event.switch_type type None =
  if String.eqb type "event" then Ok (Some ("", [])) else Throw TypeError.
Proof.
  unfold Event.recognized. rewrite !elem_of_cons, elem_of_nil.
  intros [->|[->|[->|[->|[->|[->|[->|[]]]]]]]]; reflexivity.
Qed.

Lemma switch_type_unrecognized (type : string) (c : option Event.config) :
  type ∉ Event.recognized -> Event.switch_type type c = Ok None.
Proof.
  unfold Event.recognized. rewrite !not_elem_of_cons.
  intros (H1 & H2 & H3 & H4 & H5 & H6 & H7 & _).
  unfold Event.switch_type.
  repeat match goal with
         | |- context [String.eqb type ?k] =>
             destruct (String.eqb_spec type k); [congruence|]
         end.
  reflexivity.
Qed.

(** The outcome for a recognized kind and a config that is an object, or
    missing. *)
Lemma event_recognized (type name : string) (config : option Event.config) :
  type ∈ Event.recognized ->
  Event.event new_event createEvent init_event type name
    (match config with
     | Some c => Event.Config c
     | None => Event.NoConfig
     end) =
  let c := default ∅ config in
  if new_event (Event.native_type type) name (Some c)
  then Ok (Some (Event.documented_event true type name c))
  else match createEvent (Event.native_type type) with
       | Some e => Throw e
       | None =>
           match init_event (Event.native_type type)
                   (Event.documented_args type name c) with
           | Some e => Throw e
           | None => Ok (Some (Event.documented_event false type name c))
           end
       end.
Proof.
  intros Hin. unfold Event.event.
  assert (Hobject :
            match match config with
                  | Some c => Event.Config c
                  | None => Event.NoConfig
                  end with
            | Event.NoConfig => Some ∅
            | Event.NullConfig => None
            | Event.Config c => Some c
            end = Some (default ∅ config)) by (destruct config; reflexivity).
  rewrite Hobject.
  destruct (switch_type_recognized type (default ∅ config) Hin)
    as (prefix & -> & Hname).
  cbv zeta. rewrite Hname.
  destruct (new_event _ _ _); [reflexivity|].
  destruct (createEvent _); [reflexivity|].
  unfold Event.documented_event, Event.documented_args.
  change (VBool false) with (Event.default_of Event.Boolean).
  rewrite !js_or_documented. reflexivity.
Qed.

(** The outcome for a recognized kind and the config [null]. *)
Lemma event_null_config (type name : string) :
  type ∈ Event.recognized ->
  Event.event new_event createEvent init_event type name Event.NullConfig =
  if String.eqb type "event" then
    if new_event "Event" name None
    then Ok (Some (Event.Constructed "Event" name None))
    else match createEvent "Event" with
         | Some e => Throw e
         | None => Throw TypeError
         end
  else Throw TypeError.
Proof.
  intros Hin. unfold Event.event. rewrite (switch_type_null _ Hin).
  destruct (String.eqb type "event"); [|reflexivity].
  cbv zeta. change ("" +:+ "Event") with "Event".
  destruct (new_event _ _ _); [reflexivity|].
  destruct (createEvent _); reflexivity.
Qed.

(** C1, as amended: [event(kind, name, config)] returns [null], without
    raising, exactly when [kind] is not one of the seven recognized kinds,
    whatever [config] is.  For a recognized kind and a config that is an object, or missing, it
    returns the event of the corresponding native type: built by the one-call
    constructor from the config where the host has it, and otherwise by
    create-then-initialise with the name and, field by field, the value that
    is given or else the documented default (an exception of the host's own
    propagates).  For the config [null], which is no object, a recognized
    kind throws a [TypeError] at the first property read; the kind [event]
    reads none before the constructor is tried.
    [event('keyboard','keydown',{key:'Enter', ctrlKey:true})] is the
    constructed event of that config, or the event initialised with the key
    ['Enter'] and the modifier list ['Control']: only the Control modifier is
    on, and the key is ['Enter'] wherever the host's event is given a key
    (by the constructor, or by an [initKeyboardEvent] whose signature has
    the key and the modifier list). *)
Theorem event_null_iff_unrecognized :
  (forall (kind name : string) (config : Event.config_arg),
      Event.event new_event createEvent init_event kind name config = Ok None
      <-> kind ∉ Event.recognized) /\
  (forall (kind name : string) (config : option Event.config),
      kind ∈ Event.recognized ->
      Event.event new_event createEvent init_event kind name
        (match config with
         | Some c => Event.Config c
         | None => Event.NoConfig
         end) =
      let c := default ∅ config in
      if new_event (Event.native_type kind) name (Some c)
      then Ok (Some (Event.Constructed (Event.native_type kind) name (Some c)))
      else match createEvent (Event.native_type kind) with
           | Some e => Throw e
           | None =>
               match init_event (Event.native_type kind)
                       (Event.documented_args kind name c) with
               | Some e => Throw e
               | None =>
                   Ok (Some (Event.Initialised (Event.native_type kind)
                               ("init" +:+ Event.native_type kind)
                               (Event.documented_args kind name c)))
               end
           end) /\
  (forall kind name : string,
      kind ∈ Event.recognized ->
      Event.event new_event createEvent init_event kind name Event.NullConfig =
      if String.eqb kind "event" then
        if new_event "Event" name None
        then Ok (Some (Event.Constructed "Event" name None))
        else match createEvent "Event" with
             | Some e => Throw e
             | None => Throw TypeError
             end
      else Throw TypeError) /\
  (forall e : Event.event_object,
      Event.event new_event createEvent init_event "keyboard" "keydown"
        (Event.Config
           (<["key" := VStr "Enter"]> (<["ctrlKey" := VBool true]> ∅)))
      = Ok (Some e) ->
      (e = Event.Constructed "KeyboardEvent" "keydown"
             (Some (<["key" := VStr "Enter"]> (<["ctrlKey" := VBool true]> ∅)))
       \/ e = Event.Initialised "KeyboardEvent" "initKeyboardEvent"
                [ VStr "keydown"; VBool false; VBool false; VNull;
                  VStr "Enter"; VNum 0; VStr "Control"; VBool false;
                  VStr "" ]) /\
      (forall sig, Event.keyboard_modifiers sig e = ["Control"]) /\
      (forall sig,
          (exists init, e = Event.Constructed "KeyboardEvent" "keydown" init)
          \/ sig = Event.ModifiersList ->
          Event.keyboard_key obj_string sig e = Some "Enter")).
Proof.
  split; [|split; [|split]].
  - intros kind name config. split.
    + intros Hnull Hin. destruct config as [| |c].
      * rewrite (event_recognized _ _ None Hin) in Hnull.
        cbv zeta in Hnull.
        destruct (new_event _ _ _); [discriminate|].
        destruct (createEvent _); [discriminate|].
        destruct (init_event _ _); discriminate.
      * rewrite (event_null_config _ _ Hin) in Hnull.
        destruct (String.eqb kind "event"); [|discriminate].
        destruct (new_event _ _ _); [discriminate|].
        destruct (createEvent _); discriminate.
      * rewrite (event_recognized _ _ (Some c) Hin) in Hnull.
        cbv zeta in Hnull.
        destruct (new_event _ _ _); [discriminate|].
        destruct (createEvent _); [discriminate|].
        destruct (init_event _ _); discriminate.
    + intros Hout. unfold Event.event.
      rewrite (switch_type_unrecognized _ _ Hout). reflexivity.
  - intros kind name config Hin.
    rewrite (event_recognized _ _ _ Hin). reflexivity.
  - apply event_null_config.
  - intros e He.
    rewrite (event_recognized _ _ (Some _)) in He.
    2:{ unfold Event.recognized. rewrite !elem_of_cons. auto. }
    cbv zeta in He.
    destruct (new_event _ _ _).
    + injection He as <-. split; [left; reflexivity|].
      split; [intros sig; vm_compute; reflexivity|].
      intros sig _. vm_compute. reflexivity.
    + destruct (createEvent _); [discriminate|].
      destruct (init_event _ _); [discriminate|].
      injection He as <-. split; [right; vm_compute; reflexivity|].
      split; [intros [|]; vm_compute; reflexivity|].
      intros sig [[init Hinit]| ->]; [discriminate Hinit|].
      vm_compute. reflexivity.
Qed.

End EventProperties.

(** C1 as stated fails.  On a host that has every constructor, the config
    [null] makes the kind [ui] throw a [TypeError] at its first read of the
    config: a recognized kind, and no event.  On a host without the
    constructors whose [createEvent] knows no [WheelEvent], the kind [wheel]
    throws what [createEvent] throws.  And on a host without the
    constructors whose [initKeyboardEvent] takes the key identifier and the
    modifier flags, the event of the keyboard example is given no key. *)
Lemma event_fails_as_stated :
  ~ (forall (kind name : string) (config : Event.config_arg),
        kind ∈ Event.recognized ->
        exists e,
          Event.event (fun _ _ _ => true) (fun _ => None) (fun _ _ => None)
            kind name config = Ok (Some e)) /\
  ~ (forall (kind name : string) (config : Event.config),
        kind ∈ Event.recognized ->
        exists e,
          Event.event (fun _ _ _ => false)
            (fun type =>
               if String.eqb type "WheelEvent"
               then Some (DOMException "NotSupportedError") else None)
            (fun _ _ => None) kind name (Event.Config config) = Ok (Some e)) /\
  ~ (forall (sig : Event.init_signature) (e : Event.event_object),
        Event.event (fun _ _ _ => false) (fun _ => None) (fun _ _ => None)
          "keyboard" "keydown"
          (Event.Config
             (<["key" := VStr "Enter"]> (<["ctrlKey" := VBool true]> ∅)))
        = Ok (Some e) ->
        Event.keyboard_key (fun _ => "[object Object]") sig e = Some "Enter").
Proof.
  split.
  - intros Hevent.
    destruct (Hevent "ui" "resize" Event.NullConfig) as (e & He).
    + unfold Event.recognized. rewrite !elem_of_cons. auto.
    + discriminate He.
  - split.
    + intros Hevent.
      destruct (Hevent "wheel" "wheel" ∅) as (e & He).
      * unfold Event.recognized. rewrite !elem_of_cons. auto 10.
      * discriminate He.
    + intros Hkey.
      specialize (Hkey Event.ModifierFlags _ eq_refl). discriminate Hkey.
Qed.

(** On a host with the one-call constructors an unknown kind gives [null]
    and a keyboard event is constructed from the config; on a host without
    them the mouse event of an empty config is initialised with the name and
    the documented defaults; and the config [null] makes the kind [ui] throw. *)
Lemma event_null_iff_unrecognized_witness :
  Event.event (fun _ _ _ => true) (fun _ => None) (fun _ _ => None)
    "touch" "tap" Event.NoConfig = Ok None /\
  Event.event (fun _ _ _ => true) (fun _ => None) (fun _ _ => None)
    "keyboard" "keydown" Event.NoConfig
  = Ok (Some (Event.Constructed "KeyboardEvent" "keydown" (Some ∅))) /\
  Event.event (fun _ _ _ => false) (fun _ => None) (fun _ _ => None)
    "mouse" "click" (Event.Config (<["detail" := VStr ""]> ∅))
  = Ok (Some (Event.Initialised "MouseEvent" "initMouseEvent"
                [ VStr "click"; VBool false; VBool false; VNull; VNum 0;
                  VNum 0; VNum 0; VNum 0; VNum 0; VBool false; VBool false;
                  VBool false; VBool false; VNum 0; VNull ])) /\
  Event.event (fun _ _ _ => true) (fun _ => None) (fun _ _ => None)
    "ui" "resize" Event.NullConfig = Throw TypeError.
Proof.
  pose proof (event_null_iff_unrecognized (fun _ _ _ => true) (fun _ => None)
                (fun _ _ => None) (fun _ => ""))
    as (Hnull & Hrec & Hno & _).
  pose proof (event_null_iff_unrecognized (fun _ _ _ => false) (fun _ => None)
                (fun _ _ => None) (fun _ => ""))
    as (_ & Hold & _).
  split; [|split; [|split]].
  - apply Hnull. unfold Event.recognized. rewrite !not_elem_of_cons.
    repeat split; try discriminate. apply not_elem_of_nil.
  - rewrite (Hrec "keyboard" "keydown" None); [reflexivity|].
    unfold Event.recognized. rewrite !elem_of_cons. auto.
  - rewrite (Hold "mouse" "click" (Some (<["detail" := VStr ""]> ∅)));
      [reflexivity|].
    unfold Event.recognized. rewrite !elem_of_cons. auto.
  - rewrite (Hno "ui" "resize"); [reflexivity|].
    unfold Event.recognized. rewrite !elem_of_cons. auto.
Defined.

(** ** Running the facade *)

Section DomProperties.

Import Dom.
Context `{Dom.Host}.

Lemma bind_ok {A B} (m : M A) (k : A -> M B) (w w' : world) (a : A) :
  m w = Ok (a, w') -> bind m k w = k a w'.
Proof. intros Hm. unfold bind. rewrite Hm. reflexivity. Qed.

Lemma bind_ok_inv {A B} (m : M A) (k : A -> M B) (w w2 : world) (b : B) :
  bind m k w = Ok (b, w2) ->
  exists a w1, m w = Ok (a, w1) /\ k a w1 = Ok (b, w2).
Proof.
  unfold bind. destruct (m w) as [[a w1]| |]; try discriminate.
  intros Hk. exists a, w1. split; [reflexivity | exact Hk].
Qed.

Lemma node_of_ok (r : ref) (n : node) (w : world) :
  nodes w !! r = Some n -> node_of r w = Ok (n, w).
Proof. intros Hn. unfold node_of. rewrite Hn. reflexivity. Qed.

(** *** Selector matching *)

Lemma first_matcher_none (available : list string) :
  first_matcher available = None <->
  forall m, m ∈ matcher_names -> m ∉ available.
Proof.
  unfold first_matcher. split.
  - intros Hnone m Hm Hav.
    apply list_elem_of_In in Hm.
    pose proof (find_none _ _ Hnone m Hm) as Hf. simpl in Hf.
    apply bool_decide_eq_false in Hf. contradiction.
  - intros Hall.
    destruct (find _ _) as [m|] eqn:Hfind; [|reflexivity].
    apply find_some in Hfind as [Hin Hdec].
    apply bool_decide_eq_true in Hdec.
    apply list_elem_of_In in Hin. exfalso. exact (Hall m Hin Hdec).
Qed.

Lemma find_first {A} (f : A -> bool) (l : list A) (x : A) :
  find f l = Some x <->
  exists l1 l2, l = l1 ++ x :: l2 /\ f x = true /\
                forall y, y ∈ l1 -> f y = false.
Proof.
  induction l as [|a l IH]; simpl.
  - split; [discriminate|].
    intros (l1 & l2 & Heq & _). destruct l1; discriminate.
  - destruct (f a) eqn:Hfa.
    + split.
      * intros [= <-]. exists [], l. repeat split; [exact Hfa|].
        intros y Hy. apply elem_of_nil in Hy. contradiction.
      * intros (l1 & l2 & Heq & Hfx & Hpre).
        destruct l1 as [|b l1]; simpl in Heq.
        -- injection Heq as -> _. reflexivity.
        -- injection Heq as -> _.
           rewrite (Hpre b) in Hfa; [discriminate | apply elem_of_cons; auto].
    + rewrite IH. split.
      * intros (l1 & l2 & -> & Hfx & Hpre).
        exists (a :: l1), l2. repeat split; [exact Hfx|].
        intros y Hy. apply elem_of_cons in Hy as [->|Hy]; auto.
      * intros (l1 & l2 & Heq & Hfx & Hpre).
        destruct l1 as [|b l1]; simpl in Heq.
        -- injection Heq as -> _. congruence.
        -- injection Heq as -> ->. exists l1, l2. repeat split; [exact Hfx|].
           intros y Hy. apply Hpre. apply elem_of_cons. auto.
Qed.

Lemma first_matcher_some (available : list string) (m : string) :
  first_matcher available = Some m <-> first_available available m.
Proof.
  unfold first_matcher, first_available. rewrite find_first. split.
  - intros (l1 & l2 & Heq & Hm & Hpre). exists l1, l2.
    apply bool_decide_eq_true in Hm. repeat split; try assumption.
    intros x Hx. specialize (Hpre x Hx).
    apply bool_decide_eq_false in Hpre. exact Hpre.
  - intros (l1 & l2 & Heq & Hm & Hpre). exists l1, l2.
    repeat split; [exact Heq | apply bool_decide_eq_true; exact Hm |].
    intros y Hy. apply bool_decide_eq_false. exact (Hpre y Hy).
Qed.

(** C8: [matches] probes the six matching methods in order and hands the
    call to the first one the element has, with nothing else tried; it
    throws its unsupported-operation error exactly when the element has
    none of them (an exception of the method called is the host's own, and
    never that error). *)
Theorem matches_first_available_or_throws
  (w : world) (element : ref) (n : node) (selector : string) :
  nodes w !! element = Some n ->
  (forall m, call_matcher m element selector w
             <> Throw (Error "Method matches() is not supported")) ->
  (forall m, first_available (matchers n) m ->
             matches element selector w = call_matcher m element selector w) /\
  (matches element selector w = Throw (Error "Method matches() is not supported")
   <-> forall m, m ∈ matcher_names -> m ∉ matchers n).
Proof.
  intros Hn Hhost. unfold matches.
  rewrite (bind_ok _ _ _ _ _ (node_of_ok _ _ _ Hn)).
  split.
  - intros m Hm. apply first_matcher_some in Hm. rewrite Hm. reflexivity.
  - rewrite <- first_matcher_none.
    destruct (first_matcher (matchers n)) as [m|] eqn:Hfirst.
    + split; [|discriminate]. intros Hthrow. exfalso.
      exact (Hhost m Hthrow).
    + split; reflexivity.
Qed.

End DomProperties.

(** On the sample page the [div] exposes only the webkit method, which is
    the one called. *)
Lemma matches_first_available_or_throws_witness :
  Dom.matches (H := Dom.Sample.host) 2%positive "div" Dom.Sample.page
  = Ok (true, Dom.Sample.page) /\
  Dom.matches (H := Dom.Sample.host) 5%positive "div" Dom.Sample.page
  = Throw (Error "Method matches() is not supported").
Proof.
  split.
  - destruct (matches_first_available_or_throws (H := Dom.Sample.host)
                Dom.Sample.page 2%positive _ "div" eq_refl) as [Hfirst _].
    + intros m. discriminate.
    + rewrite (Hfirst "webkitMatchesSelector"); [reflexivity|].
      exists ["matches"; "matchesSelector"],
             ["mozMatchesSelector"; "msMatchesSelector"; "oMatchesSelector"].
      split; [reflexivity|]. split; [apply list_elem_of_In; simpl; auto|].
      intros x Hx Hav. apply list_elem_of_In in Hx. apply list_elem_of_In in Hav.
      simpl in Hx, Hav. intuition congruence.
  - destruct (matches_first_available_or_throws (H := Dom.Sample.host)
                Dom.Sample.page 5%positive _ "div" eq_refl) as [_ Hnone].
    + intros m. discriminate.
    + apply Hnone. intros m _ Hav. apply list_elem_of_In in Hav. exact Hav.
Defined.

(** ** Detaching a node *)

Section RemoveProperties.

Import Dom.
Context `{Dom.Host}.

Lemma update_node_ok (r : ref) (n : node) (f : node -> node) (w : world) :
  nodes w !! r = Some n ->
  update_node r f w = Ok (tt, with_nodes w (<[r := f n]> (nodes w))).
Proof. intros Hn. unfold update_node. rewrite Hn. reflexivity. Qed.

Lemma detach_ok (w : world) (r p : ref) (n pn : node) :
  nodes w !! r = Some n ->
  parentNode n = Some p ->
  nodes w !! p = Some pn ->
  p <> r ->
  detach r w =
  Ok (tt, with_nodes w
            (<[r := set_parentNode None n]>
               (<[p := set_childNodes (without r (childNodes pn)) pn]>
                  (nodes w)))).
Proof.
  intros Hn Hp Hpn Hne. unfold detach.
  rewrite (bind_ok _ _ _ _ _ (node_of_ok _ _ _ Hn)). rewrite Hp.
  rewrite (bind_ok _ _ _ _ _ (update_node_ok _ _ _ _ Hpn)).
  unfold update_node. simpl.
  rewrite lookup_insert_ne by exact Hne. rewrite Hn. reflexivity.
Qed.

(** C9: [remove(node)] returns the node itself; a node without a parent is
    left as it is, with the whole state unchanged and no error; a node with
    a parent is unlinked from it, and nothing else changes. *)
Theorem remove_detaches_only_with_parent (w : world) (r : ref) (n : node) :
  nodes w !! r = Some n ->
  (parentNode n = None -> remove (NodeRef r) w = Ok (Some r, w)) /\
  (forall (p : ref) (pn : node),
      parentNode n = Some p ->
      nodes w !! p = Some pn ->
      p <> r ->
      exists w',
        remove (NodeRef r) w = Ok (Some r, w') /\
        nodes w' !! r = Some (set_parentNode None n) /\
        nodes w' !! p =
          Some (set_childNodes (without r (childNodes pn)) pn) /\
        (forall x, x <> r -> x <> p -> nodes w' !! x = nodes w !! x) /\
        attr_writes w' = attr_writes w /\
        nodeFactory w' = nodeFactory w /\ docRange w' = docRange w).
Proof.
  intros Hn. split.
  - intros Hnone. unfold remove, resolveNode, deref, get_parentNode.
    unfold bind at 1. unfold ret at 1. unfold bind at 1. unfold ret at 1.
    rewrite (bind_ok _ _ _ _ _ (bind_ok _ _ _ _ _ (node_of_ok _ _ _ Hn))).
    rewrite Hnone. reflexivity.
  - intros p pn Hp Hpn Hne.
    eexists. split; [|split; [|split; [|split]]].
    + unfold remove, resolveNode, deref, get_parentNode.
      unfold bind at 1. unfold ret at 1. unfold bind at 1. unfold ret at 1.
      rewrite (bind_ok _ _ _ _ _ (bind_ok _ _ _ _ _ (node_of_ok _ _ _ Hn))).
      rewrite Hp. unfold removeChild.
      unfold bind at 1. unfold bind at 1. unfold bind at 1.
      rewrite (node_of_ok _ _ _ Hn). rewrite Hp.
      rewrite bool_decide_eq_true_2 by reflexivity.
      unfold bind at 1.
      rewrite (detach_ok _ _ _ _ _ Hn Hp Hpn Hne). reflexivity.
    + simpl. apply lookup_insert_eq.
    + simpl. rewrite lookup_insert_ne by congruence. apply lookup_insert_eq.
    + intros x Hx1 Hx2. simpl.
      rewrite !lookup_insert_ne by congruence. reflexivity.
    + repeat split.
Qed.

End RemoveProperties.

(** The detached [span] of the sample page is returned untouched; the
    paragraph is unlinked from the [div]. *)
Lemma remove_detaches_only_with_parent_witness :
  Dom.remove (H := Dom.Sample.host) (Dom.NodeRef 5%positive) Dom.Sample.page
  = Ok (Some 5%positive, Dom.Sample.page) /\
  exists w' div,
    Dom.remove (H := Dom.Sample.host) (Dom.NodeRef 3%positive) Dom.Sample.page
    = Ok (Some 3%positive, w') /\
    Dom.nodes w' !! 2%positive = Some div /\
    Dom.childNodes div = [4%positive].
Proof.
  split.
  - apply (remove_detaches_only_with_parent (H := Dom.Sample.host)
             Dom.Sample.page 5%positive _ eq_refl).
    reflexivity.
  - destruct (remove_detaches_only_with_parent (H := Dom.Sample.host)
                Dom.Sample.page 3%positive _ eq_refl) as [_ Hdetach].
    destruct (Hdetach 2%positive _ eq_refl eq_refl) as (w' & Hrun & _ & Hp & _).
    + discriminate.
    + exists w'. eexists. split; [exact Hrun|]. split; [exact Hp|]. reflexivity.
Defined.

(** ** Ranges *)

Section RangeProperties.

Import Dom.
Context `{Dom.Host}.

(** A call without a start node returns the range of
    [document.createRange()] as it is. *)
Lemma range_without_start (w : world) (startOffset endOffset : option Z)
  (endNode : option ref) :
  range None startOffset endNode endOffset w
  = Ok (mkRange (document w) 0 (document w) 0, w).
Proof. reflexivity. Qed.

(** An offset that passes the check of a boundary point is an
    [unsigned long] as it stands. *)
Lemma check_boundary_unsigned (node : ref) (offset : Z) (w w' : world) :
  check_boundary node offset w = Ok (tt, w') -> unsigned_long offset = offset.
Proof.
  unfold check_boundary, bind, node_of.
  destruct (nodes w !! node) as [n|]; [|discriminate].
  destruct (nodeType n =? 10); [discriminate|].
  destruct (Z.leb_spec 0 offset) as [Hlo|]; [|discriminate].
  destruct (Z.ltb_spec offset (2 ^ 32)) as [Hhi|]; [|discriminate].
  intros _. unfold unsigned_long. apply Z.mod_small. lia.
Qed.

(** C6, as amended: [range()] without arguments returns an empty, collapsed
    range at the start of the document; with only a start node it selects
    that whole node, from just before it to just after it in its parent;
    with a start and an end node it sets the boundaries through [setStart]
    and [setEnd], which place them as given when the host accepts both
    points and the start does not follow the end. *)
Theorem range_boundaries (w : world) :
  (exists r,
      range None None None None w = Ok (r, w) /\
      collapsed r = true /\
      startContainer r = document w /\ startOffset r = 0) /\
  (forall (startNode parent : ref) (n pn : node) (startOffset endOffset : option Z),
      nodes w !! startNode = Some n ->
      parentNode n = Some parent ->
      nodes w !! parent = Some pn ->
      range (Some startNode) startOffset None endOffset w
      = Ok (mkRange parent (index_in startNode (childNodes pn))
                    parent (index_in startNode (childNodes pn) + 1), w)) /\
  (forall (startNode endNode : ref) (startOffset endOffset : Z),
      check_boundary startNode startOffset w = Ok (tt, w) ->
      check_boundary endNode endOffset w = Ok (tt, w) ->
      misordered w (startNode, startOffset) (endNode, endOffset) = false ->
      range (Some startNode) (Some startOffset) (Some endNode) (Some endOffset) w
      = Ok (mkRange startNode startOffset endNode endOffset, w)).
Proof.
  split; [|split].
  - eexists. split; [apply range_without_start|].
    split; [|split; reflexivity].
    unfold collapsed. simpl. rewrite bool_decide_eq_true_2 by reflexivity.
    reflexivity.
  - intros startNode parent n pn so eo Hn Hp Hpn.
    unfold range, createRange, get_document, selectNode.
    unfold bind at 1. unfold bind at 1. unfold ret at 1.
    rewrite (bind_ok _ _ _ _ _ (node_of_ok _ _ _ Hn)). rewrite Hp.
    rewrite (bind_ok _ _ _ _ _ (node_of_ok _ _ _ Hpn)). reflexivity.
  - intros startNode endNode so eo Hs He Hord.
    unfold range, createRange, get_document, setStart, setEnd.
    change (default 0 (Some so)) with so. change (default 0 (Some eo)) with eo.
    cbv zeta.
    rewrite (check_boundary_unsigned _ _ _ _ Hs).
    rewrite (check_boundary_unsigned _ _ _ _ He). simpl.
    unfold bind at 1. unfold bind at 1. unfold ret at 1.
    unfold bind at 1. unfold bind at 1. rewrite Hs.
    unfold bind at 1. rewrite He.
    simpl.
    destruct (misordered w (startNode, so) (document w, 0)); simpl;
      rewrite Hord; reflexivity.
Qed.

End RangeProperties.

(** C6 as stated fails: the range [range()] returns is collapsed. *)
Lemma range_no_arguments_is_collapsed :
  ~ (forall r,
        Dom.range (H := Dom.Sample.host) None None None None Dom.Sample.page
        = Ok (r, Dom.Sample.page) ->
        Dom.collapsed r = false).
Proof.
  intros Huncollapsed.
  specialize (Huncollapsed (Dom.mkRange 1%positive 0 1%positive 0) eq_refl).
  discriminate Huncollapsed.
Qed.

(** On the sample page, the paragraph is selected as child 0 of the [div],
    and explicit boundaries inside the text node are kept. *)
Lemma range_boundaries_witness :
  Dom.range (H := Dom.Sample.host) (Some 3%positive) None None None
    Dom.Sample.page
  = Ok (Dom.mkRange 2%positive 0 2%positive 1, Dom.Sample.page) /\
  Dom.range (H := Dom.Sample.host) (Some 4%positive) (Some 1) (Some 4%positive)
    (Some 3) Dom.Sample.page
  = Ok (Dom.mkRange 4%positive 1 4%positive 3, Dom.Sample.page).
Proof.
  destruct (range_boundaries (H := Dom.Sample.host) Dom.Sample.page)
    as (_ & Hselect & Hboth).
  split.
  - apply (Hselect 3%positive 2%positive _ _ None None eq_refl eq_refl eq_refl).
  - apply Hboth; reflexivity.
Defined.

(** ** Data attributes *)

Section DataProperties.

Import Dom.
Context `{Dom.Host}.

Lemma append_empty_r (s : string) : s +:+ "" = s.
Proof.
  induction s as [|c s IH]; [reflexivity|].
  change (String c (s +:+ "") = String c s). rewrite IH. reflexivity.
Qed.

Lemma concat_empty_cons (x : string) (l : list string) :
  String.concat "" (x :: l) = x +:+ String.concat "" l.
Proof.
  destruct l as [|y l]; cbn [String.concat].
  - rewrite append_empty_r. reflexivity.
  - reflexivity.
Qed.

Lemma hyphenate_kebab_case (key : string) :
  JsString.hyphenate key = JsString.kebab_case key.
Proof.
  unfold JsString.kebab_case.
  induction key as [|c key IH]; [reflexivity|].
  cbn [JsString.hyphenate list_ascii_of_string map].
  rewrite concat_empty_cons, <- IH. unfold JsString.kebab_piece.
  destruct (JsString.is_upper c); reflexivity.
Qed.

(** The string of an integer up to 2^53 is its numeral, with its sign. *)
Lemma safe_integer_numeral (i : Z) :
  - 2 ^ 53 <= i <= 2 ^ 53 ->
  JsNumber.to_string i = NilZero.string_of_int (Z.to_int i).
Proof.
  intros Hi. unfold JsNumber.to_string.
  destruct (Z.leb_spec (Z.abs i) (2 ^ 53)) as [_|Hbig]; [reflexivity | lia].
Qed.

Lemma natural_numeral (i : Z) :
  0 <= i ->
  NilZero.string_of_int (Z.to_int i)
  = NilZero.string_of_uint (N.to_uint (Z.to_N i)).
Proof.
  intros Hi. destruct i as [|p|p]; [reflexivity | reflexivity | lia].
Qed.

Lemma negative_numeral (i : Z) :
  i < 0 ->
  NilZero.string_of_int (Z.to_int i)
  = String "-"%char (NilZero.string_of_uint (N.to_uint (Z.to_N (- i)))).
Proof.
  intros Hi. destruct i as [|p|p]; [lia | lia | reflexivity].
Qed.

Lemma setData_getData_roundtrip (w w' : world) (e : ref) (n : node)
  (key : string) (v : value) (r : option ref) :
  nodes w !! e = Some n ->
  setData (NodeRef e) key v w = Ok (r, w') ->
  getData (NodeRef e) key w' = Ok (VStr (to_string obj_string v), w').
Proof.
  intros Hn.
  unfold setData, getData, resolveNode, deref, dataset_set, dataset_get,
    setAttribute, getAttribute, update_node.
  unfold bind, ret, node_of, throw. simpl. rewrite Hn.
  change ("" +:+ to_string obj_string v) with (to_string obj_string v).
  destruct (dataset n) as [d|] eqn:Hd.
  - rewrite Hn, Hd.
    destruct (dataset_name_ok key); [|discriminate].
    rewrite Hn. intros [= _ <-]. simpl.
    repeat (rewrite lookup_insert_eq; cbn). reflexivity.
  - rewrite Hn.
    destruct (nodeType n =? 1) eqn:Hty; [|discriminate]. simpl.
    destruct (attribute_name_ok (toDataKey key)); [|discriminate]. simpl.
    intros [= _ <-]. simpl.
    repeat (rewrite lookup_insert_eq; cbn; rewrite ?Hd, ?Hty; cbn).
    reflexivity.
Qed.

(** C5: what [setData] stores is read back by [getData] as a string, the
    conversion ['' + value] of the value: a string as it is, [true] and
    [false] as ["true"] and ["false"], [null] and [undefined] by their names,
    an integer up to 2^53 as its decimal numeral (and 10^21 in exponent
    form), an object as the host converts it.  On an element without the
    native dataset both go through [setAttribute] and [getAttribute] on the
    attribute named [data-] followed by the key with each uppercase letter
    replaced by a hyphen and its lowercase. *)
Theorem setData_getData_string (w : world) (e : ref) (n : node)
  (key : string) (v : value) :
  nodes w !! e = Some n ->
  (forall r w',
      setData (NodeRef e) key v w = Ok (r, w') ->
      exists text,
        getData (NodeRef e) key w' = Ok (VStr text, w') /\
        text = to_string obj_string v /\
        match v with
        | VUndefined => text = "undefined"
        | VNull => text = "null"
        | VBool b => text = if b then "true" else "false"
        | VNum i =>
            (0 <= i <= 2 ^ 53 ->
             text = NilZero.string_of_uint (N.to_uint (Z.to_N i))) /\
            (- 2 ^ 53 <= i < 0 ->
             text = String "-"%char
                      (NilZero.string_of_uint (N.to_uint (Z.to_N (- i))))) /\
            (i = 42 -> text = "42") /\ (i = -7 -> text = "-7") /\
            (i = 10 ^ 21 -> text = "1e+21") /\
            (i = 2 ^ 53 + 1 -> text = "9007199254740992")
        | VStr s => text = s
        | VObject h => text = obj_string h
        end) /\
  (forall r w',
      setData (NodeRef e) "fooBar" (VBool true) w = Ok (r, w') ->
      getData (NodeRef e) "fooBar" w' = Ok (VStr "true", w')) /\
  (dataset n = None ->
   setData (NodeRef e) key v w =
   bind (setAttribute e ("data-" +:+ JsString.kebab_case key)
           (to_string obj_string v))
        (fun _ => ret (Some e)) w /\
   getData (NodeRef e) key w =
   bind (getAttribute e ("data-" +:+ JsString.kebab_case key))
        (fun a => ret (match a with Some text => VStr text | None => VNull end))
        w).
Proof.
  intros Hn. split; [|split].
  - intros r w' Hset. exists (to_string obj_string v).
    split; [apply (setData_getData_roundtrip _ _ _ _ _ _ _ Hn Hset)|].
    split; [reflexivity|].
    destruct v as [| |[]|i|s|h]; try reflexivity.
    cbn [to_string]. split; [|split; [|split; [|split; [|split]]]].
    + intros Hi. rewrite safe_integer_numeral by lia.
      apply natural_numeral. lia.
    + intros Hi. rewrite safe_integer_numeral by lia.
      apply negative_numeral. lia.
    + intros ->. reflexivity.
    + intros ->. reflexivity.
    + intros ->. vm_compute. reflexivity.
    + intros ->. vm_compute. reflexivity.
  - intros r w' Hset.
    apply (setData_getData_roundtrip _ _ _ _ _ _ _ Hn Hset).
  - intros Hd. unfold setData, getData, resolveNode, deref, toDataKey.
    rewrite hyphenate_kebab_case.
    split.
    + unfold bind at 1. unfold ret at 1. unfold bind at 1. unfold ret at 1.
      rewrite (bind_ok _ _ _ _ _ (node_of_ok _ _ _ Hn)). rewrite Hd.
      reflexivity.
    + unfold bind at 1. unfold ret at 1. unfold bind at 1. unfold ret at 1.
      rewrite (bind_ok _ _ _ _ _ (node_of_ok _ _ _ Hn)). rewrite Hd.
      reflexivity.
Qed.

End DataProperties.

(** On the sample page: the paragraph stores through its dataset, the [div]
    through the attribute [data-foo-bar]; and the number 1200 is read back
    as its numeral. *)
Lemma setData_getData_string_witness :
  (exists w',
      Dom.setData (H := Dom.Sample.host) (Dom.NodeRef 3%positive) "fooBar"
        (VBool true) Dom.Sample.page = Ok (Some 3%positive, w') /\
      Dom.getData (H := Dom.Sample.host) (Dom.NodeRef 3%positive) "fooBar" w'
      = Ok (VStr "true", w')) /\
  (exists w' div,
      Dom.setData (H := Dom.Sample.host) (Dom.NodeRef 2%positive) "fooBar"
        (VBool true) Dom.Sample.page = Ok (Some 2%positive, w') /\
      Dom.nodes w' !! 2%positive = Some div /\
      Dom.attributes div !! "data-foo-bar" = Some "true") /\
  (exists w',
      Dom.setData (H := Dom.Sample.host) (Dom.NodeRef 3%positive) "count"
        (VNum 1200) Dom.Sample.page = Ok (Some 3%positive, w') /\
      Dom.getData (H := Dom.Sample.host) (Dom.NodeRef 3%positive) "count" w'
      = Ok (VStr "1200", w')).
Proof.
  split; [|split].
  - eexists. split; [reflexivity|].
    destruct (setData_getData_string (H := Dom.Sample.host) Dom.Sample.page
                3%positive _ "fooBar" (VBool true) eq_refl) as (_ & Hex & _).
    apply (Hex (Some 3%positive)). reflexivity.
  - destruct (setData_getData_string (H := Dom.Sample.host) Dom.Sample.page
                2%positive _ "fooBar" (VBool true) eq_refl) as (_ & _ & Hfall).
    destruct (Hfall eq_refl) as [Hset _].
    eexists. eexists. split; [rewrite Hset; reflexivity|].
    split; [apply lookup_insert_eq|]. reflexivity.
  - eexists. split; [reflexivity|].
    destruct (setData_getData_string (H := Dom.Sample.host) Dom.Sample.page
                3%positive _ "count" (VNum 1200) eq_refl) as (Hall & _).
    destruct (Hall (Some 3%positive) _ eq_refl)
      as (text & Hget & _ & Hsafe & _).
    rewrite Hget. rewrite (Hsafe ltac:(lia)). reflexivity.
Defined.

(** ** Reading back a class attribute *)

Section ClassAttribute.

Import JsString Shape.

Lemma is_space_white (c : ascii) : is_space c = true -> is_white c = true.
Proof.
  unfold is_space. intros Hc. apply Ascii.eqb_eq in Hc. subst c. reflexivity.
Qed.

Lemma valid_name_cons (s : string) :
  valid_name s ->
  exists c s', s = String c s' /\ is_white c = false /\ white_free s' = true.
Proof.
  intros [Hne Hfree]. destruct s as [|c s']; [contradiction|].
  simpl in Hfree. apply andb_prop in Hfree as [Hc Hs].
  exists c, s'. split; [reflexivity|]. split; [|exact Hs].
  destruct (is_white c); [discriminate | reflexivity].
Qed.

Lemma not_white_not_space (c : ascii) : is_white c = false -> is_space c = false.
Proof.
  intros Hw. destruct (is_space c) eqn:Hs; [|reflexivity].
  rewrite (is_space_white _ Hs) in Hw. discriminate.
Qed.

(** Splitting a string that starts with a word. *)
Lemma split_spaces_from_word (t rest : string) :
  white_free t = true ->
  split_spaces_from false (t +:+ String space rest)
  = t :: split_spaces_from true rest.
Proof.
  intros Hfree. induction t as [|c t IH].
  - reflexivity.
  - simpl in Hfree. apply andb_prop in Hfree as [Hc Ht].
    change (String c t +:+ String space rest)
      with (String c (t +:+ String space rest)).
    cbn [split_spaces_from].
    rewrite not_white_not_space by (destruct (is_white c); [discriminate|reflexivity]).
    rewrite (IH Ht). reflexivity.
Qed.

Lemma split_spaces_from_last_word (t : string) :
  white_free t = true -> split_spaces_from false t = [t].
Proof.
  intros Hfree. induction t as [|c t IH]; [reflexivity|].
  simpl in Hfree. apply andb_prop in Hfree as [Hc Ht].
  cbn [split_spaces_from].
  rewrite not_white_not_space by (destruct (is_white c); [discriminate|reflexivity]).
  rewrite (IH Ht). reflexivity.
Qed.

(** Inside a separator run or not, a word starts a new piece. *)
Lemma split_spaces_from_start (c : ascii) (s : string) (b : bool) :
  is_space c = false ->
  split_spaces_from b (String c s) = split_spaces_from false (String c s).
Proof. intros Hc. cbn [split_spaces_from]. rewrite Hc. reflexivity. Qed.

Lemma join_space_cons (t : string) (l : list string) :
  l <> [] -> join_space (t :: l) = t +:+ String space (join_space l).
Proof. destruct l; [contradiction | reflexivity]. Qed.

Lemma join_space_push (c : ascii) (t : string) (ts : list string) :
  join_space (String c t :: ts) = String c (join_space (t :: ts)).
Proof. destruct ts; reflexivity. Qed.

Lemma join_space_valid_head (l : list string) :
  l <> [] -> Forall valid_name l ->
  exists c s, join_space l = String c s /\ is_white c = false.
Proof.
  intros Hne Hall. destruct l as [|t l]; [contradiction|].
  apply Forall_cons in Hall as [Ht Hl].
  destruct (valid_name_cons _ Ht) as (c & t' & -> & Hc & _).
  destruct l as [|u l].
  - exists c, t'. split; [reflexivity | exact Hc].
  - exists c, (t' +:+ String space (join_space (u :: l))).
    split; [reflexivity | exact Hc].
Qed.

(** The names joined by single spaces split back into the names. *)
Lemma split_spaces_join (l : list string) :
  l <> [] -> Forall valid_name l -> split_spaces (join_space l) = l.
Proof.
  unfold split_spaces. induction l as [|t l IH]; [contradiction|].
  intros _ Hall. apply Forall_cons in Hall as [Ht Hl].
  destruct l as [|u l].
  - apply split_spaces_from_last_word. apply Ht.
  - rewrite join_space_cons by discriminate.
    rewrite split_spaces_from_word by apply Ht.
    destruct (join_space_valid_head (u :: l)) as (c & s & Hjoin & Hc);
      [discriminate | exact Hl |].
    rewrite Hjoin.
    rewrite split_spaces_from_start by (apply not_white_not_space; exact Hc).
    rewrite <- Hjoin. rewrite IH by (discriminate || exact Hl). reflexivity.
Qed.

Lemma ends_clean_append (a b : string) :
  b <> EmptyString -> ends_clean (a +:+ b) = ends_clean b.
Proof.
  intros Hb. induction a as [|c a IH]; [reflexivity|].
  change (String c a +:+ b) with (String c (a +:+ b)).
  cbn [ends_clean]. rewrite IH.
  destruct (a +:+ b) eqn:Hab; [|reflexivity].
  destruct a; [simpl in Hab; contradiction | discriminate].
Qed.

Lemma ends_clean_valid (t : string) : valid_name t -> ends_clean t = true.
Proof.
  intros [Hne Hfree]. induction t as [|c t IH]; [contradiction|].
  simpl in Hfree. apply andb_prop in Hfree as [Hc Ht].
  destruct t as [|d t]; [exact Hc|].
  cbn [ends_clean]. apply IH; [discriminate | exact Ht].
Qed.

Lemma ends_clean_join (l : list string) :
  l <> [] -> Forall valid_name l -> ends_clean (join_space l) = true.
Proof.
  induction l as [|t l IH]; [contradiction|].
  intros _ Hall. apply Forall_cons in Hall as [Ht Hl].
  destruct l as [|u l]; [apply ends_clean_valid; exact Ht|].
  rewrite join_space_cons by discriminate.
  rewrite ends_clean_append by discriminate.
  cbn [ends_clean].
  destruct (join_space_valid_head (u :: l)) as (c & s & Hjoin & Hc);
    [discriminate | exact Hl |].
  rewrite Hjoin. rewrite <- Hjoin. apply IH; [discriminate | exact Hl].
Qed.

Lemma trimEnd_clean (s : string) : ends_clean s = true -> trimEnd s = s.
Proof.
  induction s as [|c s IH]; [discriminate|].
  destruct s as [|d s].
  - cbn. intros Hc. destruct (is_white c); [discriminate | reflexivity].
  - intros Hend. cbn [ends_clean] in Hend.
    change (trimEnd (String c (String d s)))
      with (match trimEnd (String d s) with
            | EmptyString =>
                if is_white c then EmptyString else String c EmptyString
            | r => String c r
            end).
    rewrite (IH Hend). reflexivity.
Qed.

(** [trim] leaves the joined names as they are, and removes the space left
    in front by a blank first name. *)
Lemma trim_join (l : list string) :
  l <> [] -> Forall valid_name l ->
  trim (join_space l) = join_space l /\
  trim (String space (join_space l)) = join_space l.
Proof.
  intros Hne Hall.
  destruct (join_space_valid_head l Hne Hall) as (c & s & Hjoin & Hc).
  assert (Hstart : trimStart (join_space l) = join_space l).
  { rewrite Hjoin. cbn [trimStart]. rewrite Hc. reflexivity. }
  unfold trim. cbn [trimStart].
  replace (is_white space) with true by reflexivity.
  rewrite Hstart. split; apply trimEnd_clean, ends_clean_join; assumption.
Qed.

Lemma read_back_valid (l : list string) :
  l <> [] -> Forall valid_name l -> read_back l = l.
Proof.
  intros Hne Hall. unfold read_back.
  rewrite (proj1 (trim_join l Hne Hall)). apply split_spaces_join; assumption.
Qed.

Lemma read_back_blank_head (l : list string) :
  l <> [] -> Forall valid_name l -> read_back (EmptyString :: l) = l.
Proof.
  intros Hne Hall. unfold read_back.
  rewrite join_space_cons by exact Hne.
  change (EmptyString +:+ String space (join_space l))
    with (String space (join_space l)).
  rewrite (proj2 (trim_join l Hne Hall)). apply split_spaces_join; assumption.
Qed.

(** *** Names that are not tokens *)

Lemma split_spaces_from_shape (s : string) :
  ends_with_space s = false ->
  (exists t ts,
      split_spaces_from false s = t :: ts /\ space_free t = true /\
      Forall plain_name ts /\
      (starts_with_space s = false -> s <> "" -> t <> "")) /\
  (s <> "" -> Forall plain_name (split_spaces_from true s)).
Proof.
  induction s as [|c s IH]; intros Hend.
  - split; [|contradiction].
    exists "", []. repeat split; [constructor | contradiction].
  - assert (Htail : ends_with_space s = false /\
                    (s = "" -> is_space c = false)).
    { destruct s; [split; [reflexivity | intros _; exact Hend]|].
      split; [exact Hend | discriminate]. }
    destruct Htail as [Hend' Hlast].
    destruct (IH Hend') as [(t & ts & Hsplit & Hfree & Hplain & Hhead) Htrue].
    cbn [split_spaces_from starts_with_space]. rewrite Hsplit.
    destruct (is_space c) eqn:Hc.
    + assert (Hs : s <> "") by (intros ->; specialize (Hlast eq_refl); discriminate).
      split; [|intros _; exact (Htrue Hs)].
      exists "", (split_spaces_from true s).
      split; [reflexivity|]. split; [reflexivity|].
      split; [exact (Htrue Hs) | discriminate].
    + assert (Hword : plain_name (String c t)).
      { split; [discriminate|]. cbn [space_free]. rewrite Hc, Hfree.
        reflexivity. }
      split.
      * exists (String c t), ts. split; [reflexivity|].
        split; [apply Hword|]. split; [exact Hplain | discriminate].
      * intros _. constructor; [exact Hword | exact Hplain].
Qed.

Lemma trimEnd_ends (s : string) : ends_with_space (trimEnd s) = false.
Proof.
  induction s as [|c s IH]; [reflexivity|].
  cbn [trimEnd]. destruct (trimEnd s) as [|d r] eqn:Hr.
  - destruct (is_white c) eqn:Hc; [reflexivity|].
    cbn. apply not_white_not_space, Hc.
  - exact IH.
Qed.

Lemma trimEnd_head (c : ascii) (s : string) :
  trimEnd (String c s) = "" \/ exists r, trimEnd (String c s) = String c r.
Proof.
  cbn [trimEnd]. destruct (trimEnd s) as [|d r].
  - destruct (is_white c); [left; reflexivity | right; eexists; reflexivity].
  - right. eexists. reflexivity.
Qed.

Lemma trim_head (s : string) :
  trim s = "" \/ starts_with_space (trim s) = false.
Proof.
  unfold trim. induction s as [|c s IH]; [left; reflexivity|].
  cbn [trimStart]. destruct (is_white c) eqn:Hc; [exact IH|].
  destruct (trimEnd_head c s) as [->|[r ->]]; [left; reflexivity|].
  right. cbn. apply not_white_not_space, Hc.
Qed.

(** The names of a trimmed string: the one empty name when it is empty,
    names that are not empty and have no space otherwise. *)
Lemma split_spaces_trim (s : string) :
  (trim s = "" -> split_spaces (trim s) = [""]) /\
  (trim s <> "" -> Forall plain_name (split_spaces (trim s))).
Proof.
  split; [intros ->; reflexivity|]. intros Hne.
  destruct (split_spaces_from_shape (trim s) (trimEnd_ends _))
    as [(t & ts & Hsplit & Hfree & Hplain & Hhead) _].
  unfold split_spaces. rewrite Hsplit. constructor; [|exact Hplain].
  split; [|exact Hfree]. apply Hhead; [|exact Hne].
  destruct (trim_head s) as [Hempty|Hstart]; [contradiction | exact Hstart].
Qed.

Lemma valid_plain (s : string) : valid_name s -> plain_name s.
Proof.
  intros [Hne Hfree]. split; [exact Hne|]. clear Hne.
  induction s as [|c s IH]; [reflexivity|].
  cbn [white_free] in Hfree. apply andb_prop in Hfree as [Hc Hs].
  cbn [space_free]. rewrite (IH Hs), andb_true_r.
  rewrite not_white_not_space; [reflexivity|].
  destruct (is_white c); [discriminate | reflexivity].
Qed.

Lemma split_spaces_from_plain_word (t rest : string) :
  space_free t = true ->
  split_spaces_from false (t +:+ String space rest)
  = t :: split_spaces_from true rest.
Proof.
  intros Hfree. induction t as [|c t IH]; [reflexivity|].
  cbn [space_free] in Hfree. apply andb_prop in Hfree as [Hc Ht].
  change (String c t +:+ String space rest)
    with (String c (t +:+ String space rest)).
  cbn [split_spaces_from].
  destruct (is_space c); [discriminate|]. rewrite (IH Ht). reflexivity.
Qed.

Lemma split_spaces_from_plain_last (t : string) :
  space_free t = true -> split_spaces_from false t = [t].
Proof.
  intros Hfree. induction t as [|c t IH]; [reflexivity|].
  cbn [space_free] in Hfree. apply andb_prop in Hfree as [Hc Ht].
  cbn [split_spaces_from].
  destruct (is_space c); [discriminate|]. rewrite (IH Ht). reflexivity.
Qed.

Lemma join_space_plain_head (l : list string) :
  l <> [] -> Forall plain_name l ->
  exists c s, join_space l = String c s /\ is_space c = false.
Proof.
  intros Hne Hall. destruct l as [|t l]; [contradiction|].
  apply Forall_cons in Hall as [[Ht Hfree] Hl].
  destruct t as [|c t]; [contradiction|].
  cbn [space_free] in Hfree. apply andb_prop in Hfree as [Hc _].
  destruct l as [|u l].
  - exists c, t. split; [reflexivity|].
    destruct (is_space c); [discriminate | reflexivity].
  - exists c, (t +:+ String space (join_space (u :: l))).
    split; [reflexivity|].
    destruct (is_space c); [discriminate | reflexivity].
Qed.

(** Names without a space, joined by single spaces, split back into the
    names. *)
Lemma split_spaces_join_plain (l : list string) :
  l <> [] -> Forall plain_name l -> split_spaces (join_space l) = l.
Proof.
  unfold split_spaces. induction l as [|t l IH]; [contradiction|].
  intros _ Hall. apply Forall_cons in Hall as [Ht Hl].
  destruct l as [|u l].
  - apply split_spaces_from_plain_last. apply Ht.
  - rewrite join_space_cons by discriminate.
    rewrite split_spaces_from_plain_word by apply Ht.
    destruct (join_space_plain_head (u :: l)) as (c & s & Hjoin & Hc);
      [discriminate | exact Hl |].
    rewrite Hjoin. rewrite split_spaces_from_start by exact Hc.
    rewrite <- Hjoin. rewrite IH by (discriminate || exact Hl). reflexivity.
Qed.

Lemma trim_clean_head (s : string) :
  trim s = "" \/ exists c r, trim s = String c r /\ is_white c = false.
Proof.
  unfold trim. induction s as [|c s IH]; [left; reflexivity|].
  cbn [trimStart]. destruct (is_white c) eqn:Hc; [exact IH|].
  destruct (trimEnd_head c s) as [->|[r ->]]; [left; reflexivity|].
  right. exists c, r. split; [reflexivity | exact Hc].
Qed.

(** What is read from a class attribute: the one empty name, or names
    without a space of which the first begins with no white space. *)
Lemma names_read (s : string) :
  split_spaces (trim s) = [""] \/
  (Forall plain_name (split_spaces (trim s)) /\
   exists c t ts,
     split_spaces (trim s) = String c t :: ts /\ is_white c = false).
Proof.
  destruct (trim_clean_head s) as [Hblank|(c & r & Htrim & Hc)].
  - left. rewrite Hblank. reflexivity.
  - right. split.
    + apply split_spaces_trim. rewrite Htrim. discriminate.
    + rewrite Htrim. unfold split_spaces. cbn [split_spaces_from].
      rewrite (not_white_not_space _ Hc).
      destruct (split_spaces_from false r) as [|t ts];
        eexists; eexists; eexists; (split; [reflexivity | exact Hc]).
Qed.

Lemma ends_clean_added (cur extra : list string) :
  extra <> [] -> Forall valid_name extra ->
  ends_clean (join_space (cur ++ extra)) = true.
Proof.
  intros Hne Hextra. induction cur as [|t cur IH].
  - apply ends_clean_join; assumption.
  - change ((t :: cur) ++ extra) with (t :: (cur ++ extra)).
    rewrite join_space_cons by (destruct cur, extra; (discriminate || contradiction)).
    rewrite ends_clean_append by discriminate.
    destruct (join_space (cur ++ extra)) as [|d r] eqn:Hjoin;
      [discriminate IH | exact IH].
Qed.

(** Tokens added after the names read from a class attribute are read
    back with them. *)
Lemma read_back_added (s : string) (extra : list string) :
  extra <> [] -> Forall valid_name extra ->
  forall x, x ∈ extra -> x ∈ read_back (split_spaces (trim s) ++ extra).
Proof.
  intros Hne Hextra x Hx.
  destruct (names_read s) as [Hblank|(Hplain & c & t & ts & Hhead & Hc)].
  - rewrite Hblank. cbn [app].
    rewrite read_back_blank_head by assumption. exact Hx.
  - unfold read_back. unfold trim at 1.
    assert (Hstart : trimStart (join_space (split_spaces (trim s) ++ extra))
                     = join_space (split_spaces (trim s) ++ extra)).
    { rewrite Hhead. change ((String c t :: ts) ++ extra)
        with (String c t :: (ts ++ extra)).
      rewrite join_space_push. cbn [trimStart]. rewrite Hc. reflexivity. }
    rewrite Hstart.
    rewrite (trimEnd_clean _ (ends_clean_added _ _ Hne Hextra)).
    rewrite split_spaces_join_plain.
    + apply elem_of_app. right. exact Hx.
    + rewrite Hhead. discriminate.
    + apply Forall_app. split; [exact Hplain|].
      apply (Forall_impl _ _ _ Hextra). exact valid_plain.
Qed.

End ClassAttribute.

(** ** The loops over the current class names *)

Section ClassLoops.

Import JsString.

Lemma indexOf_spec (l : list string) (x : string) :
  (x ∈ l /\ 0 <= indexOf l x) \/ ((x ∉ l) /\ indexOf l x = (-1)).
Proof.
  induction l as [|y l IH]; cbn [indexOf].
  - right. split; [apply not_elem_of_nil | reflexivity].
  - destruct (String.eqb_spec y x) as [->|Hne].
    + left. split; [apply elem_of_cons; auto | lia].
    + destruct IH as [[Hin Hpos]|[Hout Hneg]].
      * left. split; [apply elem_of_cons; auto|].
        destruct (Z.ltb_spec (indexOf l x) 0); lia.
      * right. split.
        -- rewrite not_elem_of_cons. split; [congruence | exact Hout].
        -- rewrite Hneg. reflexivity.
Qed.

Lemma indexOf_absent (l : list string) (x : string) :
  (indexOf l x <? 0) = true <-> x ∉ l.
Proof.
  destruct (indexOf_spec l x) as [[Hin Hpos]|[Hout Hneg]]; split; intros Hx.
  - apply Z.ltb_lt in Hx. lia.
  - contradiction.
  - exact Hout.
  - rewrite Hneg. reflexivity.
Qed.

Lemma indexOf_present (l : list string) (x : string) :
  (0 <=? indexOf l x) = true <-> x ∈ l.
Proof.
  destruct (indexOf_spec l x) as [[Hin Hpos]|[Hout Hneg]]; split; intros Hx.
  - exact Hin.
  - apply Z.leb_le. exact Hpos.
  - rewrite Hneg in Hx. discriminate.
  - contradiction.
Qed.

(** [splice(i, 1)] at the index that [indexOf] gives removes the first
    occurrence. *)
Lemma splice1_indexOf (l : list string) (x : string) :
  x ∈ l ->
  exists l1 l2,
    l = l1 ++ (x :: l2) /\ (x ∉ l1) /\ splice1 l (indexOf l x) = l1 ++ l2.
Proof.
  induction l as [|y l IH]; intros Hin.
  - apply elem_of_nil in Hin. contradiction.
  - cbn [indexOf]. destruct (String.eqb_spec y x) as [->|Hne].
    + exists [], l. split; [reflexivity|]. split; [apply not_elem_of_nil|].
      reflexivity.
    + apply elem_of_cons in Hin as [->|Hin]; [contradiction|].
      destruct (IH Hin) as (l1 & l2 & Heq & Hout & Hsplice).
      exists (y :: l1), l2. split; [rewrite Heq at 1; reflexivity|].
      split; [rewrite not_elem_of_cons; split; [congruence|exact Hout]|].
      destruct (indexOf_spec l x) as [[_ Hpos]|[Habs _]]; [|contradiction].
      destruct (Z.ltb_spec (indexOf l x) 0); [lia|].
      unfold splice1 in *.
      replace (Z.to_nat (indexOf l x + 1)) with (S (Z.to_nat (indexOf l x)))
        by lia.
      cbn [take drop]. rewrite <- app_comm_cons, Hsplice. reflexivity.
Qed.

(** The [addClass] loop appends, once each, the names that are missing. *)
Lemma add_loop_spec (names cur : list string) (u : bool) :
  exists extra,
    fold_left Dom.add_step names (cur, u)
    = (cur ++ extra, u || negb (bool_decide (extra = []))) /\
    NoDup extra /\
    (forall x, x ∈ extra -> x ∈ names /\ x ∉ cur) /\
    (forall x, x ∈ names -> x ∈ cur ++ extra).
Proof.
  revert cur u. induction names as [|x names IH]; intros cur u.
  - exists []. cbn. rewrite app_nil_r, orb_false_r.
    split; [reflexivity|]. split; [apply NoDup_nil_2|].
    split; intros y Hy; apply elem_of_nil in Hy; contradiction.
  - cbn [fold_left]. unfold Dom.add_step at 2.
    destruct (indexOf cur x <? 0) eqn:Hidx.
    + apply indexOf_absent in Hidx.
      destruct (IH (cur ++ [x]) true) as (extra & Hrun & Hnd & Hel & Hcov).
      exists (x :: extra). rewrite Hrun.
      rewrite <- app_assoc. cbn [app].
      rewrite orb_true_r. split; [reflexivity|]. split; [|split].
      * apply NoDup_cons. split; [|exact Hnd].
        intros Hx. destruct (Hel x Hx) as [_ Hout]. apply Hout.
        apply elem_of_app. right. apply list_elem_of_singleton. reflexivity.
      * intros y Hy. apply elem_of_cons in Hy as [->|Hy].
        -- split; [apply elem_of_cons; auto | exact Hidx].
        -- destruct (Hel _ Hy) as [Hn Hout]. split.
           ++ apply elem_of_cons. auto.
           ++ intros Hin. apply Hout. apply elem_of_app. auto.
      * intros y Hy. apply elem_of_cons in Hy as [->|Hy].
        -- apply elem_of_app. right. apply elem_of_cons. auto.
        -- specialize (Hcov y Hy). rewrite <- app_assoc in Hcov. exact Hcov.
    + assert (Hin : x ∈ cur).
      { destruct (indexOf_spec cur x) as [[Hin _]|[_ Hneg]]; [exact Hin|].
        rewrite Hneg in Hidx. discriminate. }
      destruct (IH cur u) as (extra & Hrun & Hnd & Hel & Hcov).
      exists extra. rewrite Hrun.
      split; [reflexivity|]. split; [exact Hnd|]. split.
      * intros y Hy. destruct (Hel _ Hy) as [Hn Hout].
        split; [apply elem_of_cons; auto | exact Hout].
      * intros y Hy. apply elem_of_cons in Hy as [->|Hy].
        -- apply elem_of_app. auto.
        -- apply Hcov. exact Hy.
Qed.

Lemma NoDup_app_remove_middle (l1 l2 : list string) (x : string) :
  NoDup (l1 ++ x :: l2) -> NoDup (l1 ++ l2) /\ x ∉ l1 ++ l2.
Proof.
  intros Hnd. apply NoDup_app in Hnd as (H1 & H2 & H3).
  apply NoDup_cons in H3 as [Hx3 H3]. split.
  - apply NoDup_app. split; [exact H1|]. split; [|exact H3].
    intros z Hz1 Hz2. apply (H2 z Hz1). apply elem_of_cons. auto.
  - rewrite elem_of_app. intros [Hx|Hx]; [|contradiction].
    apply (H2 x Hx). apply elem_of_cons. auto.
Qed.

(** The [removeClass] loop takes out names that are found; what is left is
    part of what was there. *)
Lemma remove_loop_spec (names cur : list string) (u : bool) :
  exists res,
    fold_left Dom.remove_step names (cur, u)
    = (res, u || negb (bool_decide (Forall (fun x => x ∉ cur) names))) /\
    (forall x, x ∈ res -> x ∈ cur) /\
    (Forall (fun x => x ∉ cur) names -> res = cur) /\
    (NoDup cur -> NoDup res /\ forall x, x ∈ names -> x ∉ res).
Proof.
  revert cur u. induction names as [|x names IH]; intros cur u.
  - exists cur. cbn [fold_left].
    rewrite bool_decide_eq_true_2 by constructor.
    rewrite orb_false_r. split; [reflexivity|]. split; [auto|].
    split; [auto|]. intros Hnd. split; [exact Hnd|].
    intros y Hy. apply elem_of_nil in Hy. contradiction.
  - cbn [fold_left]. unfold Dom.remove_step at 2. cbv zeta.
    destruct (0 <=? indexOf cur x) eqn:Hidx.
    + apply indexOf_present in Hidx.
      destruct (splice1_indexOf cur x Hidx) as (l1 & l2 & Hcur & Hout & ->).
      destruct (IH (l1 ++ l2) true) as (res & Hrun & Hsub & _ & Hnd).
      exists res. rewrite Hrun.
      rewrite (bool_decide_eq_false_2 (Forall _ (x :: names))).
      2:{ intros Hall. apply Forall_cons in Hall as [Hx _]. contradiction. }
      rewrite orb_true_r. split; [reflexivity|]. split; [|split].
      * intros y Hy. specialize (Hsub y Hy). rewrite Hcur.
        apply elem_of_app in Hsub as [Hy1|Hy2]; apply elem_of_app;
          [left; exact Hy1 | right; apply elem_of_cons; right; exact Hy2].
      * intros Hall. apply Forall_cons in Hall as [Hx _]. contradiction.
      * intros Hndc. rewrite Hcur in Hndc.
        destruct (NoDup_app_remove_middle _ _ _ Hndc) as [Hnd' Hgone].
        destruct (Hnd Hnd') as [Hres Hnames]. split; [exact Hres|].
        intros y Hy. apply elem_of_cons in Hy as [->|Hy].
        -- intros Hin. apply Hgone, Hsub, Hin.
        -- apply Hnames. exact Hy.
    + assert (Hout : x ∉ cur).
      { intros Hin. apply indexOf_present in Hin. congruence. }
      destruct (IH cur u) as (res & Hrun & Hsub & Hsame & Hnd).
      exists res. rewrite Hrun. split; [|split; [|split]].
      * f_equal. f_equal. f_equal. apply bool_decide_ext.
        rewrite Forall_cons. tauto.
      * exact Hsub.
      * intros Hall. apply Forall_cons in Hall as [_ Hall]. auto.
      * intros Hndc. destruct (Hnd Hndc) as [Hres Hnames].
        split; [exact Hres|].
        intros y Hy. apply elem_of_cons in Hy as [->|Hy].
        -- intros Hin. apply Hout, Hsub, Hin.
        -- apply Hnames. exact Hy.
Qed.

(** The [toggleClass] loop flips the membership of every name as often as
    the name is listed. *)
Lemma toggle_loop_spec (names cur : list string) :
  NoDup cur ->
  NoDup (fold_left Dom.toggle_step names cur) /\
  forall c,
    bool_decide (c ∈ fold_left Dom.toggle_step names cur)
    = xorb (bool_decide (c ∈ cur)) (flips c names).
Proof.
  revert cur. induction names as [|x names IH]; intros cur Hnd.
  - cbn. split; [exact Hnd|]. intros c. rewrite xorb_false_r. reflexivity.
  - cbn [fold_left flips].
    destruct (indexOf cur x <? 0) eqn:Hidx.
    + assert (Hstep : Dom.toggle_step cur x = cur ++ [x]).
      { unfold Dom.toggle_step. cbv zeta. rewrite Hidx. reflexivity. }
      rewrite Hstep. clear Hstep.
      apply indexOf_absent in Hidx.
      assert (Hnd' : NoDup (cur ++ [x])).
      { apply NoDup_app. repeat split; [exact Hnd| |apply NoDup_singleton].
        intros y Hy Hyx. apply list_elem_of_singleton in Hyx. subst y.
        contradiction. }
      destruct (IH _ Hnd') as [Hres Hmem]. split; [exact Hres|].
      intros c. rewrite Hmem.
      destruct (decide (x = c)) as [->|Hne].
      * rewrite (bool_decide_eq_true_2 (c ∈ cur ++ [c])).
        2:{ apply elem_of_app. right. apply list_elem_of_singleton. reflexivity. }
        rewrite (bool_decide_eq_false_2 (c ∈ cur)) by exact Hidx.
        rewrite (bool_decide_eq_true_2 (c = c)) by reflexivity. reflexivity.
      * rewrite (bool_decide_eq_false_2 (x = c)) by exact Hne.
        rewrite xorb_false_l. f_equal. apply bool_decide_ext.
        rewrite elem_of_app, list_elem_of_singleton. intuition congruence.
    + assert (Hin : x ∈ cur).
      { destruct (indexOf_spec cur x) as [[Hin _]|[_ Hneg]]; [exact Hin|].
        rewrite Hneg in Hidx. discriminate. }
      assert (Hstep : Dom.toggle_step cur x = splice1 cur (indexOf cur x)).
      { unfold Dom.toggle_step. cbv zeta. rewrite Hidx. reflexivity. }
      rewrite Hstep. clear Hstep.
      destruct (splice1_indexOf cur x Hin) as (l1 & l2 & Hcur & Hout & ->).
      rewrite Hcur in Hnd.
      destruct (NoDup_app_remove_middle _ _ _ Hnd) as [Hnd' Hgone].
      destruct (IH _ Hnd') as [Hres Hmem]. split; [exact Hres|].
      intros c. rewrite Hmem, Hcur.
      destruct (decide (x = c)) as [->|Hne].
      * rewrite (bool_decide_eq_false_2 (c ∈ l1 ++ l2)) by exact Hgone.
        rewrite (bool_decide_eq_true_2 (c ∈ l1 ++ c :: l2)).
        2:{ apply elem_of_app. right. apply elem_of_cons. auto. }
        rewrite (bool_decide_eq_true_2 (c = c)) by reflexivity.
        destruct (flips c names); reflexivity.
      * rewrite (bool_decide_eq_false_2 (x = c)) by exact Hne.
        rewrite xorb_false_l. f_equal. apply bool_decide_ext.
        rewrite !elem_of_app, elem_of_cons. intuition congruence.
Qed.

End ClassLoops.

(** ** Class helpers without the native class list *)

Section ClassFallback.

Import Dom.
Context `{Dom.Host}.

Lemma getClassNames_run (w : world) (e : ref) (n : node) :
  nodes w !! e = Some n -> nodeType n = 1 ->
  getClassNames e w = Ok (class_names n, w).
Proof.
  intros Hn Hty. unfold getClassNames, get_className, bind, node_of, ret.
  rewrite Hn, Hty. reflexivity.
Qed.

Lemma addClass_fallback_run (w : world) (e : ref) (n : node)
  (names : string + list string) :
  nodes w !! e = Some n -> nodeType n = 1 -> classList n = None ->
  addClass (NodeRef e) names w =
  Ok (Some e,
      if snd (add_missing (resolveNames names) (class_names n))
      then write_class e n
             (JsString.join_space
                (fst (add_missing (resolveNames names) (class_names n)))) w
      else w).
Proof.
  intros Hn Hty Hcl. unfold addClass, resolveNode, deref.
  unfold bind at 1. unfold ret at 1. unfold bind at 1. unfold ret at 1.
  rewrite (bind_ok _ _ _ _ _ (node_of_ok _ _ _ Hn)). rewrite Hcl.
  rewrite (bind_ok _ _ _ _ _ (getClassNames_run _ _ _ Hn Hty)).
  destruct (add_missing _ _) as [cur [|]]; cbn [fst snd].
  - unfold set_className, bind, node_of, ret. rewrite Hn. reflexivity.
  - reflexivity.
Qed.

Lemma removeClass_fallback_run (w : world) (e : ref) (n : node)
  (names : string + list string) :
  nodes w !! e = Some n -> nodeType n = 1 -> classList n = None ->
  removeClass (NodeRef e) names w =
  Ok (Some e,
      if snd (remove_present (resolveNames names) (class_names n))
      then write_class e n
             (JsString.join_space
                (fst (remove_present (resolveNames names) (class_names n)))) w
      else w).
Proof.
  intros Hn Hty Hcl. unfold removeClass, resolveNode, deref.
  unfold bind at 1. unfold ret at 1. unfold bind at 1. unfold ret at 1.
  rewrite (bind_ok _ _ _ _ _ (node_of_ok _ _ _ Hn)). rewrite Hcl.
  rewrite (bind_ok _ _ _ _ _ (getClassNames_run _ _ _ Hn Hty)).
  destruct (remove_present _ _) as [cur [|]]; cbn [fst snd].
  - unfold set_className, bind, node_of, ret. rewrite Hn. reflexivity.
  - reflexivity.
Qed.

Lemma toggleClass_fallback_run (w : world) (e : ref) (n : node)
  (names : string + list string) :
  nodes w !! e = Some n -> nodeType n = 1 -> classList n = None ->
  toggleClass (NodeRef e) names w =
  Ok (Some e,
      write_class e n
        (JsString.join_space (toggle_each (resolveNames names) (class_names n)))
        w).
Proof.
  intros Hn Hty Hcl. unfold toggleClass, resolveNode, deref.
  unfold bind at 1. unfold ret at 1. unfold bind at 1. unfold ret at 1.
  rewrite (bind_ok _ _ _ _ _ (node_of_ok _ _ _ Hn)). rewrite Hcl.
  rewrite (bind_ok _ _ _ _ _ (getClassNames_run _ _ _ Hn Hty)).
  unfold set_className, bind, node_of, ret. rewrite Hn. reflexivity.
Qed.

Lemma every_ret {A} (l : list A) (f : A -> bool) (w : world) :
  every l (fun x => ret (f x)) w = Ok (forallb f l, w).
Proof.
  induction l as [|x l IH]; [reflexivity|].
  cbn [every forallb]. unfold bind at 1. unfold ret at 1.
  destruct (f x); [exact IH | reflexivity].
Qed.

Lemma hasClass_fallback_run (w : world) (e : ref) (n : node)
  (names : string + list string) :
  nodes w !! e = Some n -> nodeType n = 1 -> classList n = None ->
  hasClass (NodeRef e) names w =
  Ok (forallb (fun name => 0 <=? JsString.indexOf (class_names n) name)
        (resolveNames names), w).
Proof.
  intros Hn Hty Hcl. unfold hasClass, resolveNode, deref.
  unfold bind at 1. unfold ret at 1. unfold bind at 1. unfold ret at 1.
  rewrite (bind_ok _ _ _ _ _ (node_of_ok _ _ _ Hn)). rewrite Hcl.
  rewrite (bind_ok _ _ _ _ _ (getClassNames_run _ _ _ Hn Hty)).
  apply every_ret.
Qed.

Lemma only_class_differs_refl (e : ref) (w : world) :
  only_class_differs e w w.
Proof.
  unfold only_class_differs. repeat split; try reflexivity.
  intros n Hn. exists n. repeat split; try reflexivity. exact Hn.
Qed.

Lemma only_class_differs_write (e : ref) (n : node) (s : string) (w : world) :
  nodes w !! e = Some n -> only_class_differs e w (write_class e n s w).
Proof.
  intros Hn. unfold only_class_differs, write_class. cbn.
  split; [reflexivity|]. split; [reflexivity|]. split; [reflexivity|].
  split; [reflexivity|]. split.
  - intros r Hr. apply lookup_insert_ne. congruence.
  - intros n0 Hn0. rewrite Hn in Hn0. injection Hn0 as <-.
    eexists. split; [apply lookup_insert_eq|]. cbn.
    repeat (split; [reflexivity|]).
    intros k Hk. apply lookup_insert_ne. congruence.
Qed.

(** C7, as amended: on an element without the native class list, [addClass],
    [removeClass] and [toggleClass] read the class attribute, trim it and
    split it on runs of spaces; [addClass] appends each missing name once and
    writes the attribute only if a listed name was missing; [removeClass]
    writes it only if a listed name was found; [toggleClass] writes the
    rejoined names back on every call; and nothing but the class attribute
    of the element changes. *)
Theorem class_fallback_writes (w : world) (e : ref) (n : node)
  (names : string + list string) :
  nodes w !! e = Some n -> nodeType n = 1 -> classList n = None ->
  (exists w',
      addClass (NodeRef e) names w = Ok (Some e, w') /\
      only_class_differs e w w' /\
      ((forall x, x ∈ resolveNames names -> x ∈ class_names n) -> w' = w) /\
      ((exists x, x ∈ resolveNames names /\ x ∉ class_names n) ->
       exists extra,
         NoDup extra /\
         (forall x, x ∈ extra <->
                    x ∈ resolveNames names /\ x ∉ class_names n) /\
         attr_writes w' =
         attr_writes w ++
           [(e, "class", JsString.join_space (class_names n ++ extra))])) /\
  (exists w',
      removeClass (NodeRef e) names w = Ok (Some e, w') /\
      only_class_differs e w w' /\
      ((forall x, x ∈ resolveNames names -> x ∉ class_names n) -> w' = w) /\
      ((exists x, x ∈ resolveNames names /\ x ∈ class_names n) ->
       exists rest,
         (forall x, x ∈ rest -> x ∈ class_names n) /\
         attr_writes w' =
         attr_writes w ++ [(e, "class", JsString.join_space rest)])) /\
  (exists w',
      toggleClass (NodeRef e) names w = Ok (Some e, w') /\
      only_class_differs e w w' /\
      attr_writes w' =
      attr_writes w ++
        [(e, "class",
          JsString.join_space
            (toggle_each (resolveNames names) (class_names n)))]).
Proof.
  intros Hn Hty Hcl. split; [|split].
  - eexists. split; [apply (addClass_fallback_run _ _ _ _ Hn Hty Hcl)|].
    unfold add_missing.
    destruct (add_loop_spec (resolveNames names) (class_names n) false)
      as (extra & -> & Hnd & Hel & Hcov).
    cbn [fst snd orb].
    destruct extra as [|x extra].
    + rewrite bool_decide_eq_true_2 by reflexivity. cbn [negb].
      split; [apply only_class_differs_refl|]. split; [reflexivity|].
      intros (x & Hx & Hout). specialize (Hcov x Hx).
      rewrite app_nil_r in Hcov. contradiction.
    + rewrite bool_decide_eq_false_2 by discriminate. cbn [negb].
      split; [apply only_class_differs_write; exact Hn|]. split.
      * intros Hall. destruct (Hel x) as [Hx Hout]; [apply elem_of_cons; auto|].
        exfalso. apply Hout, Hall, Hx.
      * intros _. exists (x :: extra). split; [exact Hnd|]. split; [|reflexivity].
        intros y. split; [apply Hel|].
        intros [Hy Hout]. specialize (Hcov y Hy).
        apply elem_of_app in Hcov as [Hc|Hc]; [contradiction | exact Hc].
  - eexists. split; [apply (removeClass_fallback_run _ _ _ _ Hn Hty Hcl)|].
    unfold remove_present.
    destruct (remove_loop_spec (resolveNames names) (class_names n) false)
      as (res & -> & Hsub & Hsame & _).
    cbn [fst snd orb].
    destruct (decide (Forall (fun x => x ∉ class_names n) (resolveNames names)))
      as [Hall|Hsome].
    + rewrite bool_decide_eq_true_2 by exact Hall. cbn [negb].
      split; [apply only_class_differs_refl|]. split; [reflexivity|].
      intros (x & Hx & Hin). rewrite Forall_forall in Hall.
      exfalso. exact (Hall x Hx Hin).
    + rewrite bool_decide_eq_false_2 by exact Hsome. cbn [negb].
      split; [apply only_class_differs_write; exact Hn|]. split.
      * intros Hall. exfalso. apply Hsome. rewrite Forall_forall. exact Hall.
      * intros _. exists res. split; [exact Hsub | reflexivity].
  - eexists. split; [apply (toggleClass_fallback_run _ _ _ _ Hn Hty Hcl)|].
    split; [apply only_class_differs_write; exact Hn | reflexivity].
Qed.

End ClassFallback.

(** C7 as stated fails.  Toggling no name at all on the [div] of the sample
    page leaves its class names as they were, and the class attribute is
    written all the same; and removing [dup] from the attribute [dup dup]
    writes the attribute although [dup] is a class of the element before and
    after. *)
Lemma class_fallback_writes_fail_as_stated :
  (exists w' div div',
      Dom.toggleClass (H := Dom.Sample.host) (Dom.NodeRef 2%positive) (inr [])
        Dom.Sample.page = Ok (Some 2%positive, w') /\
      Dom.nodes Dom.Sample.page !! 2%positive = Some div /\
      Dom.nodes w' !! 2%positive = Some div' /\
      Dom.class_names div' = Dom.class_names div /\
      Dom.attr_writes Dom.Sample.page = [] /\
      Dom.attr_writes w' = [(2%positive, "class", "foo bar")]) /\
  (exists w',
      Dom.hasClass (H := Dom.Sample.host) (Dom.NodeRef 5%positive) (inl "dup")
        Dom.Sample.page = Ok (true, Dom.Sample.page) /\
      Dom.removeClass (H := Dom.Sample.host) (Dom.NodeRef 5%positive)
        (inl "dup") Dom.Sample.page = Ok (Some 5%positive, w') /\
      Dom.hasClass (H := Dom.Sample.host) (Dom.NodeRef 5%positive) (inl "dup")
        w' = Ok (true, w') /\
      Dom.attr_writes w' = [(5%positive, "class", "dup")]).
Proof.
  split.
  - destruct (Dom.toggleClass (H := Dom.Sample.host) (Dom.NodeRef 2%positive)
                (inr []) Dom.Sample.page) as [[r w']| |] eqn:Hrun;
      vm_compute in Hrun; try discriminate.
    injection Hrun as <- <-.
    eexists. eexists. eexists.
    split; [reflexivity|]. split; [reflexivity|]. split; [reflexivity|].
    split; [vm_compute; reflexivity|]. split; reflexivity.
  - destruct (Dom.removeClass (H := Dom.Sample.host) (Dom.NodeRef 5%positive)
                (inl "dup") Dom.Sample.page) as [[r w']| |] eqn:Hrun;
      vm_compute in Hrun; try discriminate.
    injection Hrun as <- <-.
    eexists. split; [vm_compute; reflexivity|]. split; [reflexivity|].
    split; [vm_compute; reflexivity | reflexivity].
Qed.

(** On the sample page, adding a class the [div] already has writes nothing,
    adding a new one writes the attribute once. *)
Lemma class_fallback_writes_witness :
  Dom.addClass (H := Dom.Sample.host) (Dom.NodeRef 2%positive) (inl "foo")
    Dom.Sample.page = Ok (Some 2%positive, Dom.Sample.page) /\
  exists w',
    Dom.addClass (H := Dom.Sample.host) (Dom.NodeRef 2%positive) (inl "baz")
      Dom.Sample.page = Ok (Some 2%positive, w') /\
    Dom.attr_writes w' = [(2%positive, "class", "foo bar baz")].
Proof.
  destruct (class_fallback_writes (H := Dom.Sample.host) Dom.Sample.page
              2%positive _ (inl "foo") eq_refl eq_refl eq_refl)
    as ((w1 & Hrun1 & _ & Hsame & _) & _).
  destruct (class_fallback_writes (H := Dom.Sample.host) Dom.Sample.page
              2%positive _ (inl "baz") eq_refl eq_refl eq_refl)
    as ((w2 & Hrun2 & _ & _ & Hwrite) & _).
  split.
  - rewrite Hrun1. f_equal. f_equal. apply Hsame.
    intros x Hx. apply list_elem_of_In in Hx. apply list_elem_of_In.
    vm_compute in Hx. vm_compute. tauto.
  - exists w2. split; [exact Hrun2|].
    vm_compute in Hrun2. injection Hrun2 as <-. reflexivity.
Defined.

(** ** Class membership *)

Section ClassMembership.

Import Dom JsString.
Context `{Dom.Host}.

(** *** The native token list *)

Lemma valid_name_token (name : string) :
  valid_name name -> token_error name = None.
Proof.
  intros [Hne Hfree]. unfold token_error.
  destruct (String.eqb_spec name "") as [->|_]; [contradiction|].
  assert (Hws : has_ascii_whitespace name = false).
  { clear Hne. induction name as [|c name IH]; [reflexivity|].
    cbn [white_free] in Hfree. apply andb_prop in Hfree as [Hc Hrest].
    cbn [has_ascii_whitespace]. rewrite (IH Hrest), orb_false_r.
    unfold is_white in Hc. unfold is_ascii_whitespace.
    destruct (Nat.eqb (nat_of_ascii c) 9), (Nat.eqb (nat_of_ascii c) 10),
      (Nat.eqb (nat_of_ascii c) 12), (Nat.eqb (nat_of_ascii c) 13),
      (Nat.eqb (nat_of_ascii c) 32); try reflexivity;
      cbn in Hc; rewrite ?orb_true_r in Hc; discriminate. }
  rewrite Hws. reflexivity.
Qed.

Lemma forEach_classList_update (g : string -> list string -> list string)
  (e : ref) (names : list string) :
  Forall valid_name names ->
  forall (w : world) (n : node) (tokens : list string),
    nodes w !! e = Some n -> classList n = Some tokens ->
    exists w' n',
      forEach names (fun name => classList_update e name (g name)) w
      = Ok (tt, w') /\
      nodes w' !! e = Some n' /\
      classList n' = Some (fold_left (fun t name => g name t) names tokens) /\
      nodeType n' = nodeType n.
Proof.
  induction 1 as [|name names Hname Hnames IH]; intros w n tokens Hn Hcl.
  - exists w, n. repeat split; assumption.
  - cbn [forEach fold_left].
    unfold classList_update at 1, tokens_of.
    unfold bind at 1. unfold bind at 1. unfold bind at 1.
    rewrite (node_of_ok _ _ _ Hn). rewrite Hcl. unfold ret at 1.
    rewrite (valid_name_token _ Hname).
    rewrite (update_node_ok _ _ _ _ Hn).
    destruct (IH (with_nodes w
                    (<[e := set_classList (Some (g name tokens)) n]> (nodes w)))
                (set_classList (Some (g name tokens)) n) (g name tokens))
      as (w' & n' & Hrun & Hn' & Hcl' & Hty');
      [apply lookup_insert_eq | reflexivity |].
    exists w', n'. repeat split; assumption.
Qed.

Lemma every_pure {A} (l : list A) (f : A -> M bool) (g : A -> bool) (w : world) :
  (forall x, f x w = Ok (g x, w)) -> every l f w = Ok (forallb g l, w).
Proof.
  intros Hf. induction l as [|x l IH]; [reflexivity|].
  cbn [every forallb]. unfold bind. rewrite Hf.
  destruct (g x); [exact IH | reflexivity].
Qed.

Lemma indexOf_member (l : list string) (x : string) :
  (0 <=? indexOf l x) = bool_decide (x ∈ l).
Proof.
  destruct (decide (x ∈ l)) as [Hin|Hout].
  - rewrite bool_decide_eq_true_2 by exact Hin. apply indexOf_present, Hin.
  - rewrite bool_decide_eq_false_2 by exact Hout.
    destruct (0 <=? indexOf l x) eqn:Hidx; [|reflexivity].
    apply indexOf_present in Hidx. contradiction.
Qed.

(** [hasClass] is the conjunction of the membership tests. *)
Lemma hasClass_run (w : world) (e : ref) (n : node)
  (names : string + list string) :
  nodes w !! e = Some n -> nodeType n = 1 ->
  hasClass (NodeRef e) names w =
  Ok (forallb (fun name => bool_decide (name ∈ members n)) (resolveNames names),
      w).
Proof.
  intros Hn Hty. unfold members.
  destruct (classList n) as [tokens|] eqn:Hcl.
  - unfold hasClass, resolveNode, deref.
    unfold bind at 1. unfold ret at 1. unfold bind at 1. unfold ret at 1.
    rewrite (bind_ok _ _ _ _ _ (node_of_ok _ _ _ Hn)). rewrite Hcl.
    apply every_pure. intros x.
    unfold classList_contains, tokens_of, bind, node_of, ret.
    rewrite Hn, Hcl. reflexivity.
  - rewrite (hasClass_fallback_run _ _ _ _ Hn Hty Hcl).
    f_equal. f_equal.
    induction (resolveNames names) as [|x l IH]; [reflexivity|].
    cbn [forallb]. rewrite indexOf_member, IH. reflexivity.
Qed.

Lemma add_tokens_cover (names tokens : list string) :
  (forall x, x ∈ tokens ->
             x ∈ fold_left (fun t name => add_token name t) names tokens) /\
  (forall x, x ∈ names ->
             x ∈ fold_left (fun t name => add_token name t) names tokens).
Proof.
  revert tokens. induction names as [|y names IH]; intros tokens.
  - split; [auto|]. intros x Hx. apply elem_of_nil in Hx. contradiction.
  - cbn [fold_left]. destruct (IH (add_token y tokens)) as [Hkeep Hnew].
    assert (Hstep : forall x, x ∈ tokens \/ x = y -> x ∈ add_token y tokens).
    { intros x Hx. unfold add_token. case_bool_decide.
      - destruct Hx as [Hx| ->]; assumption.
      - apply elem_of_app. rewrite list_elem_of_singleton. exact Hx. }
    split.
    + intros x Hx. apply Hkeep, Hstep. auto.
    + intros x Hx. apply elem_of_cons in Hx as [->|Hx].
      * apply Hkeep, Hstep. auto.
      * apply Hnew, Hx.
Qed.

Lemma remove_tokens_gone (names tokens : list string) :
  forall x,
    x ∈ fold_left (fun t name => remove_token name t) names tokens ->
    x ∈ tokens /\ x ∉ names.
Proof.
  revert tokens. induction names as [|y names IH]; intros tokens x Hx.
  - split; [exact Hx | apply not_elem_of_nil].
  - cbn [fold_left] in Hx. apply IH in Hx as [Hx Hout].
    unfold remove_token in Hx. apply list_elem_of_filter in Hx as [Hne Hx].
    split; [exact Hx|]. rewrite not_elem_of_cons. auto.
Qed.

Lemma toggle_token_flip (y c : string) (tokens : list string) :
  bool_decide (c ∈ toggle_token y tokens)
  = xorb (bool_decide (c ∈ tokens)) (bool_decide (y = c)).
Proof.
  unfold toggle_token.
  destruct (decide (y ∈ tokens)) as [Hy|Hy].
  - rewrite (bool_decide_eq_true_2 (y ∈ tokens)) by exact Hy.
    destruct (decide (y = c)) as [->|Hne].
    + rewrite (bool_decide_eq_true_2 (c = c)) by reflexivity.
      rewrite (bool_decide_eq_true_2 (c ∈ tokens)) by exact Hy.
      apply bool_decide_eq_false_2. rewrite list_elem_of_filter. tauto.
    + rewrite (bool_decide_eq_false_2 (y = c)) by exact Hne.
      rewrite xorb_false_r. apply bool_decide_ext.
      rewrite list_elem_of_filter. intuition congruence.
  - rewrite (bool_decide_eq_false_2 (y ∈ tokens)) by exact Hy.
    destruct (decide (y = c)) as [->|Hne].
    + rewrite (bool_decide_eq_true_2 (c = c)) by reflexivity.
      rewrite (bool_decide_eq_false_2 (c ∈ tokens)) by exact Hy.
      apply bool_decide_eq_true_2. apply elem_of_app.
      rewrite list_elem_of_singleton. auto.
    + rewrite (bool_decide_eq_false_2 (y = c)) by exact Hne.
      rewrite xorb_false_r. apply bool_decide_ext.
      rewrite elem_of_app, list_elem_of_singleton. intuition congruence.
Qed.

Lemma toggle_tokens_flip (names tokens : list string) (c : string) :
  bool_decide (c ∈ fold_left (fun t name => toggle_token name t) names tokens)
  = xorb (bool_decide (c ∈ tokens)) (flips c names).
Proof.
  revert tokens. induction names as [|y names IH]; intros tokens.
  - cbn. rewrite xorb_false_r. reflexivity.
  - cbn [fold_left flips]. rewrite IH, toggle_token_flip.
    apply xorb_assoc.
Qed.

End ClassMembership.

(** ** The laws of class membership *)

Section ClassLaws.

Import Dom JsString.
Context `{Dom.Host}.

Lemma valid_name_nonempty (c : string) : valid_name c -> c <> "".
Proof. intros [Hne _]. exact Hne. Qed.

Lemma read_back_normal (tokens : list string) :
  Forall valid_name tokens ->
  read_back tokens = normal tokens /\
  read_back (EmptyString :: tokens) = normal tokens.
Proof.
  intros Hall. destruct tokens as [|t tokens].
  - split; reflexivity.
  - split.
    + apply read_back_valid; [discriminate | exact Hall].
    + apply read_back_blank_head; [discriminate | exact Hall].
Qed.

Lemma normal_props (tokens : list string) :
  Forall valid_name tokens -> NoDup tokens ->
  tidy (normal tokens) /\ NoDup (normal tokens) /\
  forall c, valid_name c -> (c ∈ normal tokens <-> c ∈ tokens).
Proof.
  intros Hall Hnd. destruct tokens as [|t tokens]; cbn [normal].
  - split; [left; reflexivity|]. split; [apply NoDup_singleton|].
    intros c Hc. rewrite list_elem_of_singleton. split.
    + intros ->. destruct (valid_name_nonempty _ Hc). reflexivity.
    + intros Hin. apply elem_of_nil in Hin. contradiction.
  - split; [right; exact Hall|]. split; [exact Hnd|]. reflexivity.
Qed.

Lemma toggle_step_Forall (P : string -> Prop) (cur : list string) (x : string) :
  Forall P cur -> P x -> Forall P (toggle_step cur x).
Proof.
  intros Hcur Hx. unfold toggle_step. cbv zeta.
  destruct (indexOf cur x <? 0) eqn:Hidx.
  - apply Forall_app. split; [exact Hcur | constructor; [exact Hx|constructor]].
  - assert (Hin : x ∈ cur).
    { destruct (indexOf_spec cur x) as [[Hin _]|[_ Hneg]]; [exact Hin|].
      rewrite Hneg in Hidx. discriminate. }
    destruct (splice1_indexOf cur x Hin) as (l1 & l2 & Hcur' & _ & ->).
    rewrite Hcur' in Hcur. apply Forall_app in Hcur as [H1 H2].
    apply Forall_cons in H2 as [_ H2]. apply Forall_app. auto.
Qed.

Lemma toggle_each_Forall (P : string -> Prop) (names cur : list string) :
  Forall P cur -> Forall P names -> Forall P (toggle_each names cur).
Proof.
  unfold toggle_each. intros Hcur Hnames. revert cur Hcur.
  induction Hnames as [|x names Hx Hnames IH]; intros cur Hcur; [exact Hcur|].
  cbn [fold_left]. apply IH. apply toggle_step_Forall; assumption.
Qed.

Lemma toggle_step_blank_head (tokens : list string) (x : string) :
  x <> "" ->
  toggle_step (EmptyString :: tokens) x = EmptyString :: toggle_step tokens x.
Proof.
  intros Hx. unfold toggle_step. cbv zeta. cbn [indexOf].
  destruct (String.eqb_spec "" x) as [Heq|_]; [congruence|].
  destruct (indexOf_spec tokens x) as [[_ Hpos]|[_ Hneg]].
  - destruct (Z.ltb_spec (indexOf tokens x) 0) as [|_]; [lia|].
    destruct (Z.ltb_spec (indexOf tokens x + 1) 0) as [|_]; [lia|].
    unfold splice1.
    replace (Z.to_nat (indexOf tokens x + 1))
      with (S (Z.to_nat (indexOf tokens x))) by lia.
    reflexivity.
  - rewrite Hneg. reflexivity.
Qed.

Lemma toggle_each_blank_head (names tokens : list string) :
  Forall valid_name names ->
  toggle_each names (EmptyString :: tokens)
  = EmptyString :: toggle_each names tokens.
Proof.
  unfold toggle_each. intros Hnames. revert tokens.
  induction Hnames as [|x names Hx Hnames IH]; intros tokens; [reflexivity|].
  cbn [fold_left].
  rewrite toggle_step_blank_head by (apply valid_name_nonempty; exact Hx).
  apply IH.
Qed.

Lemma written_node (w : world) (e : ref) (n : node) (s : string) :
  exists n1,
    nodes (write_class e n s w) !! e = Some n1 /\
    nodeType n1 = nodeType n /\ classList n1 = classList n /\
    class_names n1 = split_spaces (trim s).
Proof.
  eexists. split; [apply lookup_insert_eq|].
  split; [reflexivity|]. split; [reflexivity|].
  unfold class_names. cbn. rewrite lookup_insert_eq. reflexivity.
Qed.

(** *** Without the native list *)

Lemma addClass_fallback_effect (w : world) (e : ref) (n : node)
  (names : string + list string) :
  nodes w !! e = Some n -> nodeType n = 1 -> classList n = None ->
  Forall valid_name (resolveNames names) ->
  exists w1 n1,
    addClass (NodeRef e) names w = Ok (Some e, w1) /\
    nodes w1 !! e = Some n1 /\ nodeType n1 = 1 /\ classList n1 = None /\
    forall x, x ∈ resolveNames names -> x ∈ class_names n1.
Proof.
  intros Hn Hty Hcl Hvalid.
  rewrite (addClass_fallback_run _ _ _ _ Hn Hty Hcl). unfold add_missing.
  destruct (add_loop_spec (resolveNames names) (class_names n) false)
    as (extra & -> & Hnd & Hel & Hcov).
  cbn [fst snd orb]. destruct extra as [|x0 extra].
  - rewrite bool_decide_eq_true_2 by reflexivity. cbn [negb].
    exists w, n. repeat split; try assumption.
    intros x Hx. specialize (Hcov x Hx). rewrite app_nil_r in Hcov. exact Hcov.
  - rewrite bool_decide_eq_false_2 by discriminate. cbn [negb].
    destruct (written_node w e n
                (join_space (class_names n ++ x0 :: extra)))
      as (n1 & Hn1 & Hty1 & Hcl1 & Hnames1).
    eexists. exists n1. split; [reflexivity|]. split; [exact Hn1|].
    split; [congruence|]. split; [congruence|].
    intros x Hx. rewrite Hnames1. fold (read_back (class_names n ++ x0 :: extra)).
    assert (Hextra : Forall valid_name (x0 :: extra)).
    { rewrite Forall_forall. intros y Hy.
      rewrite Forall_forall in Hvalid. apply Hvalid, (Hel y Hy). }
    specialize (Hcov x Hx). apply elem_of_app in Hcov as [Hcur|Hnew].
    + unfold class_names in *.
      destruct (names_read (default "" (attributes n !! "class")))
        as [Hblank|(Hplain & c & t & ts & Hhead & Hc)].
      * rewrite Hblank in Hcur. apply list_elem_of_singleton in Hcur. subst x.
        rewrite Forall_forall in Hvalid.
        destruct (valid_name_nonempty _ (Hvalid _ Hx)). reflexivity.
      * unfold read_back. unfold trim at 1.
        assert (Hstart :
                  trimStart
                    (join_space
                       (split_spaces
                          (trim (default "" (attributes n !! "class")))
                        ++ x0 :: extra))
                  = join_space
                      (split_spaces
                         (trim (default "" (attributes n !! "class")))
                       ++ x0 :: extra)).
        { rewrite Hhead.
          change ((String c t :: ts) ++ x0 :: extra)
            with (String c t :: (ts ++ x0 :: extra)).
          rewrite join_space_push. cbn [trimStart]. rewrite Hc. reflexivity. }
        rewrite Hstart.
        rewrite (trimEnd_clean _
                   (ends_clean_added _ (x0 :: extra) ltac:(discriminate)
                      Hextra)).
        rewrite split_spaces_join_plain.
        -- apply elem_of_app. left. exact Hcur.
        -- rewrite Hhead. discriminate.
        -- apply Forall_app. split; [exact Hplain|].
           apply (Forall_impl _ _ _ Hextra). exact valid_plain.
    + unfold class_names.
      apply read_back_added; [discriminate | exact Hextra | exact Hnew].
Qed.

Lemma removeClass_fallback_effect (w : world) (e : ref) (n : node)
  (names : string + list string) :
  nodes w !! e = Some n -> nodeType n = 1 -> classList n = None ->
  Forall valid_name (resolveNames names) -> tidy (class_names n) ->
  NoDup (class_names n) ->
  exists w1 n1,
    removeClass (NodeRef e) names w = Ok (Some e, w1) /\
    nodes w1 !! e = Some n1 /\ nodeType n1 = 1 /\ classList n1 = None /\
    forall x, x ∈ resolveNames names -> x ∉ class_names n1.
Proof.
  intros Hn Hty Hcl Hvalid Htidy Hdistinct.
  rewrite (removeClass_fallback_run _ _ _ _ Hn Hty Hcl). unfold remove_present.
  destruct (remove_loop_spec (resolveNames names) (class_names n) false)
    as (res & -> & Hsub & Hsame & Hnd).
  cbn [fst snd orb].
  destruct (decide (Forall (fun x => x ∉ class_names n) (resolveNames names)))
    as [Hall|Hsome].
  - rewrite bool_decide_eq_true_2 by exact Hall. cbn [negb].
    exists w, n. repeat split; try assumption.
    rewrite Forall_forall in Hall. exact Hall.
  - rewrite bool_decide_eq_false_2 by exact Hsome. cbn [negb].
    destruct (written_node w e n (join_space res))
      as (n1 & Hn1 & Hty1 & Hcl1 & Hnames1).
    eexists. exists n1. split; [reflexivity|]. split; [exact Hn1|].
    split; [congruence|]. split; [congruence|].
    intros x Hx. rewrite Hnames1. fold (read_back res).
    destruct (Hnd Hdistinct) as [Hres Hgone].
    assert (Hcur : Forall valid_name (class_names n)).
    { destruct Htidy as [Hblank|Hcur]; [|exact Hcur].
      exfalso. apply Hsome. rewrite Forall_forall. intros y Hy.
      rewrite Hblank, list_elem_of_singleton.
      rewrite Forall_forall in Hvalid. apply valid_name_nonempty, Hvalid, Hy. }
    assert (Hvres : Forall valid_name res).
    { rewrite Forall_forall. intros y Hy.
      rewrite Forall_forall in Hcur. apply Hcur, Hsub, Hy. }
    rewrite (proj1 (read_back_normal res Hvres)).
    rewrite Forall_forall in Hvalid.
    rewrite (proj2 (proj2 (normal_props res Hvres Hres)) x (Hvalid x Hx)).
    apply Hgone, Hx.
Qed.

Lemma toggleClass_fallback_effect (w : world) (e : ref) (n : node)
  (names : string + list string) :
  nodes w !! e = Some n -> nodeType n = 1 -> classList n = None ->
  Forall valid_name (resolveNames names) -> tidy (class_names n) ->
  NoDup (class_names n) ->
  exists w1 n1,
    toggleClass (NodeRef e) names w = Ok (Some e, w1) /\
    nodes w1 !! e = Some n1 /\ nodeType n1 = 1 /\ classList n1 = None /\
    tidy (class_names n1) /\ NoDup (class_names n1) /\
    forall c, valid_name c ->
              bool_decide (c ∈ class_names n1)
              = xorb (bool_decide (c ∈ class_names n))
                  (flips c (resolveNames names)).
Proof.
  intros Hn Hty Hcl Hvalid Htidy Hdistinct.
  rewrite (toggleClass_fallback_run _ _ _ _ Hn Hty Hcl).
  destruct (written_node w e n
              (join_space (toggle_each (resolveNames names) (class_names n))))
    as (n1 & Hn1 & Hty1 & Hcl1 & Hnames1).
  eexists. exists n1. split; [reflexivity|]. split; [exact Hn1|].
  split; [congruence|]. split; [congruence|].
  rewrite Hnames1.
  fold (read_back (toggle_each (resolveNames names) (class_names n))).
  destruct Htidy as [Hblank|Hcur].
  - rewrite Hblank, toggle_each_blank_head by exact Hvalid.
    set (tokens := toggle_each (resolveNames names) []).
    assert (Htok : Forall valid_name tokens).
    { apply toggle_each_Forall; [constructor | exact Hvalid]. }
    destruct (toggle_loop_spec (resolveNames names) [] (NoDup_nil_2 (A := string)))
      as [Hnd Hmem].
    fold (toggle_each (resolveNames names) []) in Hnd, Hmem. fold tokens in Hnd, Hmem.
    rewrite (proj2 (read_back_normal tokens Htok)).
    destruct (normal_props tokens Htok Hnd) as (Ht & Hd & Hsame).
    split; [exact Ht|]. split; [exact Hd|].
    intros c Hc. rewrite (bool_decide_ext _ _ (Hsame c Hc)), Hmem.
    f_equal. rewrite !bool_decide_eq_false_2; [reflexivity| |].
    + rewrite list_elem_of_singleton. apply valid_name_nonempty, Hc.
    + apply not_elem_of_nil.
  - set (tokens := toggle_each (resolveNames names) (class_names n)).
    assert (Htok : Forall valid_name tokens).
    { apply toggle_each_Forall; assumption. }
    destruct (toggle_loop_spec (resolveNames names) (class_names n) Hdistinct)
      as [Hnd Hmem].
    fold (toggle_each (resolveNames names) (class_names n)) in Hnd, Hmem.
    fold tokens in Hnd, Hmem.
    rewrite (proj1 (read_back_normal tokens Htok)).
    destruct (normal_props tokens Htok Hnd) as (Ht & Hd & Hsame).
    split; [exact Ht|]. split; [exact Hd|].
    intros c Hc. rewrite (bool_decide_ext _ _ (Hsame c Hc)). apply Hmem.
Qed.

End ClassLaws.

Section ClassTheorems.

Import Dom JsString.
Context `{Dom.Host}.

(** *** With the native list *)

Lemma native_forEach_effect
  (g : string -> list string -> list string)
  (w : world) (e : ref) (n : node) (tokens names : list string) :
  nodes w !! e = Some n -> classList n = Some tokens ->
  Forall valid_name names ->
  exists w1 n1,
    bind (forEach names (fun name => classList_update e name (g name)))
      (fun _ => ret (Some e)) w = Ok (Some e, w1) /\
    nodes w1 !! e = Some n1 /\ nodeType n1 = nodeType n /\
    classList n1 = Some (fold_left (fun t name => g name t) names tokens).
Proof.
  intros Hn Hcl Hvalid.
  destruct (forEach_classList_update g e names Hvalid w n tokens Hn Hcl)
    as (w1 & n1 & Hrun & Hn1 & Hcl1 & Hty1).
  exists w1, n1. split; [|auto].
  rewrite (bind_ok _ _ _ _ _ Hrun). reflexivity.
Qed.

Lemma native_prefix {A} (w : world) (e : ref) (n : node)
  (k : option ref -> ref -> node -> M A) :
  nodes w !! e = Some n ->
  bind (resolveNode (NodeRef e))
    (fun element => bind (deref element)
                      (fun r => bind (node_of r) (k element r))) w
  = k (Some e) e n w.
Proof.
  intros Hn. unfold resolveNode, deref.
  unfold bind at 1. unfold ret at 1. unfold bind at 1. unfold ret at 1.
  apply (bind_ok _ _ _ _ _ (node_of_ok _ _ _ Hn)).
Qed.

Lemma addClass_effect (w : world) (e : ref) (n : node)
  (names : string + list string) :
  nodes w !! e = Some n -> nodeType n = 1 ->
  Forall valid_name (resolveNames names) ->
  exists w1 n1,
    addClass (NodeRef e) names w = Ok (Some e, w1) /\
    nodes w1 !! e = Some n1 /\ nodeType n1 = 1 /\
    forall x, x ∈ resolveNames names -> x ∈ members n1.
Proof.
  intros Hn Hty Hvalid.
  destruct (classList n) as [tokens|] eqn:Hcl.
  - destruct (native_forEach_effect add_token w e n tokens _ Hn Hcl Hvalid)
      as (w1 & n1 & Hrun & Hn1 & Hty1 & Hcl1).
    exists w1, n1. split.
    + unfold addClass. cbv zeta.
      rewrite (native_prefix w e n
                 (fun element r n =>
                    match classList n with
                    | Some _ => _
                    | None => _
                    end) Hn).
      rewrite Hcl. exact Hrun.
    + split; [exact Hn1|]. split; [congruence|].
      intros x Hx. unfold members. rewrite Hcl1.
      apply (proj2 (add_tokens_cover _ _)), Hx.
  - destruct (addClass_fallback_effect w e n names Hn Hty Hcl Hvalid)
      as (w1 & n1 & Hrun & Hn1 & Hty1 & Hcl1 & Hall).
    exists w1, n1. repeat (split; [assumption|]).
    intros x Hx. unfold members. rewrite Hcl1. apply Hall, Hx.
Qed.

Lemma removeClass_effect (w : world) (e : ref) (n : node)
  (names : string + list string) :
  nodes w !! e = Some n -> nodeType n = 1 ->
  Forall valid_name (resolveNames names) -> class_tidy n -> class_distinct n ->
  exists w1 n1,
    removeClass (NodeRef e) names w = Ok (Some e, w1) /\
    nodes w1 !! e = Some n1 /\ nodeType n1 = 1 /\
    forall x, x ∈ resolveNames names -> x ∉ members n1.
Proof.
  intros Hn Hty Hvalid Htidy Hdistinct.
  destruct (classList n) as [tokens|] eqn:Hcl.
  - destruct (native_forEach_effect remove_token w e n tokens _ Hn Hcl Hvalid)
      as (w1 & n1 & Hrun & Hn1 & Hty1 & Hcl1).
    exists w1, n1. split.
    + unfold removeClass. cbv zeta.
      rewrite (native_prefix w e n
                 (fun element r n =>
                    match classList n with
                    | Some _ => _
                    | None => _
                    end) Hn).
      rewrite Hcl. exact Hrun.
    + split; [exact Hn1|]. split; [congruence|].
      intros x Hx. unfold members. rewrite Hcl1.
      intros Hin. apply remove_tokens_gone in Hin as [_ Hout]. contradiction.
  - destruct (removeClass_fallback_effect w e n names Hn Hty Hcl Hvalid
                (Htidy Hcl) (Hdistinct Hcl))
      as (w1 & n1 & Hrun & Hn1 & Hty1 & Hcl1 & Hall).
    exists w1, n1. repeat (split; [assumption|]).
    intros x Hx. unfold members. rewrite Hcl1. apply Hall, Hx.
Qed.

Lemma toggleClass_effect (w : world) (e : ref) (n : node)
  (names : string + list string) :
  nodes w !! e = Some n -> nodeType n = 1 ->
  Forall valid_name (resolveNames names) -> class_tidy n -> class_distinct n ->
  exists w1 n1,
    toggleClass (NodeRef e) names w = Ok (Some e, w1) /\
    nodes w1 !! e = Some n1 /\ nodeType n1 = 1 /\
    class_tidy n1 /\ class_distinct n1 /\
    forall c, valid_name c ->
              bool_decide (c ∈ members n1)
              = xorb (bool_decide (c ∈ members n))
                  (flips c (resolveNames names)).
Proof.
  intros Hn Hty Hvalid Htidy Hdistinct.
  destruct (classList n) as [tokens|] eqn:Hcl.
  - destruct (native_forEach_effect toggle_token w e n tokens _ Hn Hcl Hvalid)
      as (w1 & n1 & Hrun & Hn1 & Hty1 & Hcl1).
    exists w1, n1. split.
    + unfold toggleClass. cbv zeta.
      rewrite (native_prefix w e n
                 (fun element r n =>
                    match classList n with
                    | Some _ => _
                    | None => _
                    end) Hn).
      rewrite Hcl. exact Hrun.
    + split; [exact Hn1|]. split; [congruence|].
      split; [intros Hnone; congruence|]. split; [intros Hnone; congruence|].
      intros c _. unfold members. rewrite Hcl1, Hcl.
      apply toggle_tokens_flip.
  - destruct (toggleClass_fallback_effect w e n names Hn Hty Hcl Hvalid
                (Htidy Hcl) (Hdistinct Hcl))
      as (w1 & n1 & Hrun & Hn1 & Hty1 & Hcl1 & Ht1 & Hd1 & Hflip).
    exists w1, n1. repeat (split; [assumption|]).
    split; [intros _; exact Ht1|]. split; [intros _; exact Hd1|].
    intros c Hc. unfold members. rewrite Hcl1, Hcl. apply Hflip, Hc.
Qed.

Lemma hasClass_single (w : world) (e : ref) (n : node) (c : string) :
  nodes w !! e = Some n -> nodeType n = 1 ->
  hasClass (NodeRef e) (inr [c]) w = Ok (bool_decide (c ∈ members n), w).
Proof.
  intros Hn Hty. rewrite (hasClass_run _ _ _ _ Hn Hty).
  cbn [resolveNames forallb]. rewrite andb_true_r. reflexivity.
Qed.

(** C4, as amended: for class names that are tokens (not empty, without
    white space): after [addClass], [hasClass] with the same names is true,
    whatever the class attribute holds; after [removeClass] it is false
    unless no name was listed; [toggleClass] flips each class once per
    listing and applied twice restores the membership of every class.  For
    [removeClass] and [toggleClass] on an element without the native class
    list, the class attribute is to be blank or to hold tokens, which are
    distinct.  [hasClass] is true exactly when every listed class is
    present. *)
Theorem class_membership_laws (w : world) (e : ref) (n : node)
  (names : string + list string) :
  nodes w !! e = Some n -> nodeType n = 1 ->
  Forall valid_name (resolveNames names) ->
  (exists w1,
      addClass (NodeRef e) names w = Ok (Some e, w1) /\
      hasClass (NodeRef e) names w1 = Ok (true, w1)) /\
  (class_tidy n -> class_distinct n ->
   exists w1,
     removeClass (NodeRef e) names w = Ok (Some e, w1) /\
     hasClass (NodeRef e) names w1
     = Ok (bool_decide (resolveNames names = []), w1)) /\
  (class_tidy n -> class_distinct n ->
   exists w1 w2,
     toggleClass (NodeRef e) names w = Ok (Some e, w1) /\
     toggleClass (NodeRef e) names w1 = Ok (Some e, w2) /\
     forall c, valid_name c ->
       exists b,
         hasClass (NodeRef e) (inr [c]) w = Ok (b, w) /\
         hasClass (NodeRef e) (inr [c]) w1
         = Ok (xorb b (flips c (resolveNames names)), w1) /\
         hasClass (NodeRef e) (inr [c]) w2 = Ok (b, w2)) /\
  (exists b,
      hasClass (NodeRef e) names w = Ok (b, w) /\
      (b = true <->
       forall x, x ∈ resolveNames names ->
                 hasClass (NodeRef e) (inr [x]) w = Ok (true, w))).
Proof.
  intros Hn Hty Hvalid. split; [|split; [|split]].
  - destruct (addClass_effect w e n names Hn Hty Hvalid)
      as (w1 & n1 & Hrun & Hn1 & Hty1 & Hall).
    exists w1. split; [exact Hrun|].
    rewrite (hasClass_run _ _ _ _ Hn1 Hty1). f_equal. f_equal.
    apply forallb_forall. intros x Hx. apply bool_decide_eq_true_2.
    apply Hall. apply list_elem_of_In. exact Hx.
  - intros Htidy Hdistinct.
    destruct (removeClass_effect w e n names Hn Hty Hvalid Htidy Hdistinct)
      as (w1 & n1 & Hrun & Hn1 & Hty1 & Hall).
    exists w1. split; [exact Hrun|].
    rewrite (hasClass_run _ _ _ _ Hn1 Hty1). f_equal. f_equal.
    destruct (resolveNames names) as [|x l]; [reflexivity|].
    cbn [forallb]. rewrite (bool_decide_eq_false_2 (x ∈ members n1)).
    + rewrite bool_decide_eq_false_2 by discriminate. reflexivity.
    + apply Hall. apply elem_of_cons. auto.
  - intros Htidy Hdistinct.
    destruct (toggleClass_effect w e n names Hn Hty Hvalid Htidy Hdistinct)
      as (w1 & n1 & Hrun1 & Hn1 & Hty1 & Htidy1 & Hdistinct1 & Hflip1).
    destruct (toggleClass_effect w1 e n1 names Hn1 Hty1 Hvalid Htidy1 Hdistinct1)
      as (w2 & n2 & Hrun2 & Hn2 & Hty2 & _ & _ & Hflip2).
    exists w1, w2. split; [exact Hrun1|]. split; [exact Hrun2|].
    intros c Hc. exists (bool_decide (c ∈ members n)).
    rewrite (hasClass_single _ _ _ _ Hn Hty).
    rewrite (hasClass_single _ _ _ _ Hn1 Hty1).
    rewrite (hasClass_single _ _ _ _ Hn2 Hty2).
    rewrite (Hflip2 c Hc), (Hflip1 c Hc).
    split; [reflexivity|]. split; [reflexivity|].
    f_equal. f_equal.
    destruct (bool_decide (c ∈ members n)), (flips c (resolveNames names));
      reflexivity.
  - eexists. split; [apply (hasClass_run _ _ _ _ Hn Hty)|].
    rewrite forallb_forall. split.
    + intros Hall x Hx. rewrite (hasClass_single _ _ _ _ Hn Hty).
      rewrite (Hall x); [reflexivity | apply list_elem_of_In; exact Hx].
    + intros Hall x Hx. apply list_elem_of_In in Hx. specialize (Hall x Hx).
      rewrite (hasClass_single _ _ _ _ Hn Hty) in Hall.
      injection Hall as Hall. exact Hall.
Qed.

End ClassTheorems.

(** C4 as stated fails.  After removing no name at all, [hasClass] with no
    name is true, on the paragraph with the native list as on the [div]
    without it.  Without the native list a class written twice in the
    attribute is still there after [removeClass], and so is a class that a
    tab follows in the attribute; a class written twice in the attribute is
    there before [toggleClass] is applied twice, and gone after; and a name
    with a space in it is not found after [addClass].  With the native list,
    a string with two spaces in a row makes [addClass] throw. *)
Lemma class_membership_fails_as_stated :
  (exists w1,
      Dom.removeClass (H := Dom.Sample.host) (Dom.NodeRef 3%positive) (inr [])
        Dom.Sample.page = Ok (Some 3%positive, w1) /\
      Dom.hasClass (H := Dom.Sample.host) (Dom.NodeRef 3%positive) (inr []) w1
      = Ok (true, w1)) /\
  (exists w1,
      Dom.removeClass (H := Dom.Sample.host) (Dom.NodeRef 2%positive) (inr [])
        Dom.Sample.page = Ok (Some 2%positive, w1) /\
      Dom.hasClass (H := Dom.Sample.host) (Dom.NodeRef 2%positive) (inr []) w1
      = Ok (true, w1)) /\
  (exists w1,
      Dom.removeClass (H := Dom.Sample.host) (Dom.NodeRef 5%positive) (inl "dup")
        Dom.Sample.page = Ok (Some 5%positive, w1) /\
      Dom.hasClass (H := Dom.Sample.host) (Dom.NodeRef 5%positive) (inl "dup") w1
      = Ok (true, w1)) /\
  (exists w0 w1,
      Dom.setup (H := Dom.Sample.host) (Dom.NodeRef 5%positive)
        [("class", VStr ("a " +:+ String (ascii_of_nat 9) "a"))]
        Dom.Sample.page = Ok (Some 5%positive, w0) /\
      Dom.removeClass (H := Dom.Sample.host) (Dom.NodeRef 5%positive) (inl "a")
        w0 = Ok (Some 5%positive, w1) /\
      Dom.hasClass (H := Dom.Sample.host) (Dom.NodeRef 5%positive) (inl "a") w1
      = Ok (true, w1)) /\
  (exists w1 w2,
      Dom.toggleClass (H := Dom.Sample.host) (Dom.NodeRef 5%positive)
        (inl "dup") Dom.Sample.page = Ok (Some 5%positive, w1) /\
      Dom.toggleClass (H := Dom.Sample.host) (Dom.NodeRef 5%positive)
        (inl "dup") w1 = Ok (Some 5%positive, w2) /\
      Dom.hasClass (H := Dom.Sample.host) (Dom.NodeRef 5%positive) (inl "dup")
        Dom.Sample.page = Ok (true, Dom.Sample.page) /\
      Dom.hasClass (H := Dom.Sample.host) (Dom.NodeRef 5%positive) (inl "dup") w2
      = Ok (false, w2)) /\
  (exists w1,
      Dom.addClass (H := Dom.Sample.host) (Dom.NodeRef 2%positive)
        (inr ["x y"]) Dom.Sample.page = Ok (Some 2%positive, w1) /\
      Dom.hasClass (H := Dom.Sample.host) (Dom.NodeRef 2%positive)
        (inr ["x y"]) w1 = Ok (false, w1)) /\
  Dom.addClass (H := Dom.Sample.host) (Dom.NodeRef 3%positive) (inl "a  b")
    Dom.Sample.page = Throw (DOMException "SyntaxError").
Proof.
  split; [|split; [|split; [|split; [|split; [|split]]]]].
  - exists Dom.Sample.page. split; reflexivity.
  - exists Dom.Sample.page. split; reflexivity.
  - destruct (Dom.removeClass (H := Dom.Sample.host) (Dom.NodeRef 5%positive)
                (inl "dup") Dom.Sample.page) as [[r w1]| |] eqn:Hrun;
      vm_compute in Hrun; try discriminate.
    injection Hrun as <- <-.
    eexists. split; [reflexivity|]. vm_compute. reflexivity.
  - destruct (Dom.setup (H := Dom.Sample.host) (Dom.NodeRef 5%positive)
                [("class", VStr ("a " +:+ String (ascii_of_nat 9) "a"))]
                Dom.Sample.page) as [[r0 w0]| |] eqn:Hset;
      vm_compute in Hset; try discriminate.
    injection Hset as <- <-.
    eexists. eexists. split; [reflexivity|].
    match goal with
    | |- Dom.removeClass ?t ?names ?w = _ /\ _ =>
        destruct (Dom.removeClass t names w) as [[r1 w1]| |] eqn:Hrun;
        vm_compute in Hrun; try discriminate
    end.
    injection Hrun as <- <-.
    split; [reflexivity|]. vm_compute. reflexivity.
  - destruct (Dom.toggleClass (H := Dom.Sample.host) (Dom.NodeRef 5%positive)
                (inl "dup") Dom.Sample.page) as [[r1 w1]| |] eqn:Hone;
      vm_compute in Hone; try discriminate.
    injection Hone as <- <-.
    eexists. eexists. split; [reflexivity|].
    match goal with
    | |- Dom.toggleClass ?t ?names ?w = _ /\ _ =>
        destruct (Dom.toggleClass t names w) as [[r2 w2]| |] eqn:Htwo;
        vm_compute in Htwo; try discriminate
    end.
    injection Htwo as <- <-.
    split; [reflexivity|]. split; vm_compute; reflexivity.
  - destruct (Dom.addClass (H := Dom.Sample.host) (Dom.NodeRef 2%positive)
                (inr ["x y"]) Dom.Sample.page) as [[r w1]| |] eqn:Hrun;
      vm_compute in Hrun; try discriminate.
    injection Hrun as <- <-.
    eexists. split; [reflexivity|]. vm_compute. reflexivity.
  - vm_compute. reflexivity.
Qed.

(** On the [div] of the sample page, which has no native class list and the
    class attribute [foo bar]. *)
Lemma class_membership_laws_witness :
  (exists w1,
      Dom.addClass (H := Dom.Sample.host) (Dom.NodeRef 2%positive) (inl "baz qux")
        Dom.Sample.page = Ok (Some 2%positive, w1) /\
      Dom.hasClass (H := Dom.Sample.host) (Dom.NodeRef 2%positive)
        (inl "baz qux") w1 = Ok (true, w1)) /\
  (exists w1,
      Dom.removeClass (H := Dom.Sample.host) (Dom.NodeRef 2%positive)
        (inl "baz qux") Dom.Sample.page = Ok (Some 2%positive, w1) /\
      Dom.hasClass (H := Dom.Sample.host) (Dom.NodeRef 2%positive)
        (inl "baz qux") w1 = Ok (false, w1)).
Proof.
  assert (Hvalid : Forall JsString.valid_name
                     (Dom.resolveNames (inl "baz qux"))).
  { repeat constructor; discriminate. }
  assert (Htidy : Dom.class_tidy
                    (default (Dom.blank 1 "" "" None)
                       (Dom.nodes Dom.Sample.page !! 2%positive))).
  { intros _. right. repeat constructor; discriminate. }
  assert (Hdistinct : Dom.class_distinct
                        (default (Dom.blank 1 "" "" None)
                           (Dom.nodes Dom.Sample.page !! 2%positive))).
  { intros _. apply (bool_decide_unpack _). vm_compute. exact I. }
  destruct (class_membership_laws (H := Dom.Sample.host) Dom.Sample.page
              2%positive _ (inl "baz qux") eq_refl eq_refl Hvalid)
    as (Hadd & Hremove & _).
  split; [exact Hadd|]. exact (Hremove Htidy Hdistinct).
Defined.

(** ** Parsing markup into a fragment *)

Section FragmentProperties.

Import Dom.
Context `{Dom.Host}.

Lemma markup_nested_ind (P : markup -> Prop) :
  (forall tag attrs kids, Forall P kids -> P (MElement tag attrs kids)) ->
  (forall data, P (MText data)) ->
  (forall data, P (MComment data)) ->
  forall m, P m.
Proof.
  intros Helement Htext Hcomment.
  fix IH 1. intros [tag attrs kids|data|data].
  - apply Helement. induction kids as [|k kids IHkids]; constructor.
    + apply IH.
    + exact IHkids.
  - apply Htext.
  - apply Hcomment.
Qed.

Lemma extends_refl (w : world) : extends w w.
Proof. unfold extends. repeat split; try reflexivity. Qed.

Lemma extends_trans (w1 w2 w3 : world) :
  extends w1 w2 -> extends w2 w3 -> extends w1 w3.
Proof.
  intros (Hn12 & Hk12 & Hd12 & Hr12 & Hf12 & Ha12)
         (Hn23 & Hk23 & Hd23 & Hr23 & Hf23 & Ha23).
  unfold extends. split; [lia|]. split.
  - intros r Hr. rewrite Hk23 by lia. apply Hk12, Hr.
  - repeat split; congruence.
Qed.

Lemma alloc_spec (n : node) (w : world) :
  exists w',
    alloc n w = Ok (next_ref w, w') /\
    next_ref w' = Pos.succ (next_ref w) /\
    extends w w' /\
    (store_ok w -> store_ok w') /\
    nodes w' !! next_ref w = Some n.
Proof.
  eexists. split; [reflexivity|]. cbn.
  split; [reflexivity|]. split; [|split].
  - unfold extends. cbn. split; [lia|]. split; [|repeat split].
    intros r Hr. apply lookup_insert_ne. lia.
  - intros Hok r m. cbn. rewrite lookup_insert. case_decide as Hr.
    + intros _. subst r. lia.
    + intros Hm. specialize (Hok r m Hm). lia.
  - apply lookup_insert_eq.
Qed.

Lemma update_node_spec (r : ref) (n : node) (f : node -> node) (w : world) :
  nodes w !! r = Some n ->
  exists w',
    update_node r f w = Ok (tt, w') /\
    nodes w' !! r = Some (f n) /\
    (forall k, k <> r -> nodes w' !! k = nodes w !! k) /\
    next_ref w' = next_ref w /\ document w' = document w /\
    docRange w' = docRange w /\ nodeFactory w' = nodeFactory w /\
    attr_writes w' = attr_writes w /\
    (store_ok w -> store_ok w').
Proof.
  intros Hn. eexists. split; [apply (update_node_ok _ _ _ _ Hn)|]. cbn.
  split; [apply lookup_insert_eq|]. split.
  - intros k Hk. apply lookup_insert_ne. congruence.
  - repeat split. intros Hok k m. cbn. rewrite lookup_insert.
    case_decide as Hk.
    + intros _. subst k. apply (Hok _ _ Hn).
    + apply Hok.
Qed.

(** What building the nodes of a list of markup gives. *)
Definition builds (parent : ref) (ms : list markup) (w : world) : Prop :=
  exists ks w',
    mapM (build parent) ms w = Ok (ks, w') /\
    extends w w' /\ (store_ok w -> store_ok w') /\
    NoDup ks /\
    (forall k, k ∈ ks -> (next_ref w <= k < next_ref w')%positive) /\
    Forall2 (built_from w' parent) ks ms.

Lemma built_from_extends (w w' : world) (parent r : ref) (m : markup) :
  extends w w' -> (r < next_ref w)%positive ->
  built_from w parent r m -> built_from w' parent r m.
Proof.
  intros (_ & Hkeep & _) Hr (n & Hn & Hp & Hm).
  exists n. split; [|auto]. rewrite (Hkeep r Hr). exact Hn.
Qed.

Lemma mapM_build_spec (parent : ref) (ms : list markup) :
  Forall (fun m =>
            forall parent w,
              exists w',
                build parent m w = Ok (next_ref w, w') /\
                (next_ref w < next_ref w')%positive /\
                extends w w' /\ (store_ok w -> store_ok w') /\
                built_from w' parent (next_ref w) m) ms ->
  forall w, builds parent ms w.
Proof.
  induction 1 as [|m ms Hm Hms IH]; intros w.
  - exists [], w. split; [reflexivity|]. split; [apply extends_refl|].
    split; [auto|]. split; [apply NoDup_nil_2|]. split; [|constructor].
    intros k Hk. apply elem_of_nil in Hk. contradiction.
  - destruct (Hm parent w) as (w1 & Hrun1 & Hlt1 & Hext1 & Hok1 & Hbuilt1).
    destruct (IH w1) as (ks & w2 & Hrun2 & Hext2 & Hok2 & Hnd & Hrange & Hall).
    exists (next_ref w :: ks), w2. split.
    + cbn [mapM]. rewrite (bind_ok _ _ _ _ _ Hrun1).
      rewrite (bind_ok _ _ _ _ _ Hrun2). reflexivity.
    + split; [exact (extends_trans _ _ _ Hext1 Hext2)|].
      split; [auto|]. split; [|split].
      * apply NoDup_cons. split; [|exact Hnd].
        intros Hin. specialize (Hrange _ Hin). lia.
      * intros k Hk. destruct Hext2 as (Hn2 & _).
        apply elem_of_cons in Hk as [->|Hk]; [lia|].
        specialize (Hrange k Hk). lia.
      * constructor; [|exact Hall].
        apply (built_from_extends w1 w2); assumption.
Qed.

Lemma build_spec (m : markup) :
  forall parent w,
    exists w',
      build parent m w = Ok (next_ref w, w') /\
      (next_ref w < next_ref w')%positive /\
      extends w w' /\ (store_ok w -> store_ok w') /\
      built_from w' parent (next_ref w) m.
Proof.
  induction m as [tag attrs kids IH|data|data] using markup_nested_ind;
    intros parent w.
  - destruct (alloc_spec (new_element_node tag attrs (Some parent)) w)
      as (w1 & Hrun1 & Hnext1 & Hext1 & Hok1 & Hr1).
    destruct (mapM_build_spec (next_ref w) kids IH w1)
      as (ks & w2 & Hrun2 & Hext2 & Hok2 & _ & _ & _).
    assert (Hr2 : nodes w2 !! next_ref w
                  = Some (new_element_node tag attrs (Some parent))).
    { destruct Hext2 as (_ & Hkeep & _). rewrite Hkeep by lia. exact Hr1. }
    destruct (update_node_spec _ _ (set_childNodes ks) w2 Hr2)
      as (w3 & Hrun3 & Hr3 & Hkeep3 & Hn3 & Hd3 & Hg3 & Hf3 & Ha3 & Hok3).
    exists w3. split.
    + cbn [build]. rewrite (bind_ok _ _ _ _ _ Hrun1).
      rewrite (bind_ok _ _ _ _ _ Hrun2).
      rewrite (bind_ok _ _ _ _ _ Hrun3). reflexivity.
    + pose proof (extends_trans _ _ _ Hext1 Hext2) as Hext12.
      destruct Hext12 as (Hn12 & Hkeep12 & Hd12 & Hg12 & Hf12 & Ha12).
      pose proof (proj1 Hext2) as Hn2.
      split; [lia|]. split; [|split; [auto|]].
      * unfold extends. split; [lia|]. split.
        -- intros r Hr. rewrite Hkeep3 by lia. apply Hkeep12, Hr.
        -- repeat split; congruence.
      * eexists. split; [exact Hr3|]. split; reflexivity.
  - destruct (alloc_spec (blank 3 "#text" data (Some parent)) w)
      as (w1 & Hrun1 & Hnext1 & Hext1 & Hok1 & Hr1).
    exists w1. split; [exact Hrun1|]. split; [lia|]. split; [exact Hext1|].
    split; [exact Hok1|]. eexists. split; [exact Hr1|]. split; reflexivity.
  - destruct (alloc_spec (blank 8 "#comment" data (Some parent)) w)
      as (w1 & Hrun1 & Hnext1 & Hext1 & Hok1 & Hr1).
    exists w1. split; [exact Hrun1|]. split; [lia|]. split; [exact Hext1|].
    split; [exact Hok1|]. eexists. split; [exact Hr1|]. split; reflexivity.
Qed.

Lemma build_all_spec (parent : ref) (ms : list markup) (w : world) :
  builds parent ms w.
Proof.
  apply mapM_build_spec. rewrite Forall_forall. intros m _. apply build_spec.
Qed.

End FragmentProperties.

Section FragmentDrain.

Import Dom.
Context `{Dom.Host}.

Lemma detached_parent_not_ancestor (ns : gmap ref node) (a g : ref) (gn : node)
  (fuel : nat) :
  ns !! g = Some gn -> parentNode gn = None -> a <> g ->
  inclusive_ancestor fuel ns a g = false.
Proof.
  intros Hg Hp Hne. destruct fuel as [|fuel]; cbn [inclusive_ancestor].
  - rewrite orb_false_r. apply Pos.eqb_neq, Hne.
  - rewrite Hg, Hp, orb_false_r. apply Pos.eqb_neq, Hne.
Qed.

(** An element and a fragment take elements and character data. *)
Lemma admits_plain (ns : gmap ref node) (p n : node) (before : option ref) :
  (nodeType p = 1 \/ nodeType p = 11) ->
  (nodeType n = 1 \/ is_character_data (nodeType n) = true) ->
  admits ns p n before = true.
Proof.
  intros Hp Hn. unfold admits.
  assert (Hdoc : (nodeType p =? 9) = false)
    by (destruct Hp as [->| ->]; reflexivity).
  rewrite Hdoc, andb_false_r, andb_true_r. cbn [negb]. rewrite andb_true_r.
  destruct Hn as [->|Hdata]; [reflexivity|].
  rewrite Hdata, orb_true_r. cbn [andb].
  unfold is_character_data in Hdata.
  destruct (Z.eqb_spec (nodeType n) 10) as [Heq|_]; [|reflexivity].
  rewrite Heq in Hdata. discriminate Hdata.
Qed.

Lemma plain_not_fragment (n : node) :
  (nodeType n = 1 \/ is_character_data (nodeType n) = true) ->
  (nodeType n =? 11) = false.
Proof.
  intros [->|Hdata]; [reflexivity|].
  destruct (Z.eqb_spec (nodeType n) 11) as [Heq|_]; [|reflexivity].
  rewrite Heq in Hdata. discriminate Hdata.
Qed.

(** Appending to a fragment a child of another node moves it. *)
Lemma appendChild_move (w : world) (f g c : ref) (fn gn cn : node) :
  nodes w !! g = Some gn -> nodeType gn = 11 -> parentNode gn = None ->
  nodes w !! c = Some cn -> parentNode cn = Some f ->
  (nodeType cn = 1 \/ is_character_data (nodeType cn) = true) ->
  nodes w !! f = Some fn ->
  f <> g -> c <> f -> c <> g ->
  exists w',
    appendChild g c w = Ok (c, w') /\
    nodes w' !! f = Some (set_childNodes (without c (childNodes fn)) fn) /\
    nodes w' !! g = Some (set_childNodes (childNodes gn ++ [c]) gn) /\
    nodes w' !! c = Some (set_parentNode (Some g) cn) /\
    (forall k, k <> f -> k <> g -> k <> c -> nodes w' !! k = nodes w !! k) /\
    next_ref w' = next_ref w /\ nodeFactory w' = nodeFactory w /\
    document w' = document w /\ docRange w' = docRange w /\
    attr_writes w' = attr_writes w.
Proof.
  intros Hg Htyg Hpg Hc Hpc Htyc Hf Hfg Hcf Hcg.
  eexists. split.
  - unfold appendChild, insertBefore.
    rewrite (bind_ok _ _ _ _ _ (node_of_ok _ _ _ Hg)).
    rewrite Htyg. cbn [Z.eqb Pos.eqb orb negb].
    rewrite (bind_ok _ _ _ _ _ (node_of_ok _ _ _ Hc)).
    unfold bind at 1.
    rewrite (detached_parent_not_ancestor _ _ _ _ _ Hg Hpg Hcg).
    unfold bind at 1. unfold ret at 1. cbn [negb].
    unfold bind at 1.
    rewrite (admits_plain _ _ _ _ (or_intror Htyg) Htyc). cbn [negb].
    rewrite bool_decide_eq_false_2 by discriminate.
    unfold bind at 1. unfold ret at 1.
    rewrite (plain_not_fragment _ Htyc).
    cbn [forEach].
    unfold bind at 1. unfold bind at 1.
    rewrite (detach_ok _ _ _ _ _ Hc Hpc Hf (not_eq_sym Hcf)).
    unfold ret at 1. unfold bind at 1. unfold ret at 1.
    unfold bind at 1. unfold bind at 1.
    unfold update_node at 1. cbn [nodes with_nodes].
    rewrite lookup_insert_eq. unfold ret at 1.
    unfold bind at 1. unfold update_node at 1. cbn [nodes with_nodes].
    rewrite lookup_insert_ne by congruence.
    rewrite lookup_insert_ne by congruence.
    rewrite lookup_insert_ne by congruence.
    rewrite Hg. unfold ret. reflexivity.
  - cbn [nodes with_nodes next_ref nodeFactory document docRange attr_writes].
    split; [|split; [|split; [|split]]].
    + rewrite lookup_insert_ne by congruence.
      rewrite lookup_insert_ne by congruence.
      rewrite lookup_insert_ne by congruence.
      apply lookup_insert_eq.
    + rewrite lookup_insert_eq. reflexivity.
    + rewrite lookup_insert_ne by congruence.
      rewrite lookup_insert_eq. reflexivity.
    + intros k Hkf Hkg Hkc. rewrite !lookup_insert_ne by congruence.
      reflexivity.
    + repeat split.
Qed.

End FragmentDrain.

Section FragmentLoop.

Import Dom.
Context `{Dom.Host}.

Lemma without_absent (c : ref) (l : list ref) : c ∉ l -> without c l = l.
Proof.
  unfold without. induction l as [|x l IH]; intros Hout; [reflexivity|].
  apply not_elem_of_cons in Hout as [Hne Hout].
  rewrite filter_cons_True by congruence. rewrite IH by exact Hout. reflexivity.
Qed.

Lemma without_head (c : ref) (l : list ref) :
  NoDup (c :: l) -> without c (c :: l) = l.
Proof.
  intros Hnd. apply NoDup_cons in Hnd as [Hout _].
  unfold without. rewrite filter_cons_False by (intros Hne; apply Hne; reflexivity).
  apply without_absent, Hout.
Qed.

Lemma describe_same (w w' : world) (k : ref) (n n' : node) :
  nodes w !! k = Some n -> nodes w' !! k = Some n' ->
  nodeType n' = nodeType n -> nodeName n' = nodeName n ->
  nodeValue n' = nodeValue n ->
  describe w' k = describe w k.
Proof.
  intros Hn Hn' Hty Hname Hval. unfold describe. rewrite Hn, Hn'.
  rewrite Hty, Hname, Hval. reflexivity.
Qed.

(** The draining loop empties the scratch element into the fragment, in the
    order of the children. *)
Lemma drain_spec (f g : ref) (rest : list ref) :
  forall (done : list ref) (w : world) (fn gn : node) (fuel : nat),
    nodes w !! f = Some fn -> childNodes fn = rest ->
    nodes w !! g = Some gn -> nodeType gn = 11 -> parentNode gn = None ->
    childNodes gn = done ->
    f <> g -> NoDup rest ->
    (forall k, k ∈ rest ->
               k <> f /\ k <> g /\
               exists kn, nodes w !! k = Some kn /\ parentNode kn = Some f /\
                          (nodeType kn = 1 \/
                           is_character_data (nodeType kn) = true)) ->
    (length rest < fuel)%nat ->
    exists w' fn' gn',
      drain fuel f g w = Ok (tt, w') /\
      nodes w' !! f = Some fn' /\ childNodes fn' = [] /\
      nodeType fn' = nodeType fn /\
      nodes w' !! g = Some gn' /\ childNodes gn' = done ++ rest /\
      nodeType gn' = 11 /\
      (forall k, describe w' k = describe w k) /\
      (forall k, k ∈ rest ->
                 exists kn, nodes w' !! k = Some kn /\
                            parentNode kn = Some g) /\
      (forall k, k <> f -> k <> g -> k ∉ rest ->
                 nodes w' !! k = nodes w !! k) /\
      next_ref w' = next_ref w /\ nodeFactory w' = nodeFactory w.
Proof.
  induction rest as [|c rest IH];
    intros done w fn gn fuel Hf Hkids Hg Htyg Hpg Hdone Hfg Hnd Hrest Hfuel.
  - destruct fuel as [|fuel]; [cbn in Hfuel; lia|].
    exists w, fn, gn. split.
    + cbn [drain]. unfold firstChild.
      unfold bind at 1. unfold bind at 1. rewrite (node_of_ok _ _ _ Hf).
      rewrite Hkids. reflexivity.
    + rewrite app_nil_r. repeat split; try assumption; try reflexivity.
      intros k Hk. apply elem_of_nil in Hk. contradiction.
  - destruct fuel as [|fuel]; [cbn in Hfuel; lia|].
    destruct (Hrest c) as (Hcf & Hcg & cn & Hc & Hpc & Htyc);
      [apply elem_of_cons; auto|].
    destruct (appendChild_move w f g c fn gn cn Hg Htyg Hpg Hc Hpc Htyc Hf
                Hfg Hcf Hcg)
      as (w1 & Hrun1 & Hf1 & Hg1 & Hc1 & Hkeep1 & Hnext1 & Hfac1 & _).
    pose proof (NoDup_cons_1_1 _ _ Hnd) as Hc_out.
    pose proof (NoDup_cons_1_2 _ _ Hnd) as Hnd'.
    destruct (IH (done ++ [c]) w1 _ (set_childNodes (childNodes gn ++ [c]) gn)
                fuel Hf1) as
      (w' & fn' & gn' & Hrun & Hf' & Hkids' & Htyf' & Hg' & Hall' & Htyg' &
       Hdesc' & Hpar' & Hkeep' & Hnext' & Hfac').
    + cbn [childNodes set_childNodes]. rewrite Hkids.
      apply without_head, Hnd.
    + exact Hg1.
    + exact Htyg.
    + exact Hpg.
    + cbn [childNodes set_childNodes]. rewrite Hdone. reflexivity.
    + exact Hfg.
    + exact Hnd'.
    + intros k Hk.
      destruct (Hrest k) as (Hkf & Hkg & kn & Hkn & Hpk & Htyk);
        [apply elem_of_cons; auto|].
      split; [exact Hkf|]. split; [exact Hkg|]. exists kn.
      rewrite Hkeep1; [auto | exact Hkf | exact Hkg |].
      intros ->. contradiction.
    + cbn [length] in Hfuel. lia.
    + exists w', fn', gn'. split.
      * cbn [drain]. unfold firstChild.
        unfold bind at 1. unfold bind at 1. rewrite (node_of_ok _ _ _ Hf).
        rewrite Hkids. unfold ret at 1. cbn [head].
        unfold bind at 1. unfold bind at 1. rewrite (node_of_ok _ _ _ Hf).
        rewrite Hkids. unfold ret at 1. cbn [head].
        unfold deref. unfold bind at 1. unfold ret at 1.
        rewrite (bind_ok _ _ _ _ _ Hrun1). exact Hrun.
      * split; [exact Hf'|]. split; [exact Hkids'|]. split; [exact Htyf'|].
        split; [exact Hg'|]. split; [rewrite Hall', <- app_assoc; reflexivity|].
        split; [exact Htyg'|]. split; [|split; [|split; [|split]]].
        -- intros k. rewrite Hdesc'.
           destruct (decide (k = f)) as [->|Hkf];
             [apply (describe_same _ _ _ _ _ Hf Hf1); reflexivity|].
           destruct (decide (k = g)) as [->|Hkg];
             [apply (describe_same _ _ _ _ _ Hg Hg1); reflexivity|].
           destruct (decide (k = c)) as [->|Hkc];
             [apply (describe_same _ _ _ _ _ Hc Hc1); reflexivity|].
           unfold describe. rewrite (Hkeep1 k Hkf Hkg Hkc). reflexivity.
        -- intros k Hk. apply elem_of_cons in Hk as [->|Hk]; [|apply Hpar', Hk].
           eexists. rewrite (Hkeep' c Hcf Hcg Hc_out). split; [exact Hc1|].
           reflexivity.
        -- intros k Hkf Hkg Hk. apply not_elem_of_cons in Hk as [Hkc Hk].
           rewrite (Hkeep' k Hkf Hkg Hk). apply Hkeep1; assumption.
        -- congruence.
        -- congruence.
Qed.

End FragmentLoop.

Section FragmentTheorem.

Import Dom.
Context `{Dom.Host}.

(** Every host makes a [div] of the name [div]. *)
Lemma createElement_div : createElement "div" = alloc (new_element_node "div" [] None).
Proof.
  unfold createElement, element_name_accepted. cbn [Shape.simple_name orb].
  destruct html_document; reflexivity.
Qed.

Lemma getRange_spec (w : world) :
  exists r w0,
    getRange w = Ok (r, w0) /\
    nodes w0 = nodes w /\ next_ref w0 = next_ref w /\
    nodeFactory w0 = nodeFactory w.
Proof.
  unfold getRange. unfold bind at 1.
  destruct (docRange w) as [r|].
  - exists r, w. repeat split.
  - rewrite (bind_ok _ _ _ _ _ (range_without_start w None None None)).
    eexists. eexists. split; [reflexivity|]. repeat split.
Qed.

Lemma getNodeFactory_spec (w : world) :
  store_ok w -> factory_ready w ->
  exists f w' fn,
    getNodeFactory w = Ok (f, w') /\
    nodeFactory w' = Some f /\
    nodes w' !! f = Some fn /\ nodeType fn = 1 /\ childNodes fn = [] /\
    (next_ref w <= next_ref w')%positive /\
    (forall r, (r < next_ref w)%positive -> nodes w' !! r = nodes w !! r) /\
    store_ok w'.
Proof.
  intros Hok Hready. unfold getNodeFactory. unfold bind at 1.
  destruct (nodeFactory w) as [f|] eqn:Hfac.
  - destruct (Hready f Hfac) as (fn & Hfn & Hty & Hkids).
    exists f, w, fn. split; [reflexivity|]. split; [exact Hfac|].
    split; [exact Hfn|]. split; [exact Hty|]. split; [exact Hkids|].
    split; [lia|]. split; [reflexivity | exact Hok].
  - destruct (alloc_spec (new_element_node "div" [] None) w)
      as (w1 & Hrun1 & Hnext1 & Hext1 & Hok1 & Hf1).
    eexists. eexists. eexists. split.
    + unfold element. rewrite createElement_div.
      rewrite (bind_ok _ _ _ _ _
                 (bind_ok _ _ _ _ _ Hrun1)).
      reflexivity.
    + cbn [nodeFactory nodes next_ref].
      split; [reflexivity|]. split; [exact Hf1|].
      split; [reflexivity|]. split; [reflexivity|].
      destruct Hext1 as (Hle & Hkeep & _).
      split; [exact Hle|]. split; [exact Hkeep|].
      intros r n Hr. apply (Hok1 Hok r n Hr).
Qed.

Lemma built_from_describe (w : world) (parent : ref) (ks : list ref)
  (ms : list markup) :
  Forall2 (built_from w parent) ks ms ->
  map (describe w) ks = map (fun m => Some (parsed_as m)) ms.
Proof.
  induction 1 as [|k m ks ms (n & Hn & _ & Hm) _ IH]; [reflexivity|].
  cbn [map]. rewrite IH. unfold describe at 1. rewrite Hn, Hm. reflexivity.
Qed.

Lemma built_from_elem (w : world) (parent : ref) (ks : list ref)
  (ms : list markup) (k : ref) :
  Forall2 (built_from w parent) ks ms -> k ∈ ks ->
  exists m, built_from w parent k m.
Proof.
  induction 1 as [|k0 m ks ms Hk _ IH]; intros Hin.
  - apply elem_of_nil in Hin. contradiction.
  - apply elem_of_cons in Hin as [->|Hin]; [exists m; exact Hk | auto].
Qed.

Lemma parsed_as_plain (m : markup) (n : node) :
  (nodeType n, nodeName n, nodeValue n) = parsed_as m ->
  nodeType n = 1 \/ is_character_data (nodeType n) = true.
Proof.
  destruct m; intros [= -> _ _]; [left; reflexivity | right; reflexivity ..].
Qed.

(** C2: when [createFragment] takes the scratch-element path (a non-empty
    string, and a range without [createContextualFragment]), then given
    enough iterations of the draining loop it returns a fragment whose
    children are the freshly parsed nodes, in the order of the markup, each
    now under the fragment; and the scratch element is left without
    children, ready for the next call. *)
Theorem createFragment_drains_scratch (w : world) (html : string) (fuel : nat) :
  createContextualFragment = None ->
  store_ok w -> factory_ready w ->
  html <> "" ->
  (length (parseHTML html) < fuel)%nat ->
  exists w' g gn f fn,
    createFragment fuel (Some html) w = Ok (g, w') /\
    nodeFactory w' = Some f /\
    nodes w' !! f = Some fn /\ childNodes fn = [] /\
    nodes w' !! g = Some gn /\ nodeType gn = 11 /\
    map (describe w') (childNodes gn)
    = map (fun m => Some (parsed_as m)) (parseHTML html) /\
    NoDup (childNodes gn) /\
    (forall k, k ∈ childNodes gn ->
               (next_ref w <= k)%positive /\
               exists kn, nodes w' !! k = Some kn /\ parentNode kn = Some g) /\
    store_ok w' /\ factory_ready w'.
Proof.
  intros Hcap Hok Hready Hhtml Hfuel.
  destruct (getRange_spec w) as (r & w0 & Hrun0 & Hnodes0 & Hnext0 & Hfac0).
  assert (Hok0 : store_ok w0).
  { intros k n. rewrite Hnodes0, Hnext0. apply Hok. }
  assert (Hready0 : factory_ready w0).
  { intros f. rewrite Hfac0, Hnodes0. apply Hready. }
  destruct (alloc_spec (blank 11 "#document-fragment" "" None) w0)
    as (w1 & Hrun1 & Hnext1 & Hext1 & Hok1 & Hg1).
  set (g := next_ref w0) in *.
  destruct Hext1 as (Hle1 & Hkeep1 & _ & _ & Hfac1 & _).
  assert (Hready1 : factory_ready w1).
  { intros f Hf. rewrite Hfac1 in Hf.
    destruct (Hready0 f Hf) as (fn & Hfn & Hrest).
    exists fn. split; [|exact Hrest].
    rewrite Hkeep1; [exact Hfn | apply (Hok0 _ _ Hfn)]. }
  destruct (getNodeFactory_spec w1 (Hok1 Hok0) Hready1)
    as (f & w2 & fn & Hrun2 & Hfac2 & Hf2 & Htyf & Hkidsf & Hle2 & Hkeep2 & Hok2).
  assert (Hg2 : nodes w2 !! g = Some (blank 11 "#document-fragment" "" None)).
  { rewrite Hkeep2 by lia. exact Hg1. }
  assert (Hfg : f <> g).
  { intros ->. rewrite Hf2 in Hg2. injection Hg2 as ->. discriminate. }
  destruct (build_all_spec f (parseHTML html) w2)
    as (ks & w3 & Hrun3 & Hext3 & Hok3 & Hnd & Hrange & Hbuilt).
  destruct Hext3 as (Hle3 & Hkeep3 & _ & _ & Hfac3 & _).
  pose proof (Hok2 _ _ Hf2) as Hf_lt.
  pose proof (Hok2 _ _ Hg2) as Hg_lt.
  assert (Hf3 : nodes w3 !! f = Some fn) by (rewrite Hkeep3 by lia; exact Hf2).
  destruct (update_node_spec f fn (set_childNodes ks) w3 Hf3)
    as (w4 & Hrun4 & Hf4 & Hkeep4 & Hnext4 & _ & _ & Hfac4 & _ & Hok4).
  assert (Hg4 : nodes w4 !! g = Some (blank 11 "#document-fragment" "" None)).
  { rewrite Hkeep4 by congruence. rewrite Hkeep3 by lia. exact Hg2. }
  assert (Hkids : forall k, k ∈ ks ->
                    k <> f /\ k <> g /\
                    exists kn, nodes w4 !! k = Some kn /\
                               parentNode kn = Some f /\
                               (nodeType kn = 1 \/
                                is_character_data (nodeType kn) = true)).
  { intros k Hk. specialize (Hrange k Hk).
    assert (Hkf : k <> f) by lia. assert (Hkg : k <> g) by lia.
    split; [exact Hkf|]. split; [exact Hkg|].
    destruct (built_from_elem _ _ _ _ _ Hbuilt Hk) as (m & n & Hn & Hp & Hm).
    exists n. rewrite (Hkeep4 k Hkf). split; [exact Hn|]. split; [exact Hp|].
    apply (parsed_as_plain m), Hm. }
  destruct (drain_spec f g ks [] w4 _ _ fuel Hf4 eq_refl Hg4 eq_refl eq_refl
              eq_refl Hfg Hnd Hkids)
    as (w5 & fn5 & gn5 & Hrun5 & Hf5 & Hkids5 & Htyf5 & Hg5 & Hall5 & Htyg5 &
        Hdesc5 & Hpar5 & Hkeep5 & Hnext5 & Hfac5).
  { assert (Hlen : length ks = length (parseHTML html))
      by (apply (Forall2_length _ _ _ Hbuilt)).
    lia. }
  assert (Hok5 : store_ok w5).
  { intros k n Hn. rewrite Hnext5.
    pose proof (Hdesc5 k) as Hd. unfold describe in Hd. rewrite Hn in Hd.
    destruct (nodes w4 !! k) as [n4|] eqn:Hn4; [|discriminate].
    apply (Hok4 (Hok3 Hok2) k n4 Hn4). }
  exists w5, g, gn5, f, fn5. split.
  - unfold createFragment. cbv zeta.
    change (default "" (Some html)) with html.
    destruct (String.eqb_spec html "") as [->|_]; [contradiction|].
    rewrite (bind_ok _ _ _ _ _ Hrun0). rewrite Hcap.
    unfold createDocumentFragment.
    rewrite (bind_ok _ _ _ _ _ Hrun1).
    rewrite (bind_ok _ _ _ _ _ Hrun2).
    unfold set_innerHTML at 1.
    unfold bind at 1. unfold bind at 1. rewrite (node_of_ok _ _ _ Hf2).
    rewrite Htyf, Hkidsf. cbn [Z.eqb Pos.eqb forEach].
    unfold bind at 1. unfold ret at 1.
    unfold build_all. unfold bind at 1. rewrite Hrun3. rewrite Hrun4.
    rewrite (bind_ok _ _ _ _ _ Hrun5). reflexivity.
  - split; [congruence|]. split; [exact Hf5|]. split; [exact Hkids5|].
    split; [exact Hg5|]. split; [exact Htyg5|].
    rewrite Hall5. cbn [app]. split; [|split; [exact Hnd|split; [|split]]].
    + rewrite <- (built_from_describe w3 f ks _ Hbuilt).
      apply map_ext_in. intros k Hk. apply list_elem_of_In in Hk.
      rewrite Hdesc5. unfold describe.
      destruct (Hkids k Hk) as (Hkf & _). rewrite (Hkeep4 k Hkf). reflexivity.
    + intros k Hk. split; [|apply Hpar5, Hk].
      specialize (Hrange k Hk). lia.
    + exact Hok5.
    + intros f' Hf'. assert (f' = f) as -> by congruence.
      exists fn5. split; [exact Hf5|]. split; [|exact Hkids5].
      rewrite Htyf5. exact Htyf.
Qed.

End FragmentTheorem.

(** On the sample page the fragment is node 6 and the scratch element
    node 7; the paragraph, the text and the comment parsed from the markup
    end up under the fragment, in that order. *)
Lemma createFragment_drains_scratch_witness :
  exists w' gn fn,
    Dom.createFragment (H := Dom.Sample.host) 4 (Some "<p id=foo>") Dom.Sample.page
    = Ok (6%positive, w') /\
    Dom.nodes w' !! 6%positive = Some gn /\
    Dom.childNodes gn = [8%positive; 10%positive; 11%positive] /\
    Dom.nodeFactory w' = Some 7%positive /\
    Dom.nodes w' !! 7%positive = Some fn /\
    Dom.childNodes fn = [].
Proof.
  assert (Hok : Dom.store_ok Dom.Sample.page).
  { assert (Hall : map_Forall (fun (r : positive) (_ : Dom.node) =>
                                 (r < 6)%positive)
                     (Dom.nodes Dom.Sample.page)).
    { apply (bool_decide_unpack _). vm_compute. exact I. }
    intros r n Hr. exact (Hall r n Hr). }
  assert (Hready : Dom.factory_ready Dom.Sample.page).
  { intros f Hf. discriminate Hf. }
  destruct (createFragment_drains_scratch (H := Dom.Sample.host)
              Dom.Sample.page "<p id=foo>" 4 eq_refl Hok Hready)
    as (w' & g & gn & f & fn & Hrun & Hfac & Hf & Hkids & Hg & _ & _).
  - discriminate.
  - cbn. lia.
  - pose proof Hrun as Hvalue. vm_compute in Hvalue.
    injection Hvalue as Hg6 Hw. subst g.
    rewrite <- Hw in Hfac, Hg. vm_compute in Hfac, Hg.
    injection Hfac as <-. injection Hg as <-.
    exists w'. eexists. exists fn.
    split; [exact Hrun|]. rewrite <- Hw at 1 2.
    split; [vm_compute; reflexivity|]. split; [reflexivity|].
    split; [vm_compute; reflexivity|]. split; [exact Hf | exact Hkids].
Defined.

(** ** Subjects given by selector *)

Section SubjectProperties.

Import Dom.
Context `{Dom.Host}.

Lemma bind_congr {A B} (m m' : M A) (k : A -> M B) (w w' : world) :
  m w = m' w' -> bind m k w = bind m' k w'.
Proof. intros Hm. unfold bind. rewrite Hm. reflexivity. Qed.

Lemma resolveNode_selector (s : string) (n : ref) (w w1 : world) :
  querySelector (document w) s w = Ok (Some n, w1) ->
  resolveNode (Selector s) w = resolveNode (NodeRef n) w1.
Proof. intros Hq. cbn. exact Hq. Qed.

Lemma returns_ret {A} (x : A) : returns x (ret x).
Proof. intros w a w' [= <- _]. reflexivity. Qed.

Lemma returns_bind {A B} (x : B) (m : M A) (k : A -> M B) :
  (forall a, returns x (k a)) -> returns x (bind m k).
Proof.
  intros Hk w b w' Hrun. apply bind_ok_inv in Hrun as (a & w1 & _ & Hrun).
  exact (Hk a w1 b w' Hrun).
Qed.

Lemma returns_returning {A} (f : A -> result) (x : A) (m : M A) :
  returns x m -> returns (f x) (returning f m).
Proof.
  intros Hm w b w' Hrun. unfold returning in Hrun.
  apply bind_ok_inv in Hrun as (a & w1 & Hrun1 & Hret).
  injection Hret as <- _. f_equal. exact (Hm _ _ _ Hrun1).
Qed.

Lemma returns_resolved {A} (n : ref) (x : A) (k : option ref -> M A) :
  returns x (k (Some n)) -> returns x (bind (resolveNode (NodeRef n)) k).
Proof. intros Hk w a w' Hrun. exact (Hk w a w' Hrun). Qed.

Ltac returns_step :=
  first
    [ apply returns_ret
    | apply returns_bind; intros ?
    | match goal with
      | |- returns _ (match ?x with _ => _ end) => destruct x
      | |- returns _ (if ?b then _ else _) => destruct b
      | |- returns _ (let '(_, _) := ?p in _) => destruct p
      end ].

(** C10: with a selector that the document resolves to the node [n], each
    of the listed operations does what it does on [n] itself: the string is
    looked up by [dom.query] over the whole document before anything else
    happens; and the operations that change the document or its listeners,
    and [each], return that node. *)
Theorem selector_subject_resolved (c : call) (s : string) (n : ref)
  (w w1 : world) :
  s <> "" ->
  query s None w = Ok (Some n, w1) ->
  resolveNode (Selector s) w = query s None w /\
  query s None w = querySelector (document w) s w /\
  perform c (Selector s) w = perform c (NodeRef n) w1 /\
  (chained c = true ->
   forall res w2,
     perform c (NodeRef n) w1 = Ok (res, w2) -> res = Subject (Some n)).
Proof.
  intros Hs Hq. split; [reflexivity|]. split; [reflexivity|].
  assert (Hres : resolveNode (Selector s) w = resolveNode (NodeRef n) w1).
  { apply resolveNode_selector. exact Hq. }
  assert (Hgiven : given (Some (Selector s)) = true).
  { cbn. destruct (String.eqb_spec s ""); [contradiction | reflexivity]. }
  split.
  - destruct c; cbn [perform]; unfold returning; apply bind_congr;
      unfold query, queryAll, clone; cbv zeta; rewrite ?Hgiven; cbn [given];
      apply bind_congr; exact Hres.
  - intros Hchained res w2 Hrun.
    destruct c; try discriminate Hchained; cbn [perform] in Hrun;
      revert Hrun; apply returns_returning;
      apply returns_resolved; cbv zeta; repeat returns_step.
Qed.

End SubjectProperties.

(** On the sample page [#test] selects the [div]: removing by selector
    removes the [div] and returns it. *)
Lemma selector_subject_resolved_witness :
  Dom.perform (H := Dom.Sample.host) Dom.CallRemove (Dom.Selector "#test")
    Dom.Sample.page
  = Dom.perform (H := Dom.Sample.host) Dom.CallRemove (Dom.NodeRef 2%positive)
      Dom.Sample.page /\
  exists w2,
    Dom.perform (H := Dom.Sample.host) Dom.CallRemove (Dom.Selector "#test")
      Dom.Sample.page = Ok (Dom.Subject (Some 2%positive), w2).
Proof.
  destruct (selector_subject_resolved (H := Dom.Sample.host) Dom.CallRemove
              "#test" 2%positive Dom.Sample.page Dom.Sample.page)
    as (_ & _ & Hsame & Hsubject); [discriminate | reflexivity |].
  split; [exact Hsame|].
  destruct (Dom.perform (H := Dom.Sample.host) Dom.CallRemove
              (Dom.NodeRef 2%positive) Dom.Sample.page)
    as [[res w2]| |] eqn:Hrun.
  - exists w2. rewrite Hsame. rewrite (Hsubject eq_refl res w2 eq_refl).
    reflexivity.
  - vm_compute in Hrun. discriminate Hrun.
  - vm_compute in Hrun. discriminate Hrun.
Defined.


(** * Further properties *)

(** ** The tests of the node kind *)

Section KindTests.

Import NodeType NodeTest.

Lemma getType_outside (t : Z) :
  t < 0 \/ 12 < t -> getType t = VStr "".
Proof.
  intros Hout. unfold getType, nodeTypes_at.
  destruct (Z.ltb_spec t 0) as [Hneg|Hpos]; [reflexivity|].
  assert (Hnone : nodeTypes !! Z.to_nat t = None).
  { apply lookup_ge_None. simpl. lia. }
  rewrite Hnone. reflexivity.
Qed.

(** The tag a test compares with. *)
Lemma tests_tag (name : string) (test : any -> outcome bool) :
  (name, test) ∈ tests ->
  exists tag,
    test = nodeType_is tag /\ 1 <= tag <= 12 /\
    forall t, (t =? tag) = bool_decide (getType t = VStr name).
Proof.
  intros Hin. unfold tests in Hin.
  assert (Hagree : forall tag name,
             1 <= tag <= 12 -> getType tag = VStr name -> name <> "" ->
             (forall t, 0 <= t <= 12 -> getType t = VStr name -> t = tag) ->
             forall t, (t =? tag) = bool_decide (getType t = VStr name)).
  { intros tag nm Htag Hname Hne Huniq t.
    destruct (Z.eqb_spec t tag) as [->|Hdiff].
    - symmetry. apply bool_decide_eq_true_2, Hname.
    - symmetry. apply bool_decide_eq_false_2. intros Ht.
      destruct (Z_lt_dec t 0) as [Hneg|Hpos].
      + rewrite getType_outside in Ht by lia. congruence.
      + destruct (Z_lt_dec 12 t) as [Hbig|Hsmall].
        * rewrite getType_outside in Ht by lia. congruence.
        * apply Hdiff, Huniq; [lia | exact Ht]. }
  assert (Hcases : forall t, 0 <= t <= 12 ->
             t = 0 \/ t = 1 \/ t = 2 \/ t = 3 \/ t = 4 \/ t = 5 \/ t = 6 \/
             t = 7 \/ t = 8 \/ t = 9 \/ t = 10 \/ t = 11 \/ t = 12) by (intros; lia).
  repeat (apply elem_of_cons in Hin as [[= -> ->]|Hin];
          [eexists; split; [reflexivity|]; split; [lia|];
           apply Hagree; [lia | reflexivity | discriminate |];
           intros t Ht Hname; specialize (Hcases t Ht);
           repeat (destruct Hcases as [->|Hcases];
                   [first [reflexivity | discriminate Hname]|]);
           subst t; first [reflexivity | discriminate Hname]|]).
  apply elem_of_nil in Hin. contradiction.
Qed.

(** Each of the seven tests of the node kind returns for every value but
    [null] and [undefined], on which it throws a [TypeError] (where [isNode]
    answers [false]); it answers [true] exactly for a value whose [nodeType]
    is the tag to which [getType] gives the name of the test; so at most
    one test holds of a value, and an object of which one holds is a node
    for [isNode]. *)
Theorem kind_tests_follow_getType (v : any) :
  (v = ANull \/ v = AUndefined ->
   isNode v = false /\
   forall name test, (name, test) ∈ tests -> test v = Throw TypeError) /\
  (v <> ANull -> v <> AUndefined ->
   forall name test,
     (name, test) ∈ tests ->
     exists b,
       test v = Ok b /\
       (b = true <->
        exists t, nodeType_of v = Some t /\ getType t = VStr name)) /\
  (forall name1 test1 name2 test2,
      (name1, test1) ∈ tests -> (name2, test2) ∈ tests ->
      test1 v = Ok true -> test2 v = Ok true -> name1 = name2) /\
  (forall name test,
      (name, test) ∈ tests -> isObject v = true -> test v = Ok true ->
      isNode v = true).
Proof.
  split; [|split; [|split]].
  - intros Hv. split; [destruct Hv as [->| ->]; reflexivity|].
    intros name test Hin.
    destruct (tests_tag name test Hin) as (tag & -> & _).
    destruct Hv as [->| ->]; reflexivity.
  - intros Hnull Hundef name test Hin.
    destruct (tests_tag name test Hin) as (tag & -> & _ & Hagree).
    destruct v as [| |b|n|s|t|t]; try contradiction;
      try (exists false; split; [reflexivity|]; split; [discriminate|];
           intros (t & Ht & _); discriminate Ht).
    + destruct t as [t|]; cbn.
      * exists (t =? tag). split; [reflexivity|]. rewrite Hagree.
        rewrite bool_decide_eq_true. split.
        -- intros Hname. exists t. auto.
        -- intros (t' & [= <-] & Hname). exact Hname.
      * exists false. split; [reflexivity|]. split; [discriminate|].
        intros (t & Ht & _). discriminate Ht.
    + destruct t as [t|]; cbn.
      * exists (t =? tag). split; [reflexivity|]. rewrite Hagree.
        rewrite bool_decide_eq_true. split.
        -- intros Hname. exists t. auto.
        -- intros (t' & [= <-] & Hname). exact Hname.
      * exists false. split; [reflexivity|]. split; [discriminate|].
        intros (t & Ht & _). discriminate Ht.
  - intros name1 test1 name2 test2 Hin1 Hin2 Hrun1 Hrun2.
    destruct (tests_tag name1 test1 Hin1) as (tag1 & -> & _ & Hagree1).
    destruct (tests_tag name2 test2 Hin2) as (tag2 & -> & _ & Hagree2).
    unfold nodeType_is in Hrun1, Hrun2.
    destruct v as [| |b|n|s|t|t]; try discriminate;
      destruct t as [t|]; try discriminate; cbn in Hrun1, Hrun2;
      injection Hrun1 as Hrun1; injection Hrun2 as Hrun2;
      rewrite Hagree1 in Hrun1; rewrite Hagree2 in Hrun2;
      apply bool_decide_eq_true in Hrun1; apply bool_decide_eq_true in Hrun2;
      congruence.
  - intros name test Hin Hobj Hrun.
    destruct (tests_tag name test Hin) as (tag & -> & Htag & _).
    destruct v as [| |b|n|s|t|t]; try discriminate Hobj.
    destruct t as [t|]; [|discriminate Hrun].
    cbn in Hrun. injection Hrun as Hrun. apply Z.eqb_eq in Hrun. subst t.
    unfold isNode. cbn. apply andb_true_intro. split; lia.
Qed.

End KindTests.

(** A fragment (tag 11) passes [isFragment] and no other test, and reading
    the kind of [null] throws. *)
Lemma kind_tests_follow_getType_witness :
  NodeTest.isFragment (NodeType.AObject (Some 11)) = Ok true /\
  NodeTest.isElement (NodeType.AObject (Some 11)) = Ok false /\
  NodeTest.isElement NodeType.ANull = Throw TypeError /\
  NodeType.isNode (NodeType.AObject (Some 11)) = true.
Proof.
  pose proof (kind_tests_follow_getType (NodeType.AObject (Some 11)))
    as (_ & Hreturn & _ & Hnode).
  pose proof (kind_tests_follow_getType NodeType.ANull) as (Hnull & _).
  assert (Hfrag : ("fragment", NodeTest.isFragment) ∈ NodeTest.tests).
  { apply list_elem_of_In. simpl. tauto. }
  assert (Hel : ("element", NodeTest.isElement) ∈ NodeTest.tests).
  { apply elem_of_cons. left. reflexivity. }
  destruct (Hreturn ltac:(discriminate) ltac:(discriminate) _ _ Hfrag)
    as (b & Hrun & Hb).
  split; [|split; [|split]].
  - rewrite Hrun. f_equal. apply Hb. exists 11. split; reflexivity.
  - reflexivity.
  - apply (proj2 (Hnull (or_introl eq_refl)) _ _ Hel).
  - apply (Hnode _ _ Hfrag); [reflexivity|].
    rewrite Hrun. f_equal. apply Hb. exists 11. split; reflexivity.
Defined.

(** ** Subjects that no element matches *)

Section MissingSubject.

Import Dom.
Context `{Dom.Host}.

(** When the selector given as subject matches no element, every operation
    that takes a subject throws a [TypeError], the subject being [null];
    but for [setup] with an object without properties, which touches its
    subject for no property and returns [null]. *)
Theorem missing_subject_throws (c : call) (s : string) (w w1 : world) :
  s <> "" ->
  query s None w = Ok (None, w1) ->
  perform c (Selector s) w =
  match c with
  | CallSetup [] => Ok (Subject None, w1)
  | _ => Throw TypeError
  end.
Proof.
  intros Hs Hq.
  assert (Hres : resolveNode (Selector s) w = Ok (None, w1)) by exact Hq.
  assert (Hgiven : given (Some (Selector s)) = true).
  { cbn. destruct (String.eqb_spec s ""); [contradiction | reflexivity]. }
  destruct c as [attrs|names|names|names|names|key v|key|nd|nd|nd|nd| |
                 |deep|fuel sel|cb|ev cb|ev cb|ev|sel|sel];
    cbn [perform]; unfold returning;
    try (unfold setup, addClass, removeClass, toggleClass, hasClass, setData,
           getData, append, prepend, before, after, remove, clear, clone,
           closest, each, on, off, trigger, query, queryAll;
         cbv zeta; rewrite ?Hgiven;
         unfold bind at 1; rewrite (bind_ok _ _ _ _ _ Hres)).
  1: destruct attrs as [|[name value] attrs].
  all: reflexivity.
Qed.

End MissingSubject.

(** On the sample page no element matches [#nothing]: adding a class by
    that selector throws, and [setup] without properties returns [null]. *)
Lemma missing_subject_throws_witness :
  Dom.perform (H := Dom.Sample.host) (Dom.CallAddClass (inl "a"))
    (Dom.Selector "#nothing") Dom.Sample.page = Throw TypeError /\
  Dom.perform (H := Dom.Sample.host) (Dom.CallSetup [])
    (Dom.Selector "#nothing") Dom.Sample.page
  = Ok (Dom.Subject None, Dom.Sample.page).
Proof.
  split.
  - apply (missing_subject_throws (H := Dom.Sample.host)
             (Dom.CallAddClass (inl "a")) "#nothing" Dom.Sample.page
             Dom.Sample.page); [discriminate | reflexivity].
  - apply (missing_subject_throws (H := Dom.Sample.host)
             (Dom.CallSetup []) "#nothing" Dom.Sample.page
             Dom.Sample.page); [discriminate | reflexivity].
Defined.

(** ** The two caches *)

Section Caches.

Import Dom.
Context `{Dom.Host}.

(** The range and the scratch element that the parsing of markup uses are
    made on first use and kept: [getRange] and [getNodeFactory] always
    return, after a call the cache holds what was returned, and a further
    call returns the same object and changes nothing.  A call that finds the
    cache filled changes nothing either; one that finds it empty makes a
    collapsed range at the start of the document, or allocates one [div]
    that has no parent and no children. *)
Theorem caches_filled_once (w : world) :
  (exists r w1,
      getRange w = Ok (r, w1) /\ docRange w1 = Some r /\
      getRange w1 = Ok (r, w1) /\
      nodes w1 = nodes w /\ next_ref w1 = next_ref w /\
      nodeFactory w1 = nodeFactory w /\
      (forall r0, docRange w = Some r0 -> r = r0 /\ w1 = w) /\
      (docRange w = None ->
       r = mkRange (document w) 0 (document w) 0 /\ collapsed r = true)) /\
  (exists f w1,
      getNodeFactory w = Ok (f, w1) /\ nodeFactory w1 = Some f /\
      getNodeFactory w1 = Ok (f, w1) /\
      docRange w1 = docRange w /\
      (forall f0, nodeFactory w = Some f0 -> f = f0 /\ w1 = w) /\
      (nodeFactory w = None ->
       f = next_ref w /\ next_ref w1 = Pos.succ (next_ref w) /\
       nodes w1 = <[f := new_element_node "div" [] None]> (nodes w))).
Proof.
  split.
  - unfold getRange. unfold bind at 1.
    destruct (docRange w) as [r0|] eqn:Hcache.
    + exists r0, w. split; [reflexivity|]. split; [exact Hcache|].
      split; [unfold bind at 1; rewrite Hcache; reflexivity|].
      repeat (split; [reflexivity|]). split; [|discriminate].
      intros r1 [= <-]. split; reflexivity.
    + rewrite (bind_ok _ _ _ _ _ (range_without_start w None None None)).
      eexists. eexists. split; [reflexivity|]. cbn.
      split; [reflexivity|]. split; [reflexivity|].
      repeat (split; [reflexivity|]). split; [discriminate|].
      intros _. split; [reflexivity|]. unfold collapsed. cbn.
      rewrite bool_decide_eq_true_2 by reflexivity. reflexivity.
  - unfold getNodeFactory. unfold bind at 1.
    destruct (nodeFactory w) as [f0|] eqn:Hcache.
    + exists f0, w. split; [reflexivity|]. split; [exact Hcache|].
      split; [unfold bind at 1; rewrite Hcache; reflexivity|].
      split; [reflexivity|]. split; [|discriminate].
      intros f1 [= <-]. split; reflexivity.
    + unfold element. rewrite createElement_div.
      eexists. eexists. split; [reflexivity|]. cbn.
      split; [reflexivity|]. split; [reflexivity|]. split; [reflexivity|].
      split; [discriminate|]. intros _. repeat split.
Qed.

End Caches.

(** On the sample page both caches are empty: the scratch element becomes
    node 6, and stays node 6 at the second call. *)
Lemma caches_filled_once_witness :
  exists w1,
    Dom.getNodeFactory (H := Dom.Sample.host) Dom.Sample.page
    = Ok (6%positive, w1) /\
    Dom.getNodeFactory (H := Dom.Sample.host) w1 = Ok (6%positive, w1).
Proof.
  destruct (caches_filled_once (H := Dom.Sample.host) Dom.Sample.page)
    as (_ & f & w1 & Hrun & _ & Hagain & _ & _ & Hfresh).
  destruct (Hfresh eq_refl) as (Hf & _).
  change (Dom.next_ref Dom.Sample.page) with 6%positive in Hf. subst f.
  exists w1. split; [exact Hrun | exact Hagain].
Defined.

(** ** The closest matching ancestor, without the native method *)

Section Closest.

Import Dom.
Context `{Dom.Host}.

Lemma matches_answer (w : world) (selector : string) (b : bool) (r : ref) :
  answers w selector b r -> matches r selector w = Ok (b, w).
Proof.
  intros (n & m & Hn & Hfirst & Hcall). unfold matches.
  rewrite (bind_ok _ _ _ _ _ (node_of_ok _ _ _ Hn)). rewrite Hfirst.
  exact Hcall.
Qed.

(** The loop passes the nodes that do not match. *)
Lemma closest_loop_past (w : world) (selector : string) (top : option ref)
  (fuel : nat) (rs : list ref) :
  Forall (answers w selector false) rs -> climbs w rs top ->
  closest_loop (length rs + fuel) (start rs top) selector w
  = closest_loop fuel top selector w.
Proof.
  induction rs as [|r rest IH]; intros Hrefuse Hclimb; [reflexivity|].
  apply Forall_cons in Hrefuse as [Hr Hrest].
  destruct Hclimb as [(n & Hn & Hparent) Hclimb].
  cbn [length Nat.add start closest_loop].
  rewrite (bind_ok _ _ _ _ _ (matches_answer _ _ _ _ Hr)).
  unfold get_parentNode.
  rewrite (bind_ok _ _ _ _ _ (bind_ok _ _ _ _ _ (node_of_ok _ _ _ Hn))).
  rewrite Hparent. rewrite <- (IH Hrest Hclimb).
  destruct rest; reflexivity.
Qed.

Lemma closest_fallback (w : world) (selector : string) (e : ref) (n : node)
  (fuel : nat) :
  nodes w !! e = Some n -> has_closest n = false ->
  closest fuel (NodeRef e) selector w
  = closest_loop fuel (Some e) selector w.
Proof.
  intros Hn Hnative. unfold closest, resolveNode, deref.
  unfold bind at 1. unfold ret at 1. unfold bind at 1. unfold ret at 1.
  rewrite (bind_ok _ _ _ _ _ (node_of_ok _ _ _ Hn)). rewrite Hnative.
  reflexivity.
Qed.

(** Without the native method, [closest] returns the nearest of the
    element and its ancestors that matches the selector: when the nodes
    from the element up to, and without, the node [t] have a matching method
    that answers no, and [t] has one that answers yes, the result is [t]
    (the element itself when it matches), for any bound on the loop above
    the number of nodes passed. *)
Theorem closest_nearest_match (w : world) (selector : string) (e t : ref)
  (n : node) (below : list ref) (fuel : nat) :
  nodes w !! e = Some n -> has_closest n = false ->
  start below (Some t) = Some e ->
  climbs w below (Some t) ->
  Forall (answers w selector false) below ->
  answers w selector true t ->
  (length below < fuel)%nat ->
  closest fuel (NodeRef e) selector w = Ok (Some t, w).
Proof.
  intros Hn Hnative Hstart Hclimb Hrefuse Hmatch Hfuel.
  rewrite (closest_fallback _ _ _ _ _ Hn Hnative). rewrite <- Hstart.
  replace fuel with (length below + S (fuel - length below - 1))%nat by lia.
  rewrite (closest_loop_past _ _ _ _ _ Hrefuse Hclimb).
  cbn [closest_loop].
  rewrite (bind_ok _ _ _ _ _ (matches_answer _ _ _ _ Hmatch)). reflexivity.
Qed.

(** Without the native method and without a match, [closest] returns
    [null] only when the climb ends at a node without parent.  When it
    reaches a node that has no matching method, as the document has none,
    [closest] throws the error of [matches]. *)
Theorem closest_without_match (w : world) (selector : string) (e : ref)
  (n : node) (below : list ref) (top : option ref) (fuel : nat) :
  nodes w !! e = Some n -> has_closest n = false ->
  start below top = Some e ->
  climbs w below top ->
  Forall (answers w selector false) below ->
  (length below < fuel)%nat ->
  (top = None -> closest fuel (NodeRef e) selector w = Ok (None, w)) /\
  (forall t tn,
      top = Some t -> nodes w !! t = Some tn ->
      (forall m, m ∈ matcher_names -> m ∉ matchers tn) ->
      closest fuel (NodeRef e) selector w
      = Throw (Error "Method matches() is not supported")).
Proof.
  intros Hn Hnative Hstart Hclimb Hrefuse Hfuel.
  rewrite (closest_fallback _ _ _ _ _ Hn Hnative). rewrite <- Hstart.
  replace fuel with (length below + S (fuel - length below - 1))%nat by lia.
  rewrite (closest_loop_past _ _ _ _ _ Hrefuse Hclimb).
  split.
  - intros ->. reflexivity.
  - intros t tn -> Ht Hnone. cbn [closest_loop]. unfold matches.
    unfold bind at 1.
    rewrite (bind_ok _ _ _ _ _ (node_of_ok _ _ _ Ht)).
    rewrite (proj2 (first_matcher_none _) Hnone). reflexivity.
Qed.

End Closest.

(** In the tree of the second engine the [span] (4) lies in the [div] (3),
    which lies in the [section] (2): [section] is found from the [span]
    past the [div]. *)
Lemma closest_nearest_match_witness :
  Dom.closest (H := Dom.Engine.host) 3 (Dom.NodeRef 4%positive) "section"
    Dom.Engine.tree = Ok (Some 2%positive, Dom.Engine.tree).
Proof.
  apply (closest_nearest_match (H := Dom.Engine.host) Dom.Engine.tree
           "section" 4%positive 2%positive _ [4%positive; 3%positive] 3
           eq_refl eq_refl eq_refl).
  - split; [eexists; split; reflexivity|].
    split; [eexists; split; reflexivity|]. exact I.
  - repeat constructor; eexists; exists "matches"; repeat split; reflexivity.
  - eexists. exists "matches". repeat split; reflexivity.
  - simpl. lia.
Defined.

(** No [article] lies above the [span]: the climb reaches the document (1),
    which has no matching method, and [closest] throws.  From the detached
    paragraph (7) the climb ends, and the result is [null]. *)
Lemma closest_without_match_witness :
  Dom.closest (H := Dom.Engine.host) 4 (Dom.NodeRef 4%positive) "article"
    Dom.Engine.tree = Throw (Error "Method matches() is not supported") /\
  Dom.closest (H := Dom.Engine.host) 2 (Dom.NodeRef 7%positive) "article"
    Dom.Engine.tree = Ok (None, Dom.Engine.tree).
Proof.
  split.
  - destruct (closest_without_match (H := Dom.Engine.host) Dom.Engine.tree
                "article" 4%positive _ [4%positive; 3%positive; 2%positive]
                (Some 1%positive) 4 eq_refl eq_refl eq_refl) as [_ Hthrow].
    + split; [eexists; split; reflexivity|].
      split; [eexists; split; reflexivity|].
      split; [eexists; split; reflexivity|]. exact I.
    + repeat constructor; eexists; exists "matches"; repeat split; reflexivity.
    + simpl. lia.
    + apply (Hthrow 1%positive _ eq_refl eq_refl).
      intros m _ Hm. apply elem_of_nil in Hm. exact Hm.
  - destruct (closest_without_match (H := Dom.Engine.host) Dom.Engine.tree
                "article" 7%positive _ [7%positive] None 2
                eq_refl eq_refl eq_refl) as [Hnull _].
    + split; [eexists; split; reflexivity | exact I].
    + repeat constructor; eexists; exists "matches"; repeat split; reflexivity.
    + simpl. lia.
    + apply Hnull. reflexivity.
Defined.

(** ** Keys of custom data *)

Section DataKeys.

Import Dom JsString Shape.
Context `{Dom.Host}.

Lemma to_lower_not_upper (c : ascii) : is_upper (to_lower c) = false.
Proof.
  destruct c as [[] [] [] [] [] [] [] []]; reflexivity.
Qed.

Lemma to_lower_upper_inj (c1 c2 : ascii) :
  is_upper c1 = true -> is_upper c2 = true ->
  to_lower c1 = to_lower c2 -> c1 = c2.
Proof.
  unfold to_lower. intros H1 H2. rewrite H1, H2.
  unfold is_upper in H1, H2. cbv zeta in H1, H2.
  apply andb_prop in H1 as [H1a H1b]. apply andb_prop in H2 as [H2a H2b].
  apply Nat.leb_le in H1a, H1b, H2a, H2b.
  intros Heq. apply (f_equal nat_of_ascii) in Heq.
  rewrite !nat_ascii_embedding in Heq by lia.
  rewrite <- (ascii_nat_embedding c1), <- (ascii_nat_embedding c2).
  f_equal. lia.
Qed.

Lemma hyphenate_upper_free (s : string) : upper_free (hyphenate s) = true.
Proof.
  induction s as [|c s IH]; [reflexivity|].
  cbn [hyphenate]. destruct (is_upper c) eqn:Hc; cbn [upper_free].
  - rewrite to_lower_not_upper, IH. reflexivity.
  - rewrite Hc, IH. reflexivity.
Qed.

Lemma hyphenate_upper_free_id (s : string) :
  upper_free s = true -> hyphenate s = s.
Proof.
  induction s as [|c s IH]; [reflexivity|].
  cbn [upper_free hyphenate]. intros Hfree.
  apply andb_prop in Hfree as [Hc Hs]. apply negb_true_iff in Hc.
  rewrite Hc, (IH Hs). reflexivity.
Qed.

Lemma hyphenate_inj (k1 k2 : string) :
  hyphen_free k1 = true -> hyphen_free k2 = true ->
  hyphenate k1 = hyphenate k2 -> k1 = k2.
Proof.
  revert k2. induction k1 as [|c1 k1 IH]; intros [|c2 k2] Hf1 Hf2 Heq.
  - reflexivity.
  - cbn [hyphenate] in Heq. destruct (is_upper c2); discriminate.
  - cbn [hyphenate] in Heq. destruct (is_upper c1); discriminate.
  - cbn [hyphen_free] in Hf1, Hf2.
    apply andb_prop in Hf1 as [Hc1 Hf1]. apply andb_prop in Hf2 as [Hc2 Hf2].
    apply negb_true_iff in Hc1, Hc2.
    apply Ascii.eqb_neq in Hc1, Hc2.
    cbn [hyphenate] in Heq.
    destruct (is_upper c1) eqn:Hu1, (is_upper c2) eqn:Hu2.
    + injection Heq as Hlow Hrest.
      rewrite (to_lower_upper_inj c1 c2 Hu1 Hu2 Hlow).
      rewrite (IH k2 Hf1 Hf2 Hrest). reflexivity.
    + injection Heq as Hc _. congruence.
    + injection Heq as Hc _. congruence.
    + injection Heq as -> Hrest. rewrite (IH k2 Hf1 Hf2 Hrest). reflexivity.
Qed.

Lemma toDataKey_inj (k1 k2 : string) :
  hyphen_free k1 = true -> hyphen_free k2 = true ->
  toDataKey k1 = toDataKey k2 -> k1 = k2.
Proof.
  intros Hf1 Hf2 Heq. unfold toDataKey in Heq.
  cbv [String.append] in Heq. injection Heq as Heq.
  apply hyphenate_inj; assumption.
Qed.

Lemma toDataKey_upper_free (key : string) : upper_free (toDataKey key) = true.
Proof.
  unfold toDataKey. cbv [String.append].
  cbn [upper_free]. rewrite hyphenate_upper_free. reflexivity.
Qed.

(** The attribute name that [toDataKey] makes of a key never has an
    uppercase letter; a key without uppercase letters is kept as it is after
    [data-]; and keys without hyphens that differ get names that differ,
    where a key with a hyphen can share its name with another key. *)
Theorem toDataKey_faithful :
  (forall key, upper_free (toDataKey key) = true) /\
  (forall key, upper_free key = true -> toDataKey key = "data-" +:+ key) /\
  (forall k1 k2,
      hyphen_free k1 = true -> hyphen_free k2 = true ->
      toDataKey k1 = toDataKey k2 -> k1 = k2) /\
  (exists k1 k2, k1 <> k2 /\ toDataKey k1 = toDataKey k2).
Proof.
  split; [exact toDataKey_upper_free|]. split; [|split].
  - intros key Hfree. unfold toDataKey.
    rewrite (hyphenate_upper_free_id _ Hfree). reflexivity.
  - exact toDataKey_inj.
  - exists "aB", "a-b". split; [discriminate | reflexivity].
Qed.


(** A new element has no custom data.  For a name that [createElement]
    takes, [getData] on the element that [element] returns gives [null]
    where elements have no native dataset, and where they have one what the
    prototype chain of the dataset has under the key: [undefined] for a key
    that names nothing there.  A name that [createElement] refuses makes
    [element] throw. *)
Theorem getData_of_new_element (w : world) (tagName key : string) :
  (element_name_accepted tagName = true ->
   exists e w1,
     element tagName None w = Ok (e, w1) /\
     getData (NodeRef e) key w1
     = Ok (if new_dataset
           then match dataset_inherited key with
                | Some h => VObject h
                | None => VUndefined
                end
           else VNull, w1)) /\
  (element_name_accepted tagName = false ->
   element tagName None w = Throw (DOMException "InvalidCharacterError")).
Proof.
  split; intros Hname; unfold element, createElement; rewrite Hname;
    [|reflexivity].
  eexists. eexists. split; [reflexivity|].
  unfold getData, resolveNode, deref, dataset_get, getAttribute.
  unfold bind, ret, node_of, throw, new_element_node. cbn.
  repeat (rewrite lookup_insert_eq; cbn).
  destruct new_dataset; cbn;
    repeat (rewrite lookup_insert_eq; cbn); reflexivity.
Qed.

End DataKeys.

(** The keys [fooBar] and [fooBaz] have the attribute names [data-foo-bar]
    and [data-foo-baz]. *)
Lemma toDataKey_faithful_witness :
  Dom.toDataKey "foo" = "data-foo" /\ "fooBar" <> "fooBaz" /\
  Dom.toDataKey "fooBar" <> Dom.toDataKey "fooBaz".
Proof.
  destruct toDataKey_faithful as (_ & Hkeep & Hinj & _).
  split; [apply Hkeep; reflexivity|]. split; [discriminate|].
  intros Heq. apply Hinj in Heq; [discriminate | reflexivity | reflexivity].
Defined.


(** On the second engine, whose elements have the native dataset, the
    new [div] has nothing under [count], and under [toString] the method
    that every object inherits; the empty name is refused. *)
Lemma getData_of_new_element_witness :
  (exists e w1,
      Dom.element (H := Dom.Engine.host) "div" None Dom.Engine.tree
      = Ok (e, w1) /\
      Dom.getData (H := Dom.Engine.host) (Dom.NodeRef e) "count" w1
      = Ok (VUndefined, w1)) /\
  (exists e w1,
      Dom.element (H := Dom.Engine.host) "div" None Dom.Engine.tree
      = Ok (e, w1) /\
      Dom.getData (H := Dom.Engine.host) (Dom.NodeRef e) "toString" w1
      = Ok (VObject 1000%positive, w1)) /\
  Dom.element (H := Dom.Engine.host) "" None Dom.Engine.tree
  = Throw (DOMException "InvalidCharacterError").
Proof.
  split; [|split].
  - apply (proj1 (getData_of_new_element (H := Dom.Engine.host)
                    Dom.Engine.tree "div" "count")). reflexivity.
  - apply (proj1 (getData_of_new_element (H := Dom.Engine.host)
                    Dom.Engine.tree "div" "toString")). reflexivity.
  - apply (proj2 (getData_of_new_element (H := Dom.Engine.host)
                    Dom.Engine.tree "" "count")). reflexivity.
Defined.

(** ** Adding and removing classes twice *)

Section ClassTwice.

Import Dom JsString.
Context `{Dom.Host}.

Lemma with_nodes_same (w : world) (e : ref) (n : node) :
  nodes w !! e = Some n -> with_nodes w (<[e := n]> (nodes w)) = w.
Proof.
  intros Hn. rewrite insert_id by exact Hn. destruct w; reflexivity.
Qed.







End ClassTwice.


(** ** Names given as one string *)

Section NamesOfString.

Import Dom JsString Shape.

Lemma split_space_cons (s : string) : exists t ts, split_space s = t :: ts.
Proof.
  induction s as [|c s (t & ts & IH)]; [exists "", []; reflexivity|].
  cbn [split_space]. destruct (is_space c); [eexists; eexists; reflexivity|].
  rewrite IH. eexists; eexists; reflexivity.
Qed.

(** [resolveNames] leaves a list of names as it is, and splits a string at
    every single space: the names have no space in them, there is one more
    of them than the string has spaces (so that a space in front, at the
    end or after another space gives an empty name), and joined by single
    spaces they give the string back. *)
Theorem resolveNames_splits_at_each_space :
  (forall l : list string, resolveNames (inr l) = l) /\
  (forall s : string,
      join_space (resolveNames (inl s)) = s /\
      Forall (fun name => space_free name = true) (resolveNames (inl s)) /\
      length (resolveNames (inl s)) = S (spaces s)).
Proof.
  split; [reflexivity|]. intros s. cbn [resolveNames].
  induction s as [|c s (Hjoin & Hfree & Hlen)].
  - split; [reflexivity|]. split; [repeat constructor | reflexivity].
  - cbn [split_space spaces].
    destruct (split_space_cons s) as (t & ts & Hsplit).
    rewrite Hsplit in *. destruct (is_space c) eqn:Hc.
    + split; [|split].
      * rewrite join_space_cons by discriminate. rewrite Hjoin.
        apply Ascii.eqb_eq in Hc. subst c. reflexivity.
      * constructor; [reflexivity | exact Hfree].
      * cbn [length] in *. rewrite Hlen. reflexivity.
    + split; [|split].
      * rewrite join_space_push, Hjoin. reflexivity.
      * apply Forall_cons in Hfree as [Ht Hts].
        constructor; [|exact Hts]. cbn [space_free]. rewrite Hc, Ht.
        reflexivity.
      * cbn [length] in *. exact Hlen.
Qed.

End NamesOfString.

(** ** The names read from a class attribute *)

Section ClassNamesShape.

Import Dom JsString Shape.
Context `{Dom.Host}.

(** [getClassNames] reads from a class attribute that is missing or blank
    the one empty name, and from any other attribute names that are not
    empty and have no space in them.  So, without the native class list,
    the empty name is a class of an element whose class attribute is
    blank. *)
Theorem getClassNames_shape (w : world) (e : ref) (n : node) :
  nodes w !! e = Some n -> nodeType n = 1 ->
  exists names,
    getClassNames e w = Ok (names, w) /\
    (trim (default "" (attributes n !! "class")) = "" ->
     names = [""] /\
     (classList n = None -> hasClass (NodeRef e) (inl "") w = Ok (true, w))) /\
    (trim (default "" (attributes n !! "class")) <> "" ->
     Forall plain_name names).
Proof.
  intros Hn Hty. exists (class_names n).
  split; [apply (getClassNames_run _ _ _ Hn Hty)|].
  destruct (split_spaces_trim (default "" (attributes n !! "class")))
    as [Hblank Hnames].
  split; [|exact Hnames].
  intros Hempty. split; [exact (Hblank Hempty)|].
  intros Hcl. rewrite (hasClass_fallback_run _ _ _ _ Hn Hty Hcl).
  unfold class_names. rewrite (Hblank Hempty). reflexivity.
Qed.

End ClassNamesShape.

(** The [div] of the sample page has the class attribute [foo bar]. *)
Lemma getClassNames_shape_witness :
  Dom.getClassNames 2%positive Dom.Sample.page
  = Ok (["foo"; "bar"], Dom.Sample.page).
Proof.
  destruct (getClassNames_shape (H := Dom.Sample.host) Dom.Sample.page
              2%positive _ eq_refl eq_refl) as (names & Hrun & _ & _).
  rewrite Hrun. vm_compute in Hrun. injection Hrun as <-. reflexivity.
Defined.

(** ** Putting a node in its place *)

Section Placement.

Import Dom.
Context `{Dom.Host}.

Lemma splice_at_first (c b : ref) (l1 l2 : list ref) :
  b ∉ l1 -> splice_at [c] b (l1 ++ b :: l2) = l1 ++ c :: b :: l2.
Proof.
  induction l1 as [|x l1 IH]; intros Hout; cbn [app splice_at].
  - rewrite Pos.eqb_refl. reflexivity.
  - apply not_elem_of_cons in Hout as [Hne Hout].
    rewrite (proj2 (Pos.eqb_neq x b)) by congruence.
    rewrite (IH Hout). reflexivity.
Qed.

Lemma next_after_first (t : ref) (l1 l2 : list ref) :
  t ∉ l1 -> next_after t (l1 ++ t :: l2) = head l2.
Proof.
  induction l1 as [|x l1 IH]; intros Hout; cbn [app next_after].
  - rewrite Pos.eqb_refl. reflexivity.
  - apply not_elem_of_cons in Hout as [Hne Hout].
    rewrite (proj2 (Pos.eqb_neq x t)) by congruence.
    exact (IH Hout).
Qed.

Lemma takes_parent (tp tc : Z) :
  takes tp tc -> ((tp =? 1) || (tp =? 9) || (tp =? 11)) = true.
Proof. intros [[[->| ->] _]|[-> _]]; reflexivity. Qed.

Lemma takes_admits (ns : gmap ref node) (p n : node) (before : option ref) :
  takes (nodeType p) (nodeType n) -> admits ns p n before = true.
Proof.
  intros [[Hp Hn]|[Hp Hn]]; [apply admits_plain; assumption|].
  unfold admits, document_admits. rewrite Hp.
  destruct Hn as [-> | ->]; reflexivity.
Qed.

Lemma takes_no_fragment (tp tc : Z) : takes tp tc -> (tc =? 11) = false.
Proof.
  intros [[_ [->|Hdata]]|[_ [->| ->]]]; try reflexivity.
  destruct (Z.eqb_spec tc 11) as [->|_]; [discriminate Hdata | reflexivity].
Qed.

(** [insertBefore] of a node without parent. *)
Lemma insertBefore_loose (w : world) (p c : ref) (before : option ref) :
  insertable w p c ->
  (forall b, before = Some b -> children_of w p [b]) ->
  exists w' pn,
    insertBefore p c before w = Ok (c, w') /\
    nodes w !! p = Some pn /\
    placed w w' p c (splice_before [c] before (childNodes pn)).
Proof.
  intros ((pn & cn & Hp & Hc & Hloose & Hkind) & Hanc) Hbefore.
  assert (Hcp : c <> p).
  { intros ->. destruct (size (nodes w)); cbn in Hanc;
      rewrite Pos.eqb_refl in Hanc; discriminate. }
  exists (with_nodes w
            (<[p := set_childNodes
                      (splice_before [c] before (childNodes pn)) pn]>
               (<[c := set_parentNode (Some p) cn]> (nodes w)))), pn.
  split; [|split; [exact Hp|]].
  - unfold insertBefore.
    rewrite (bind_ok _ _ _ _ _ (node_of_ok _ _ _ Hp)).
    rewrite (takes_parent _ _ Hkind). cbn [negb].
    rewrite (bind_ok _ _ _ _ _ (node_of_ok _ _ _ Hc)).
    unfold bind at 1. rewrite Hanc.
    assert (Hok : (match before with
                   | Some b =>
                       bind (node_of b)
                         (fun bn =>
                            ret (bool_decide (parentNode bn = Some p)))
                   | None => ret true
                   end) w = Ok (true, w)).
    { destruct before as [b|]; [|reflexivity].
      destruct (Hbefore b eq_refl b) as (bn & Hb & Hpb);
        [apply list_elem_of_singleton; reflexivity|].
      rewrite (bind_ok _ _ _ _ _ (node_of_ok _ _ _ Hb)). unfold ret.
      rewrite bool_decide_eq_true_2 by exact Hpb. reflexivity. }
    rewrite (bind_ok _ _ _ _ _ Hok). cbn [negb].
    unfold bind at 1. rewrite (takes_admits _ _ _ _ Hkind). cbn [negb].
    assert (Hself : bool_decide (before = Some c) = false).
    { apply bool_decide_eq_false_2. intros ->.
      destruct (Hbefore c eq_refl c) as (bn & Hb & Hpb);
        [apply list_elem_of_singleton; reflexivity|].
      congruence. }
    rewrite Hself. unfold bind at 1. unfold ret at 1.
    rewrite (takes_no_fragment _ _ Hkind).
    cbn [forEach]. unfold detach.
    unfold bind at 1. unfold bind at 1. unfold bind at 1.
    rewrite (node_of_ok _ _ _ Hc). rewrite Hloose.
    unfold ret at 1. unfold ret at 1.
    unfold bind at 1. unfold ret at 1.
    unfold bind at 1. unfold bind at 1.
    rewrite (update_node_ok _ _ _ _ Hc). unfold ret at 1.
    unfold bind at 1. unfold update_node. cbn [nodes with_nodes].
    rewrite lookup_insert_ne by congruence. rewrite Hp. reflexivity.
  - unfold placed. cbn [nodes with_nodes next_ref document docRange
                          nodeFactory attr_writes].
    split; [exists pn; split; [exact Hp | apply lookup_insert_eq]|].
    split.
    + exists cn. split; [exact Hc|].
      rewrite lookup_insert_ne by congruence. apply lookup_insert_eq.
    + split; [|repeat split].
      intros k Hkp Hkc. rewrite !lookup_insert_ne by congruence. reflexivity.
Qed.

Lemma append_prepend_placed (w : world) (p c : ref) (pn : node) :
  insertable w p c ->
  nodes w !! p = Some pn ->
  children_of w p (childNodes pn) ->
  (exists w',
      append (NodeRef p) (NodeArg c) w = Ok (Some p, w') /\
      placed w w' p c (childNodes pn ++ [c])) /\
  (exists w',
      prepend (NodeRef p) (NodeArg c) w = Ok (Some p, w') /\
      placed w w' p c (c :: childNodes pn)).
Proof.
  intros Hins Hp Hkids. split.
  - destruct (insertBefore_loose w p c None Hins) as (w' & pn' & Hrun & Hp' & Hplaced);
      [discriminate|].
    assert (pn' = pn) as -> by congruence.
    exists w'. split; [|exact Hplaced].
    unfold append, resolveNode, deref, appendChild.
    unfold bind at 1. unfold ret at 1. unfold bind at 1. unfold ret at 1.
    unfold bind at 1. unfold bind at 1. rewrite Hrun. reflexivity.
  - destruct (childNodes pn) as [|first rest] eqn:Hlist.
    + destruct (insertBefore_loose w p c None Hins)
        as (w' & pn' & Hrun & Hp' & Hplaced); [discriminate|].
      assert (pn' = pn) as -> by congruence.
      exists w'. split; [|rewrite Hlist in Hplaced; exact Hplaced].
      unfold prepend, resolveNode, deref, appendChild, firstChild.
      unfold bind at 1. unfold ret at 1. unfold bind at 1. unfold ret at 1.
      unfold bind at 1. unfold bind at 1.
      rewrite (bind_ok _ _ _ _ _ (node_of_ok _ _ _ Hp)). rewrite Hlist.
      unfold ret at 1. cbn [head]. unfold bind at 1. rewrite Hrun.
      reflexivity.
    + destruct (insertBefore_loose w p c (Some first) Hins)
        as (w' & pn' & Hrun & Hp' & Hplaced).
      { intros b [= <-] k Hk. apply list_elem_of_singleton in Hk. subst k.
        apply Hkids. apply elem_of_cons. auto. }
      assert (pn' = pn) as -> by congruence.
      exists w'. split.
      * unfold prepend, resolveNode, deref, firstChild.
        unfold bind at 1. unfold ret at 1. unfold bind at 1. unfold ret at 1.
        unfold bind at 1. unfold bind at 1.
        rewrite (bind_ok _ _ _ _ _ (node_of_ok _ _ _ Hp)). rewrite Hlist.
        unfold ret at 1. cbn [head]. unfold bind at 1. rewrite Hrun.
        reflexivity.
      * rewrite Hlist in Hplaced. cbn [splice_before splice_at] in Hplaced.
        rewrite Pos.eqb_refl in Hplaced. exact Hplaced.
Qed.

Lemma before_after_placed (w : world) (p t c : ref) (pn tn : node)
  (l1 l2 : list ref) :
  insertable w p c ->
  nodes w !! p = Some pn ->
  nodes w !! t = Some tn -> parentNode tn = Some p ->
  childNodes pn = l1 ++ t :: l2 -> NoDup (childNodes pn) ->
  children_of w p (childNodes pn) ->
  (exists w',
      before (NodeRef t) (NodeArg c) w = Ok (Some t, w') /\
      placed w w' p c (l1 ++ c :: t :: l2)) /\
  (exists w',
      after (NodeRef t) (NodeArg c) w = Ok (Some t, w') /\
      placed w w' p c (l1 ++ t :: c :: l2)).
Proof.
  intros Hins Hp Ht Hparent Hlist Hnd Hkids.
  assert (Hout : t ∉ l1).
  { rewrite Hlist in Hnd. apply NoDup_app in Hnd as (_ & Hsep & _).
    intros Hin. apply (Hsep t Hin). apply elem_of_cons. auto. }
  split.
  - destruct (insertBefore_loose w p c (Some t) Hins)
      as (w' & pn' & Hrun & Hp' & Hplaced).
    { intros b [= <-] k Hk. apply list_elem_of_singleton in Hk. subst k.
      exists tn. auto. }
    assert (pn' = pn) as -> by congruence.
    exists w'. split.
    + unfold before, resolveNode, deref, get_parentNode.
      unfold bind at 1. unfold ret at 1. unfold bind at 1. unfold ret at 1.
      unfold bind at 1. unfold bind at 1.
      rewrite (bind_ok _ _ _ _ _ (node_of_ok _ _ _ Ht)). rewrite Hparent.
      unfold ret at 1. unfold bind at 1. unfold ret at 1.
      unfold bind at 1. rewrite Hrun. reflexivity.
    + rewrite Hlist in Hplaced. cbn [splice_before] in Hplaced.
      rewrite (splice_at_first _ _ _ _ Hout) in Hplaced. exact Hplaced.
  - assert (Hnext : nextSibling t w = Ok (head l2, w)).
    { unfold nextSibling.
      rewrite (bind_ok _ _ _ _ _ (node_of_ok _ _ _ Ht)). rewrite Hparent.
      rewrite (bind_ok _ _ _ _ _ (node_of_ok _ _ _ Hp)). rewrite Hlist.
      rewrite (next_after_first _ _ _ Hout). reflexivity. }
    destruct l2 as [|x l2].
    + destruct (insertBefore_loose w p c None Hins)
        as (w' & pn' & Hrun & Hp' & Hplaced); [discriminate|].
      assert (pn' = pn) as -> by congruence.
      exists w'. split.
      * unfold after, resolveNode, deref, get_parentNode, appendChild.
        unfold bind at 1. unfold ret at 1. unfold bind at 1. unfold ret at 1.
        unfold bind at 1. unfold bind at 1.
        rewrite (bind_ok _ _ _ _ _ (node_of_ok _ _ _ Ht)). rewrite Hparent.
        unfold ret at 1. rewrite (bind_ok _ _ _ _ _ Hnext).
        unfold bind at 1. unfold ret at 1. cbn [head].
        unfold bind at 1. rewrite Hrun. reflexivity.
      * rewrite Hlist in Hplaced. cbn [splice_before] in Hplaced.
        rewrite <- app_assoc in Hplaced. exact Hplaced.
    + destruct (insertBefore_loose w p c (Some x) Hins)
        as (w' & pn' & Hrun & Hp' & Hplaced).
      { intros b [= <-] k Hk. apply list_elem_of_singleton in Hk. subst k.
        apply Hkids. rewrite Hlist. apply elem_of_app. right.
        apply elem_of_cons. right. apply elem_of_cons. auto. }
      assert (pn' = pn) as -> by congruence.
      exists w'. split.
      * unfold after, resolveNode, deref, get_parentNode.
        unfold bind at 1. unfold ret at 1. unfold bind at 1. unfold ret at 1.
        unfold bind at 1. unfold bind at 1.
        rewrite (bind_ok _ _ _ _ _ (node_of_ok _ _ _ Ht)). rewrite Hparent.
        unfold ret at 1. rewrite (bind_ok _ _ _ _ _ Hnext).
        unfold bind at 1. unfold ret at 1. cbn [head].
        unfold bind at 1. rewrite Hrun. reflexivity.
      * rewrite Hlist in Hplaced. cbn [splice_before] in Hplaced.
        replace (l1 ++ t :: x :: l2) with ((l1 ++ [t]) ++ x :: l2) in Hplaced
          by (rewrite <- app_assoc; reflexivity).
        rewrite splice_at_first in Hplaced.
        -- rewrite <- app_assoc in Hplaced. exact Hplaced.
        -- rewrite Hlist in Hnd.
           replace (l1 ++ t :: x :: l2) with ((l1 ++ [t]) ++ x :: l2) in Hnd
             by (rewrite <- app_assoc; reflexivity).
           apply NoDup_app in Hnd as (_ & Hsep & _).
           intros Hin. apply (Hsep x Hin). apply elem_of_cons. auto.
Qed.

(** [append] puts a node without parent after the children of the parent,
    and [prepend] puts it before them, where the parent takes the kind of the
    node (an element or a fragment takes elements and character data, a
    document takes comments and processing instructions); both return the
    parent, and nothing else changes. *)
Theorem append_prepend_place (w : world) (p c : ref) (pn : node) :
  insertable w p c ->
  nodes w !! p = Some pn ->
  children_of w p (childNodes pn) ->
  (exists w',
      append (NodeRef p) (NodeArg c) w = Ok (Some p, w') /\
      placed w w' p c (childNodes pn ++ [c])) /\
  (exists w',
      prepend (NodeRef p) (NodeArg c) w = Ok (Some p, w') /\
      placed w w' p c (c :: childNodes pn)).
Proof. apply append_prepend_placed. Qed.

(** [before] puts a node without parent just before the target among the
    children of the parent of the target, and [after] just after it, where
    that parent takes the kind of the node (an element or a fragment takes
    elements and character data, a document takes comments and processing
    instructions); both return the target, and nothing else changes. *)
Theorem before_after_place (w : world) (p t c : ref) (pn tn : node)
  (l1 l2 : list ref) :
  insertable w p c ->
  nodes w !! p = Some pn ->
  nodes w !! t = Some tn -> parentNode tn = Some p ->
  childNodes pn = l1 ++ t :: l2 -> NoDup (childNodes pn) ->
  children_of w p (childNodes pn) ->
  (exists w',
      before (NodeRef t) (NodeArg c) w = Ok (Some t, w') /\
      placed w w' p c (l1 ++ c :: t :: l2)) /\
  (exists w',
      after (NodeRef t) (NodeArg c) w = Ok (Some t, w') /\
      placed w w' p c (l1 ++ t :: c :: l2)).
Proof. apply before_after_placed. Qed.

(** [before] and [after] with a node need a target that has a parent: on
    a target without one they throw a [TypeError]. *)
Theorem before_after_need_parent (w : world) (t c : ref) (tn : node) :
  nodes w !! t = Some tn -> parentNode tn = None ->
  before (NodeRef t) (NodeArg c) w = Throw TypeError /\
  after (NodeRef t) (NodeArg c) w = Throw TypeError.
Proof.
  intros Ht Hloose. split.
  - unfold before, resolveNode, deref, get_parentNode.
    unfold bind at 1. unfold ret at 1. unfold bind at 1. unfold ret at 1.
    unfold bind at 1. unfold bind at 1.
    rewrite (bind_ok _ _ _ _ _ (node_of_ok _ _ _ Ht)). rewrite Hloose.
    reflexivity.
  - unfold after, resolveNode, deref, get_parentNode, nextSibling.
    unfold bind at 1. unfold ret at 1. unfold bind at 1. unfold ret at 1.
    unfold bind at 1. unfold bind at 1.
    rewrite (bind_ok _ _ _ _ _ (node_of_ok _ _ _ Ht)). rewrite Hloose.
    unfold ret at 1. unfold bind at 1.
    rewrite (bind_ok _ _ _ _ _ (node_of_ok _ _ _ Ht)).
    rewrite Hloose. reflexivity.
Qed.

End Placement.

(** In the tree of the second engine the detached paragraph (7) is put
    after, and before, the three children of the [div] (3). *)
Lemma append_prepend_place_witness :
  (exists w' d,
      Dom.append (H := Dom.Engine.host) (Dom.NodeRef 3%positive)
        (Dom.NodeArg 7%positive) Dom.Engine.tree = Ok (Some 3%positive, w') /\
      Dom.nodes w' !! 3%positive = Some d /\
      Dom.childNodes d = [4%positive; 5%positive; 6%positive; 7%positive]) /\
  (exists w' d,
      Dom.prepend (H := Dom.Engine.host) (Dom.NodeRef 3%positive)
        (Dom.NodeArg 7%positive) Dom.Engine.tree = Ok (Some 3%positive, w') /\
      Dom.nodes w' !! 3%positive = Some d /\
      Dom.childNodes d = [7%positive; 4%positive; 5%positive; 6%positive]).
Proof.
  destruct (append_prepend_place (H := Dom.Engine.host) Dom.Engine.tree
              3%positive 7%positive
              (Dom.Engine.element_node "div" (Some 2%positive)
                 [4%positive; 5%positive; 6%positive]))
    as [Happend Hprepend].
  - split; [|vm_compute; reflexivity].
    eexists. eexists. split; [reflexivity|]. split; [reflexivity|].
    split; [reflexivity|]. left. split; left; reflexivity.
  - reflexivity.
  - intros k Hk. apply list_elem_of_In in Hk. simpl in Hk.
    destruct Hk as [<-|[<-|[<-|[]]]]; eexists; split; reflexivity.
  - split.
    + destruct Happend as (w' & Hrun & (pn & Hp & Hp') & _).
      exists w'. eexists. split; [exact Hrun|]. split; [exact Hp'|].
      injection Hp as <-. reflexivity.
    + destruct Hprepend as (w' & Hrun & (pn & Hp & Hp') & _).
      exists w'. eexists. split; [exact Hrun|]. split; [exact Hp'|].
      injection Hp as <-. reflexivity.
Defined.

(** The detached paragraph (7) is put just before, and just after, the
    text (5) that lies between the [span] (4) and the [em] (6). *)
Lemma before_after_place_witness :
  (exists w' d,
      Dom.before (H := Dom.Engine.host) (Dom.NodeRef 5%positive)
        (Dom.NodeArg 7%positive) Dom.Engine.tree = Ok (Some 5%positive, w') /\
      Dom.nodes w' !! 3%positive = Some d /\
      Dom.childNodes d = [4%positive; 7%positive; 5%positive; 6%positive]) /\
  (exists w' d,
      Dom.after (H := Dom.Engine.host) (Dom.NodeRef 5%positive)
        (Dom.NodeArg 7%positive) Dom.Engine.tree = Ok (Some 5%positive, w') /\
      Dom.nodes w' !! 3%positive = Some d /\
      Dom.childNodes d = [4%positive; 5%positive; 7%positive; 6%positive]).
Proof.
  destruct (before_after_place (H := Dom.Engine.host) Dom.Engine.tree
              3%positive 5%positive 7%positive
              (Dom.Engine.element_node "div" (Some 2%positive)
                 [4%positive; 5%positive; 6%positive])
              (Dom.blank 3 "#text" "x" (Some 3%positive))
              [4%positive] [6%positive])
    as [Hbefore Hafter].
  - split; [|vm_compute; reflexivity].
    eexists. eexists. split; [reflexivity|]. split; [reflexivity|].
    split; [reflexivity|]. left. split; left; reflexivity.
  - reflexivity.
  - reflexivity.
  - reflexivity.
  - reflexivity.
  - apply (bool_decide_unpack _). vm_compute. exact I.
  - intros k Hk. apply list_elem_of_In in Hk. simpl in Hk.
    destruct Hk as [<-|[<-|[<-|[]]]]; eexists; split; reflexivity.
  - split.
    + destruct Hbefore as (w' & Hrun & (pn & Hp & Hp') & _).
      exists w'. eexists. split; [exact Hrun|]. split; [exact Hp'|].
      reflexivity.
    + destruct Hafter as (w' & Hrun & (pn & Hp & Hp') & _).
      exists w'. eexists. split; [exact Hrun|]. split; [exact Hp'|].
      reflexivity.
Defined.

(** The paragraph (7) has no parent: nothing can be put before or after
    it. *)
Lemma before_after_need_parent_witness :
  Dom.before (H := Dom.Engine.host) (Dom.NodeRef 7%positive)
    (Dom.NodeArg 8%positive) Dom.Engine.tree = Throw TypeError /\
  Dom.after (H := Dom.Engine.host) (Dom.NodeRef 7%positive)
    (Dom.NodeArg 8%positive) Dom.Engine.tree = Throw TypeError.
Proof.
  apply (before_after_need_parent (H := Dom.Engine.host) Dom.Engine.tree
           7%positive 8%positive _ eq_refl eq_refl).
Defined.

(** ** Visiting the element children *)

Section EachSnapshot.

Import Dom.
Context `{Dom.Host}.
Local Open Scope dom_scope.

Lemma filter_same_on {A} (P Q : A -> Prop) `{!forall x, Decision (P x)}
  `{!forall x, Decision (Q x)} (l : list A) :
  (forall x, x ∈ l -> (P x <-> Q x)) -> filter P l = filter Q l.
Proof.
  induction l as [|x l IH]; intros Hsame; [reflexivity|].
  assert (Hx : P x <-> Q x) by (apply Hsame, elem_of_cons; auto).
  assert (Hl : filter P l = filter Q l).
  { apply IH. intros y Hy. apply Hsame, elem_of_cons. auto. }
  destruct (decide (P x)) as [HP|HP].
  - rewrite (filter_cons_True P) by exact HP.
    rewrite (filter_cons_True Q) by (apply Hx, HP). rewrite Hl. reflexivity.
  - rewrite (filter_cons_False P) by exact HP.
    rewrite (filter_cons_False Q) by (intros HQ; apply HP, Hx, HQ).
    exact Hl.
Qed.

(** [remove] of a child of [p]. *)
Lemma remove_child (w : world) (p k : ref) (pn kn : node) :
  nodes w !! k = Some kn -> parentNode kn = Some p ->
  nodes w !! p = Some pn -> p <> k ->
  remove (NodeRef k) w =
  Ok (Some k,
      with_nodes w
        (<[k := set_parentNode None kn]>
           (<[p := set_childNodes (without k (childNodes pn)) pn]>
              (nodes w)))).
Proof.
  intros Hk Hparent Hp Hne.
  unfold remove, resolveNode, deref, get_parentNode.
  unfold bind at 1. unfold ret at 1. unfold bind at 1. unfold ret at 1.
  rewrite (bind_ok _ _ _ _ _ (bind_ok _ _ _ _ _ (node_of_ok _ _ _ Hk))).
  rewrite Hparent. unfold removeChild.
  unfold bind at 1. unfold bind at 1. unfold bind at 1.
  rewrite (node_of_ok _ _ _ Hk). rewrite Hparent.
  rewrite bool_decide_eq_true_2 by reflexivity.
  unfold bind at 1.
  rewrite (detach_ok _ _ _ _ _ Hk Hparent Hp Hne). reflexivity.
Qed.

(** Removing, one after the other, children of [p] that are listed once. *)
Lemma remove_each (p : ref) (els : list ref) :
  forall (w : world) (pn : node),
    nodes w !! p = Some pn -> NoDup els -> p ∉ els ->
    children_of w p els ->
    exists w',
      forEach els (fun element => exec remove (NodeRef element); ret tt) w
      = Ok (tt, w') /\
      nodes w' !! p
      = Some (set_childNodes (filter (fun x => x ∉ els) (childNodes pn)) pn) /\
      (forall k kn, k ∈ els -> nodes w !! k = Some kn ->
                    nodes w' !! k = Some (set_parentNode None kn)) /\
      (forall k, k <> p -> k ∉ els -> nodes w' !! k = nodes w !! k) /\
      next_ref w' = next_ref w /\ document w' = document w /\
      docRange w' = docRange w /\ nodeFactory w' = nodeFactory w /\
      attr_writes w' = attr_writes w.
Proof.
  induction els as [|k els IH]; intros w pn Hp Hnd Hout Hkids.
  - exists w. split; [reflexivity|]. split.
    + assert (Hall : filter (fun x : ref => x ∉ []) (childNodes pn)
                     = childNodes pn).
      { induction (childNodes pn) as [|x l IHl]; [reflexivity|].
        rewrite filter_cons_True by apply not_elem_of_nil.
        rewrite IHl. reflexivity. }
      rewrite Hall, Hp. destruct pn; reflexivity.
    + split; [intros k kn Hk; apply elem_of_nil in Hk; contradiction|].
      repeat split.
  - apply NoDup_cons in Hnd as [Hk_out Hnd].
    apply not_elem_of_cons in Hout as [Hpk Hout].
    destruct (Hkids k) as (kn & Hk & Hparent); [apply elem_of_cons; auto|].
    pose proof (remove_child w p k pn kn Hk Hparent Hp Hpk) as Hrun.
    set (w1 := with_nodes w
                 (<[k := set_parentNode None kn]>
                    (<[p := set_childNodes (without k (childNodes pn)) pn]>
                       (nodes w)))) in *.
    assert (Hp1 : nodes w1 !! p
                  = Some (set_childNodes (without k (childNodes pn)) pn)).
    { cbn. rewrite lookup_insert_ne by congruence. apply lookup_insert_eq. }
    assert (Hkeep1 : forall x, x <> p -> x <> k ->
                               nodes w1 !! x = nodes w !! x).
    { intros x Hxp Hxk. cbn. rewrite !lookup_insert_ne by congruence.
      reflexivity. }
    destruct (IH w1 _ Hp1 Hnd Hout) as
      (w' & Hloop & Hp' & Hgone & Hkeep & Hrest).
    { intros x Hx. destruct (Hkids x) as (xn & Hxn & Hxp);
        [apply elem_of_cons; auto|].
      exists xn. split; [|exact Hxp].
      rewrite Hkeep1; [exact Hxn | | ]; intros ->; contradiction. }
    exists w'. split; [|split; [|split; [|split]]].
    + cbn [forEach]. unfold bind at 1. unfold bind at 1. rewrite Hrun.
      exact Hloop.
    + rewrite Hp'. f_equal.
      transitivity (set_childNodes
                      (filter (fun x => x ∉ els) (without k (childNodes pn)))
                      pn); [reflexivity|].
      f_equal. unfold without.
      rewrite list_filter_filter. apply list_filter_iff. intros x.
      rewrite not_elem_of_cons. tauto.
    + intros x xn Hx Hxn. apply elem_of_cons in Hx as [->|Hx].
      * rewrite Hkeep by congruence. cbn. rewrite Hk in Hxn.
        injection Hxn as <-. apply lookup_insert_eq.
      * apply Hgone; [exact Hx|].
        rewrite Hkeep1; [exact Hxn | | ]; intros ->; contradiction.
    + intros x Hxp Hx. apply not_elem_of_cons in Hx as [Hxk Hx].
      rewrite Hkeep by assumption. apply Hkeep1; assumption.
    + exact Hrest.
Qed.

(** [each] visits the element children of an element, a document or a
    fragment as they were when it was called: with [remove] as the callback,
    every element child is removed, the children that are no elements stay,
    in their order, and [each] returns the parent.  On a node of another
    kind, which has no [children], [each] throws a [TypeError] whatever the
    callback. *)
Theorem each_remove_snapshot (w : world) (p : ref) (pn : node) :
  nodes w !! p = Some pn ->
  (nodeType pn <> 1 -> nodeType pn <> 9 -> nodeType pn <> 11 ->
   forall callback, each (NodeRef p) callback w = Throw TypeError) /\
  (nodeType pn = 1 \/ nodeType pn = 9 \/ nodeType pn = 11 ->
   NoDup (childNodes pn) -> p ∉ childNodes pn ->
   children_of w p (childNodes pn) ->
   exists w',
     each (NodeRef p) (fun _ element => exec remove (NodeRef element); ret tt) w
     = Ok (Some p, w') /\
     nodes w' !! p
     = Some (set_childNodes
               (filter (fun k => is_element (nodes w) k = false) (childNodes pn))
               pn) /\
     (forall k kn,
         k ∈ childNodes pn -> nodes w !! k = Some kn -> nodeType kn = 1 ->
         nodes w' !! k = Some (set_parentNode None kn)) /\
     (forall k,
         k <> p -> k ∉ childNodes pn \/ is_element (nodes w) k = false ->
         nodes w' !! k = nodes w !! k)).
Proof.
  intros Hp. split.
  - intros H1 H9 H11 callback. unfold each, resolveNode, deref, children.
    unfold bind at 1. unfold ret at 1. unfold bind at 1. unfold ret at 1.
    unfold bind at 1. rewrite Hp.
    destruct (Z.eqb_spec (nodeType pn) 1); [contradiction|].
    destruct (Z.eqb_spec (nodeType pn) 9); [contradiction|].
    destruct (Z.eqb_spec (nodeType pn) 11); [contradiction|].
    reflexivity.
  - intros Hkind Hnd Hout Hkids.
    set (els := filter (fun k => is_element (nodes w) k = true) (childNodes pn)).
    assert (Hels : forall k, k ∈ els <->
                             is_element (nodes w) k = true /\ k ∈ childNodes pn).
    { intros k. unfold els.
      apply (list_elem_of_filter (fun k => is_element (nodes w) k = true)). }
    destruct (remove_each p els w pn Hp) as (w' & Hloop & Hp' & Hgone & Hkeep & _).
    { apply NoDup_filter, Hnd. }
    { intros Hin. apply Hels in Hin as [_ Hin]. contradiction. }
    { intros k Hk. apply Hkids. apply Hels in Hk as [_ Hk]. exact Hk. }
    exists w'. split; [|split; [|split]].
    + unfold each, resolveNode, deref, children.
      unfold bind at 1. unfold ret at 1. unfold bind at 1. unfold ret at 1.
      unfold bind at 1. rewrite Hp.
      replace ((nodeType pn =? 1) || (nodeType pn =? 9) || (nodeType pn =? 11))
        with true by (destruct Hkind as [->|[->| ->]]; reflexivity).
      fold els. unfold bind at 1. rewrite Hloop. reflexivity.
    + rewrite Hp'. f_equal. f_equal. apply filter_same_on. intros k Hk.
      rewrite Hels. destruct (is_element (nodes w) k); intuition congruence.
    + intros k kn Hk Hkn Hty. apply Hgone; [|exact Hkn].
      apply Hels. split; [|exact Hk]. unfold is_element. rewrite Hkn.
      apply Z.eqb_eq, Hty.
    + intros k Hkp Hk. apply Hkeep; [exact Hkp|].
      rewrite Hels. destruct Hk as [Hk|Hk]; [tauto|].
      rewrite Hk. intros [Habs _]. discriminate.
Qed.

End EachSnapshot.

(** In the tree of the second engine the [div] (3) holds a [span], a text
    and an [em]: after [each] with [remove] only the text (5) is left.  On
    the text (5) itself, [each] throws. *)
Lemma each_remove_snapshot_witness :
  (exists w' d,
      Dom.each (H := Dom.Engine.host) (Dom.NodeRef 3%positive)
        (fun _ element =>
           Dom.bind (Dom.remove (H := Dom.Engine.host) (Dom.NodeRef element))
             (fun _ => Dom.ret tt))
        Dom.Engine.tree = Ok (Some 3%positive, w') /\
      Dom.nodes w' !! 3%positive = Some d /\
      Dom.childNodes d = [5%positive]) /\
  Dom.each (H := Dom.Engine.host) (Dom.NodeRef 5%positive)
    (fun _ _ => Dom.ret tt) Dom.Engine.tree = Throw TypeError.
Proof.
  split.
  - destruct (each_remove_snapshot (H := Dom.Engine.host) Dom.Engine.tree
                3%positive
                (Dom.Engine.element_node "div" (Some 2%positive)
                   [4%positive; 5%positive; 6%positive]) eq_refl)
      as [_ Hvisit].
    destruct Hvisit as (w' & Hrun & Hp' & _).
    + left. reflexivity.
    + apply (bool_decide_unpack _). vm_compute. exact I.
    + apply (bool_decide_unpack _). vm_compute. exact I.
    + intros k Hk. apply list_elem_of_In in Hk. simpl in Hk.
      destruct Hk as [<-|[<-|[<-|[]]]]; eexists; split; reflexivity.
    + exists w'. eexists. split; [exact Hrun|]. split; [exact Hp'|].
      vm_compute. reflexivity.
  - destruct (each_remove_snapshot (H := Dom.Engine.host) Dom.Engine.tree
                5%positive (Dom.blank 3 "#text" "x" (Some 3%positive)) eq_refl)
      as [Hthrow _].
    apply Hthrow; discriminate.
Defined.

(** ** New nodes *)

Section NewNodes.

Import Dom.
Context `{Dom.Host}.

Variable content_of : ref -> value.
Variable importNode : ref -> bool -> M ref.

Lemma unused_next (w : world) : store_ok w -> nodes w !! next_ref w = None.
Proof.
  intros Hok. destruct (nodes w !! next_ref w) as [n|] eqn:Hn; [|reflexivity].
  specialize (Hok _ _ Hn). lia.
Qed.

Lemma fresh_alloc (w : world) (n : node) (kind : string) :
  store_ok w ->
  NodeType.getType (nodeType n) = VStr kind ->
  parentNode n = None -> childNodes n = [] ->
  exists w',
    alloc n w = Ok (next_ref w, w') /\
    fresh_node w w' (next_ref w) kind (nodeValue n).
Proof.
  intros Hok Hkind Hparent Hkids.
  destruct (alloc_spec n w) as (w' & Hrun & _ & Hext & Hok' & Hn).
  exists w'. split; [exact Hrun|].
  split; [apply unused_next, Hok|]. split; [exact Hext|].
  split; [exact (Hok' Hok)|]. exists n. repeat split; assumption.
Qed.

(** [text], [comment] and [element] return a node that was not there
    before: a text or a comment with the given data (empty when none is
    given), or, for a name that [createElement] takes, an element;
    [getType] calls it [text], [comment] or [element]; it has no parent, no
    children and, the element, no attributes, and nothing else has changed.
    A name that [createElement] refuses makes [element] throw. *)
Theorem creators_make_fresh_nodes (w : world) :
  store_ok w ->
  (forall data,
      exists r w',
        text data w = Ok (r, w') /\
        fresh_node w w' r "text" (default "" data)) /\
  (forall data,
      exists r w',
        comment data w = Ok (r, w') /\
        fresh_node w w' r "comment" (default "" data)) /\
  (forall tagName,
      element_name_accepted tagName = true ->
      exists r w' n,
        element tagName None w = Ok (r, w') /\
        fresh_node w w' r "element" "" /\
        nodes w' !! r = Some n /\ attributes n = ∅) /\
  (forall tagName,
      element_name_accepted tagName = false ->
      element tagName None w = Throw (DOMException "InvalidCharacterError")).
Proof.
  intros Hok. split; [|split; [|split]].
  - intros data.
    destruct (fresh_alloc w (blank 3 "#text" (default "" data) None) "text" Hok)
      as (w' & Hrun & Hfresh); try reflexivity.
    exists (next_ref w), w'. split; [exact Hrun | exact Hfresh].
  - intros data.
    destruct (fresh_alloc w (blank 8 "#comment" (default "" data) None)
                "comment" Hok)
      as (w' & Hrun & Hfresh); try reflexivity.
    exists (next_ref w), w'. split; [exact Hrun | exact Hfresh].
  - intros tagName Hname.
    set (name := if html_document then Shape.lowercase tagName else tagName).
    destruct (fresh_alloc w (new_element_node name [] None) "element" Hok)
      as (w' & Hrun & Hfresh); try reflexivity.
    exists (next_ref w), w', (new_element_node name [] None).
    split; [|split; [exact Hfresh|]].
    + unfold element, createElement. rewrite Hname. fold name.
      rewrite (bind_ok _ _ _ _ _ Hrun). reflexivity.
    + split; [|reflexivity].
      destruct Hfresh as (_ & _ & _ & n & Hn & _).
      destruct (alloc_spec (new_element_node name [] None) w)
        as (w2 & Hrun2 & _ & _ & _ & Hn2).
      rewrite Hrun in Hrun2. injection Hrun2 as <-. exact Hn2.
  - intros tagName Hname. unfold element, createElement. rewrite Hname.
    reflexivity.
Qed.

(** ** Fragments from templates *)

Lemma test_kind (tag : Z) (h : ref) (n : node) (w : world) :
  nodes w !! h = Some n ->
  test (NodeTest.nodeType_is tag) (VObject h) w = Ok (nodeType n =? tag, w).
Proof. intros Hn. unfold test. cbn. rewrite Hn. reflexivity. Qed.

(** [fragment] without a template, or with one that is falsy ([null],
    [false], [0], the empty string), returns a new fragment without
    children, parses nothing and leaves the two caches as they are. *)
Theorem fragment_of_nothing (w : world) (v : value) (fuel : nat) :
  store_ok w -> truthy v = false ->
  exists g w',
    fragment content_of importNode fuel (One v) w = Ok (g, w') /\
    fresh_node w w' g "fragment" "".
Proof.
  intros Hok Hfalsy.
  destruct (fresh_alloc w (blank 11 "#document-fragment" "" None) "fragment"
              Hok) as (w' & Hrun & Hfresh); try reflexivity.
  exists (next_ref w), w'. split; [|exact Hfresh].
  unfold fragment. rewrite Hfalsy. cbn [negb orb].
  destruct v as [| |b|n|s|h]; try exact Hrun; try discriminate Hfalsy.
  cbn [truthy] in Hfalsy. apply negb_false_iff in Hfalsy.
  apply String.eqb_eq in Hfalsy. subst s. exact Hrun.
Qed.

(** [fragment] of an element reads [content] of the element and tests it
    for a fragment: where the element has no [content] (it is [undefined]
    or [null], as for every element that is no template) the test throws a
    [TypeError]; where [content] is a fragment, the result is what
    [importNode] makes of it.  [fragment] of a fragment is what
    [cloneNode] makes of it. *)
Theorem fragment_of_element (w : world) (h : ref) (n : node) (fuel : nat) :
  nodes w !! h = Some n ->
  (nodeType n = 1 ->
   (content_of h = VUndefined \/ content_of h = VNull ->
    fragment content_of importNode fuel (One (VObject h)) w = Throw TypeError) /\
   (forall c cn,
       content_of h = VObject c -> nodes w !! c = Some cn ->
       nodeType cn = 11 ->
       fragment content_of importNode fuel (One (VObject h)) w
       = importNode c true w)) /\
  (nodeType n = 11 ->
   fragment content_of importNode fuel (One (VObject h)) w
   = cloneNode h true w).
Proof.
  intros Hn. unfold fragment. cbn [truthy isString negb orb].
  rewrite (bind_ok _ _ _ _ _ (test_kind 1 h n w Hn)).
  split.
  - intros Hty. rewrite Hty. cbn [Z.eqb Pos.eqb]. cbv zeta. split.
    + intros [Hc|Hc]; rewrite Hc; reflexivity.
    + intros c cn Hc Hcn Htyc. rewrite Hc.
      rewrite (bind_ok _ _ _ _ _ (test_kind 11 c cn w Hcn)).
      rewrite Htyc. reflexivity.
  - intros Hty. rewrite Hty. cbn [Z.eqb Pos.eqb].
    rewrite (bind_ok _ _ _ _ _ (test_kind 11 h n w Hn)).
    rewrite Hty. reflexivity.
Qed.

End NewNodes.

(** On the sample page the next handle is 6: [text] without data makes the
    text node 6 with empty data; and in the tree of the second engine
    [element] of [DIV] makes the element 9, without attributes. *)
Lemma creators_make_fresh_nodes_witness :
  (exists w' n,
      Dom.text None Dom.Sample.page = Ok (6%positive, w') /\
      Dom.nodes w' !! 6%positive = Some n /\
      Dom.nodeType n = 3 /\ Dom.nodeValue n = "") /\
  (exists w' n,
      Dom.element (H := Dom.Engine.host) "DIV" None Dom.Engine.tree
      = Ok (9%positive, w') /\
      Dom.nodes w' !! 9%positive = Some n /\ Dom.attributes n = ∅).
Proof.
  assert (Hok : Dom.store_ok Dom.Sample.page).
  { assert (Hall : map_Forall (fun (r : positive) (_ : Dom.node) =>
                                 (r < 6)%positive)
                     (Dom.nodes Dom.Sample.page)).
    { apply (bool_decide_unpack _). vm_compute. exact I. }
    intros r n Hr. exact (Hall r n Hr). }
  assert (Hok' : Dom.store_ok Dom.Engine.tree).
  { assert (Hall : map_Forall (fun (r : positive) (_ : Dom.node) =>
                                 (r < 9)%positive)
                     (Dom.nodes Dom.Engine.tree)).
    { apply (bool_decide_unpack _). vm_compute. exact I. }
    intros r n Hr. exact (Hall r n Hr). }
  split.
  - destruct (creators_make_fresh_nodes (H := Dom.Sample.host) Dom.Sample.page
                Hok) as (Htext & _).
    destruct (Htext None)
      as (r & w' & Hrun & _ & _ & _ & n & Hn & _ & Hdata & _).
    pose proof Hrun as Hvalue. vm_compute in Hvalue.
    injection Hvalue as Hr Hw. subst r.
    exists w', n. split; [exact Hrun|]. split; [exact Hn|].
    split; [|exact Hdata].
    rewrite <- Hw in Hn. vm_compute in Hn. injection Hn as <-. reflexivity.
  - destruct (creators_make_fresh_nodes (H := Dom.Engine.host) Dom.Engine.tree
                Hok') as (_ & _ & Helement & _).
    destruct (Helement "DIV" eq_refl)
      as (r & w' & n & Hrun & _ & Hn & Hattrs).
    pose proof Hrun as Hvalue. vm_compute in Hvalue.
    injection Hvalue as Hr Hw. subst r.
    exists w', n. split; [exact Hrun|]. split; [exact Hn | exact Hattrs].
Defined.

(** [fragment(null)] on the sample page is the new, empty fragment 6. *)
Lemma fragment_of_nothing_witness :
  exists w' n,
    Dom.fragment (H := Dom.Sample.host) (fun _ => VUndefined)
      (fun r _ => Dom.ret r) 0 (Dom.One VNull) Dom.Sample.page
    = Ok (6%positive, w') /\
    Dom.nodes w' !! 6%positive = Some n /\ Dom.childNodes n = [].
Proof.
  assert (Hok : Dom.store_ok Dom.Sample.page).
  { assert (Hall : map_Forall (fun (r : positive) (_ : Dom.node) =>
                                 (r < 6)%positive)
                     (Dom.nodes Dom.Sample.page)).
    { apply (bool_decide_unpack _). vm_compute. exact I. }
    intros r n Hr. exact (Hall r n Hr). }
  destruct (fragment_of_nothing (H := Dom.Sample.host) (fun _ => VUndefined)
              (fun r _ => Dom.ret r) Dom.Sample.page VNull 0 Hok eq_refl)
    as (g & w' & Hrun & _ & _ & _ & n & Hn & _ & _ & _ & Hkids).
  pose proof Hrun as Hvalue. vm_compute in Hvalue.
  injection Hvalue as Hg Hw. subst g.
  exists w', n. split; [exact Hrun|]. split; [exact Hn | exact Hkids].
Defined.

(** The [div] of the sample page is no template and has no [content]:
    [fragment] of it throws. *)
Lemma fragment_of_element_witness :
  Dom.fragment (H := Dom.Sample.host) (fun _ => VUndefined)
    (fun r _ => Dom.ret r) 0 (Dom.One (VObject 2%positive)) Dom.Sample.page
  = Throw TypeError.
Proof.
  destruct (fragment_of_element (H := Dom.Sample.host) (fun _ => VUndefined)
              (fun r _ => Dom.ret r) Dom.Sample.page 2%positive _ 0 eq_refl)
    as [Helement _].
  destruct (Helement eq_refl) as [Hthrow _].
  apply Hthrow. left. reflexivity.
Defined.

(** ** Fragments of copies *)

Section FragmentCopies.

Import Dom.
Context `{Dom.Host}.

Variable content_of : ref -> value.
Variable importNode : ref -> bool -> M ref.



End FragmentCopies.



(** ** Putting a node in and taking it out again *)

Section InAndOut.

Import Dom.
Context `{Dom.Host}.

Lemma world_eq (w w' : world) :
  nodes w' = nodes w -> next_ref w' = next_ref w ->
  document w' = document w -> docRange w' = docRange w ->
  nodeFactory w' = nodeFactory w -> attr_writes w' = attr_writes w ->
  w' = w.
Proof. destruct w, w'; cbn. intros -> -> -> -> -> ->. reflexivity. Qed.

Lemma set_childNodes_same (n : node) : set_childNodes (childNodes n) n = n.
Proof. destruct n; reflexivity. Qed.

Lemma set_parentNode_same (n : node) : set_parentNode (parentNode n) n = n.
Proof. destruct n; reflexivity. Qed.

Lemma without_inserted (c : ref) (a b : list ref) :
  c ∉ a -> c ∉ b -> without c (a ++ c :: b) = a ++ b.
Proof.
  intros Ha Hb. unfold without.
  rewrite filter_app, filter_cons_False by (intros Hne; apply Hne; reflexivity).
  fold (without c a). fold (without c b).
  rewrite !without_absent by assumption. reflexivity.
Qed.

(** Taking out again a node that was put under [p] gives the state before
    it was put there. *)
Lemma remove_placed (w w1 : world) (p c : ref) (l : list ref) :
  insertable w p c -> placed w w1 p c l ->
  (forall pn, nodes w !! p = Some pn -> without c l = childNodes pn) ->
  remove (NodeRef c) w1 = Ok (Some c, w).
Proof.
  intros ((pn0 & cn & _ & Hc & Hloose & _) & Hanc)
         ((pn & Hp & Hp1) & (cn' & Hc' & Hc1) & Hkeep & Hnext & Hdoc & Hrange &
          Hfac & Hlog) Hlist.
  assert (cn' = cn) as -> by congruence.
  assert (Hcp : p <> c).
  { intros ->. destruct (size (nodes w)); cbn in Hanc;
      rewrite Pos.eqb_refl in Hanc; discriminate. }
  rewrite (remove_child w1 p c _ _ Hc1 eq_refl Hp1 Hcp).
  f_equal. f_equal. apply world_eq; cbn; try assumption.
  apply map_eq. intros k.
  destruct (decide (k = c)) as [->|Hkc].
  - rewrite lookup_insert_eq, Hc. f_equal.
    transitivity (set_parentNode None cn); [reflexivity|].
    rewrite <- Hloose. apply set_parentNode_same.
  - rewrite lookup_insert_ne by congruence.
    destruct (decide (k = p)) as [->|Hkp].
    + rewrite lookup_insert_eq, Hp. f_equal.
      transitivity (set_childNodes (without c l) pn); [reflexivity|].
      rewrite (Hlist pn Hp). apply set_childNodes_same.
    + rewrite lookup_insert_ne by congruence. apply Hkeep; assumption.
Qed.

(** [remove] undoes [append], [prepend], [before] and [after] of a node
    that had no parent, where the parent takes the kind of the node (an
    element or a fragment takes elements and character data, a document
    takes comments and processing instructions): after the two calls the
    state is what it was. *)
Theorem remove_undoes_insertion (w : world) (p t c : ref) (pn tn : node)
  (l1 l2 : list ref) :
  insertable w p c ->
  nodes w !! p = Some pn ->
  nodes w !! t = Some tn -> parentNode tn = Some p ->
  childNodes pn = l1 ++ t :: l2 -> NoDup (childNodes pn) ->
  children_of w p (childNodes pn) ->
  (exists w1,
      append (NodeRef p) (NodeArg c) w = Ok (Some p, w1) /\
      remove (NodeRef c) w1 = Ok (Some c, w)) /\
  (exists w1,
      prepend (NodeRef p) (NodeArg c) w = Ok (Some p, w1) /\
      remove (NodeRef c) w1 = Ok (Some c, w)) /\
  (exists w1,
      before (NodeRef t) (NodeArg c) w = Ok (Some t, w1) /\
      remove (NodeRef c) w1 = Ok (Some c, w)) /\
  (exists w1,
      after (NodeRef t) (NodeArg c) w = Ok (Some t, w1) /\
      remove (NodeRef c) w1 = Ok (Some c, w)).
Proof.
  intros Hins Hp Ht Hparent Hlist Hnd Hkids.
  assert (Hout : c ∉ childNodes pn).
  { intros Hin. destruct (Hkids c Hin) as (cn & Hc & Hpc).
    destruct Hins as ((pn' & cn' & _ & Hc' & Hloose & _) & _). congruence. }
  destruct (append_prepend_placed w p c pn Hins Hp Hkids)
    as [(wa & Happend & Hpa) (wb & Hprepend & Hpb)].
  destruct (before_after_placed w p t c pn tn l1 l2 Hins Hp Ht Hparent Hlist
              Hnd Hkids)
    as [(wc & Hbefore & Hpc) (wd & Hafter & Hpd)].
  rewrite Hlist in Hout.
  apply not_elem_of_app in Hout as [Hout1 Hout2].
  apply not_elem_of_cons in Hout2 as [Hct Hout2].
  split; [|split; [|split]].
  - exists wa. split; [exact Happend|].
    apply (remove_placed _ _ _ _ _ Hins Hpa).
    intros pn' Hp'. assert (pn' = pn) as -> by congruence.
    rewrite without_inserted; [apply app_nil_r | | apply not_elem_of_nil].
    rewrite Hlist, not_elem_of_app, not_elem_of_cons. auto.
  - exists wb. split; [exact Hprepend|].
    apply (remove_placed _ _ _ _ _ Hins Hpb).
    intros pn' Hp'. assert (pn' = pn) as -> by congruence.
    apply (without_inserted c [] (childNodes pn)); [apply not_elem_of_nil|].
    rewrite Hlist, not_elem_of_app, not_elem_of_cons. auto.
  - exists wc. split; [exact Hbefore|].
    apply (remove_placed _ _ _ _ _ Hins Hpc).
    intros pn' Hp'. assert (pn' = pn) as -> by congruence.
    rewrite without_inserted; [symmetry; exact Hlist | exact Hout1 |].
    rewrite not_elem_of_cons. auto.
  - exists wd. split; [exact Hafter|].
    apply (remove_placed _ _ _ _ _ Hins Hpd).
    intros pn' Hp'. assert (pn' = pn) as -> by congruence.
    replace (l1 ++ t :: c :: l2) with ((l1 ++ [t]) ++ c :: l2)
      by (rewrite <- app_assoc; reflexivity).
    rewrite without_inserted; [|  | exact Hout2].
    + rewrite <- app_assoc. symmetry. exact Hlist.
    + rewrite not_elem_of_app, list_elem_of_singleton. auto.
Qed.

End InAndOut.

(** The detached paragraph (7), put before the text (5) and removed
    again, leaves the tree of the second engine as it was. *)
Lemma remove_undoes_insertion_witness :
  exists w1,
    Dom.before (H := Dom.Engine.host) (Dom.NodeRef 5%positive)
      (Dom.NodeArg 7%positive) Dom.Engine.tree = Ok (Some 5%positive, w1) /\
    Dom.remove (H := Dom.Engine.host) (Dom.NodeRef 7%positive) w1
    = Ok (Some 7%positive, Dom.Engine.tree).
Proof.
  destruct (remove_undoes_insertion (H := Dom.Engine.host) Dom.Engine.tree
              3%positive 5%positive 7%positive
              (Dom.Engine.element_node "div" (Some 2%positive)
                 [4%positive; 5%positive; 6%positive])
              (Dom.blank 3 "#text" "x" (Some 3%positive))
              [4%positive] [6%positive])
    as (_ & _ & Hbefore & _).
  - split; [|vm_compute; reflexivity].
    eexists. eexists. split; [reflexivity|]. split; [reflexivity|].
    split; [reflexivity|]. left. split; left; reflexivity.
  - reflexivity.
  - reflexivity.
  - reflexivity.
  - reflexivity.
  - apply (bool_decide_unpack _). vm_compute. exact I.
  - intros k Hk. apply list_elem_of_In in Hk. simpl in Hk.
    destruct Hk as [<-|[<-|[<-|[]]]]; eexists; split; reflexivity.
  - exact Hbefore.
Defined.

(** ** Setting up an element *)

Section Setup.

Import Dom.
Context `{Dom.Host}.

(** *** The steps of [setup] *)














End Setup.



(** ** Names that the native class list rejects *)

Section RejectedNames.

Import Dom JsString.
Context `{Dom.Host}.

Lemma forEach_app {A} (l1 l2 : list A) (f : A -> M unit) (w : world) :
  forEach (l1 ++ l2) f w = bind (forEach l1 f) (fun _ => forEach l2 f) w.
Proof.
  revert w. induction l1 as [|x l1 IH]; intros w; [reflexivity|].
  cbn [app forEach]. unfold bind.
  destruct (f x w) as [[[] w1]| |]; [|reflexivity|reflexivity].
  rewrite IH. reflexivity.
Qed.

(** The updates of the token list stop at the first name that is no
    token. *)
Lemma forEach_classList_rejected (g : string -> list string -> list string)
  (e : ref) (pre post : list string) (bad : string) (err : exn) (w : world)
  (n : node) (tokens : list string) :
  nodes w !! e = Some n -> classList n = Some tokens ->
  Forall valid_name pre -> token_error bad = Some err ->
  forEach (pre ++ bad :: post) (fun name => classList_update e name (g name)) w
  = Throw err.
Proof.
  intros Hn Hcl Hpre Hbad. rewrite forEach_app.
  destruct (forEach_classList_update g e pre Hpre w n tokens Hn Hcl)
    as (w1 & n1 & Hrun & Hn1 & Hcl1 & _).
  rewrite (bind_ok _ _ _ _ _ Hrun). cbn [forEach].
  unfold classList_update at 1, tokens_of.
  unfold bind at 1. unfold bind at 1. unfold bind at 1.
  rewrite (node_of_ok _ _ _ Hn1). rewrite Hcl1. unfold ret at 1.
  rewrite Hbad. reflexivity.
Qed.

(** On an element with the native class list, a listed name that is no
    token (it is empty, as between two spaces of a string of names, or has
    white space in it) makes [addClass], [removeClass] and [toggleClass]
    throw the exception of the token list for the first such name;
    [hasClass] throws nothing. *)
Theorem class_names_rejected (w : world) (e : ref) (n : node)
  (tokens pre post : list string) (bad : string) (err : exn)
  (names : string + list string) :
  nodes w !! e = Some n -> nodeType n = 1 -> classList n = Some tokens ->
  resolveNames names = pre ++ bad :: post ->
  Forall valid_name pre -> token_error bad = Some err ->
  addClass (NodeRef e) names w = Throw err /\
  removeClass (NodeRef e) names w = Throw err /\
  toggleClass (NodeRef e) names w = Throw err /\
  exists b, hasClass (NodeRef e) names w = Ok (b, w).
Proof.
  intros Hn Hty Hcl Hnames Hpre Hbad.
  split; [|split; [|split]].
  - unfold addClass. cbv zeta.
    rewrite (native_prefix w e n
               (fun element r n =>
                  match classList n with
                  | Some _ => _
                  | None => _
                  end) Hn).
    rewrite Hcl, Hnames. unfold classList_add. unfold bind at 1.
    rewrite (forEach_classList_rejected add_token e pre post bad err w n tokens
               Hn Hcl Hpre Hbad).
    reflexivity.
  - unfold removeClass. cbv zeta.
    rewrite (native_prefix w e n
               (fun element r n =>
                  match classList n with
                  | Some _ => _
                  | None => _
                  end) Hn).
    rewrite Hcl, Hnames. unfold classList_remove. unfold bind at 1.
    rewrite (forEach_classList_rejected remove_token e pre post bad err w n
               tokens Hn Hcl Hpre Hbad).
    reflexivity.
  - unfold toggleClass. cbv zeta.
    rewrite (native_prefix w e n
               (fun element r n =>
                  match classList n with
                  | Some _ => _
                  | None => _
                  end) Hn).
    rewrite Hcl, Hnames. unfold classList_toggle. unfold bind at 1.
    rewrite (forEach_classList_rejected toggle_token e pre post bad err w n
               tokens Hn Hcl Hpre Hbad).
    reflexivity.
  - eexists. apply (hasClass_run _ _ _ _ Hn Hty).
Qed.

End RejectedNames.

(** The paragraph of the sample page has the native class list: the string
    [a  b], with two spaces, lists an empty name after [a]. *)
Lemma class_names_rejected_witness :
  Dom.addClass (H := Dom.Sample.host) (Dom.NodeRef 3%positive) (inl "a  b")
    Dom.Sample.page = Throw (DOMException "SyntaxError") /\
  Dom.hasClass (H := Dom.Sample.host) (Dom.NodeRef 3%positive) (inl "a  b")
    Dom.Sample.page = Ok (false, Dom.Sample.page).
Proof.
  destruct (class_names_rejected (H := Dom.Sample.host) Dom.Sample.page
              3%positive _ ["foo"] ["a"] ["b"] "" (DOMException "SyntaxError")
              (inl "a  b") eq_refl eq_refl eq_refl eq_refl)
    as (Hadd & _ & _ & b & Hhas).
  - repeat constructor; discriminate.
  - reflexivity.
  - split; [exact Hadd|]. rewrite Hhas. vm_compute in Hhas.
    injection Hhas as <-. reflexivity.
Defined.

(** ** Clearing a node *)

Section Clearing.

Import Dom.
Context `{Dom.Host}.

Lemma set_parentNode_twice (p : option ref) (n : node) :
  set_parentNode p (set_parentNode p n) = set_parentNode p n.
Proof. reflexivity. Qed.

(** Detaching the nodes of a list: each of them loses its parent, and the
    other nodes are as they were. *)
Lemma orphan_exact (l : list ref) :
  forall w : world,
    (forall k, k ∈ l -> is_Some (nodes w !! k)) ->
    exists w',
      forEach l (fun c => update_node c (set_parentNode None)) w = Ok (tt, w') /\
      (forall k kn, k ∈ l -> nodes w !! k = Some kn ->
                    nodes w' !! k = Some (set_parentNode None kn)) /\
      (forall k, k ∉ l -> nodes w' !! k = nodes w !! k) /\
      next_ref w' = next_ref w /\ document w' = document w /\
      docRange w' = docRange w /\ nodeFactory w' = nodeFactory w /\
      attr_writes w' = attr_writes w.
Proof.
  induction l as [|c l IH]; intros w Hall.
  - exists w. split; [reflexivity|]. split.
    + intros k kn Hk. apply elem_of_nil in Hk. contradiction.
    + repeat split.
  - destruct (Hall c) as [cn Hc]; [apply elem_of_cons; auto|].
    destruct (update_node_spec c cn (set_parentNode None) w Hc)
      as (w1 & Hrun & Hc1 & Hkeep & Hnext & Hdoc & Hrange & Hfac & Hlog & _).
    destruct (IH w1) as (w' & Hloop & Hgone & Hrest & Hnext' & Hdoc' & Hrange' &
                         Hfac' & Hlog').
    { intros k Hk. destruct (decide (k = c)) as [->|Hkc];
        [rewrite Hc1; eexists; reflexivity|].
      rewrite (Hkeep k Hkc). apply Hall. apply elem_of_cons. auto. }
    exists w'. split; [|split; [|split]].
    + cbn [forEach]. rewrite (bind_ok _ _ _ _ _ Hrun). exact Hloop.
    + intros k kn Hk Hkn. destruct (decide (k = c)) as [->|Hkc].
      * assert (kn = cn) as -> by congruence.
        destruct (decide (c ∈ l)) as [Hin|Hout].
        -- rewrite (Hgone c _ Hin Hc1). reflexivity.
        -- rewrite (Hrest c Hout). exact Hc1.
      * apply elem_of_cons in Hk as [->|Hk]; [contradiction|].
        apply (Hgone k kn Hk). rewrite (Hkeep k Hkc). exact Hkn.
    + intros k Hk. apply not_elem_of_cons in Hk as [Hkc Hk].
      rewrite (Hrest k Hk). apply Hkeep, Hkc.
    + repeat split; congruence.
Qed.

(** [clear] of an element or of a fragment leaves it without children: the
    children it had have no parent any more, nothing else changes, and a
    second [clear] changes nothing at all. *)
Theorem clear_empties (w : world) (p : ref) (pn : node) :
  nodes w !! p = Some pn ->
  nodeType pn = 1 \/ nodeType pn = 11 ->
  p ∉ childNodes pn ->
  (forall k, k ∈ childNodes pn -> is_Some (nodes w !! k)) ->
  exists w1,
    clear (NodeRef p) w = Ok (Some p, w1) /\
    nodes w1 !! p = Some (set_childNodes [] pn) /\
    (forall k kn, k ∈ childNodes pn -> nodes w !! k = Some kn ->
                  nodes w1 !! k = Some (set_parentNode None kn)) /\
    (forall k, k <> p -> k ∉ childNodes pn -> nodes w1 !! k = nodes w !! k) /\
    clear (NodeRef p) w1 = Ok (Some p, w1).
Proof.
  intros Hp Hkind Hout Hkids.
  assert (Hty : (nodeType pn =? 1) || (nodeType pn =? 11) = true).
  { destruct Hkind as [-> | ->]; reflexivity. }
  destruct (orphan_exact (childNodes pn) w Hkids)
    as (wa & Hloop & Hgone & Hrest & _).
  assert (Hpa : nodes wa !! p = Some pn) by (rewrite (Hrest p Hout); exact Hp).
  destruct (update_node_spec p pn (set_childNodes []) wa Hpa)
    as (w1 & Hrun & Hp1 & Hkeep & _).
  assert (Hclear : forall (w0 w2 : world) (n0 : node),
             nodes w0 !! p = Some n0 ->
             (nodeType n0 =? 1) || (nodeType n0 =? 11) = true ->
             bind (forEach (childNodes n0)
                     (fun c => update_node c (set_parentNode None)))
               (fun _ => update_node p (set_childNodes [])) w0 = Ok (tt, w2) ->
             clear (NodeRef p) w0 = Ok (Some p, w2)).
  { intros w0 w2 n0 Hn0 Hty0 Hsteps.
    unfold clear, resolveNode, deref.
    unfold bind at 1. unfold ret at 1. unfold bind at 1. unfold ret at 1.
    unfold bind at 1. unfold set_textContent.
    rewrite (bind_ok _ _ _ _ _ (node_of_ok _ _ _ Hn0)). rewrite Hty0.
    cbn [String.eqb]. rewrite Hsteps. reflexivity. }
  exists w1. split; [|split; [exact Hp1|split; [|split]]].
  - apply (Hclear w w1 pn Hp Hty). rewrite (bind_ok _ _ _ _ _ Hloop).
    exact Hrun.
  - intros k kn Hk Hkn. rewrite Hkeep by (intros ->; contradiction).
    apply (Hgone k kn Hk Hkn).
  - intros k Hkp Hk. rewrite (Hkeep k Hkp). apply Hrest, Hk.
  - apply (Hclear w1 w1 _ Hp1 Hty). cbn [childNodes set_childNodes forEach].
    unfold bind at 1. unfold ret at 1.
    rewrite (update_node_ok _ _ _ _ Hp1).
    f_equal. f_equal. apply with_nodes_same. exact Hp1.
Qed.

End Clearing.

(** ** Ranges that the host refuses or collapses *)

Section RangeEdges.

Import Dom.
Context `{Dom.Host}.

(** [range] with only a start node throws where the node has no parent.
    With a start and an end node the offsets count modulo 2^32, as the
    [unsigned long] that the host takes them for: the call throws where the
    start offset, so counted, is beyond the length of the start node, before
    the end is looked at; and where both points are accepted and the start
    lies after the end, the range it returns is collapsed at the end. *)
Theorem range_refused_or_collapsed (w : world) :
  (forall startNode n startOffset endOffset,
      nodes w !! startNode = Some n -> parentNode n = None ->
      range (Some startNode) startOffset None endOffset w
      = Throw (DOMException "InvalidNodeTypeError")) /\
  (forall startNode endNode n startOffset endOffset,
      nodes w !! startNode = Some n -> nodeType n <> 10 ->
      node_length n < startOffset mod 2 ^ 32 ->
      range (Some startNode) (Some startOffset) (Some endNode) endOffset w
      = Throw (DOMException "IndexSizeError")) /\
  (forall startNode endNode startOffset endOffset,
      range (Some startNode) (Some startOffset) (Some endNode)
        (Some endOffset) w
      = range (Some startNode) (Some (startOffset mod 2 ^ 32)) (Some endNode)
          (Some (endOffset mod 2 ^ 32)) w) /\
  (forall startNode endNode startOffset endOffset,
      check_boundary startNode startOffset w = Ok (tt, w) ->
      check_boundary endNode endOffset w = Ok (tt, w) ->
      misordered w (startNode, startOffset) (endNode, endOffset) = true ->
      range (Some startNode) (Some startOffset) (Some endNode)
        (Some endOffset) w
      = Ok (mkRange endNode endOffset endNode endOffset, w) /\
      collapsed (mkRange endNode endOffset endNode endOffset) = true).
Proof.
  split; [|split; [|split]].
  - intros startNode n so eo Hn Hloose.
    unfold range, createRange, get_document, selectNode.
    unfold bind at 1. unfold bind at 1. unfold ret at 1.
    rewrite (bind_ok _ _ _ _ _ (node_of_ok _ _ _ Hn)). rewrite Hloose.
    reflexivity.
  - intros startNode endNode n so eo Hn Hkind Hout.
    unfold range. change (default 0 (Some so)) with so. cbv zeta.
    unfold createRange, get_document, setStart, check_boundary. cbv zeta.
    unfold bind at 1. unfold bind at 1. unfold ret at 1.
    unfold bind at 1. unfold bind at 1.
    rewrite (bind_ok _ _ _ _ _ (node_of_ok _ _ _ Hn)).
    replace (nodeType n =? 10) with false
      by (symmetry; apply Z.eqb_neq; exact Hkind).
    replace (node_length n <? unsigned_long so) with true
      by (symmetry; apply Z.ltb_lt; exact Hout).
    rewrite orb_true_r. reflexivity.
  - intros startNode endNode so eo.
    unfold range, setStart, setEnd.
    change (default 0 (Some so)) with so. change (default 0 (Some eo)) with eo.
    change (default 0 (Some (so mod 2 ^ 32))) with (so mod 2 ^ 32).
    change (default 0 (Some (eo mod 2 ^ 32))) with (eo mod 2 ^ 32).
    unfold unsigned_long. rewrite !Z.mod_mod by lia. reflexivity.
  - intros startNode endNode so eo Hs He Hord. split.
    + unfold range, createRange, get_document, setStart, setEnd.
      change (default 0 (Some so)) with so.
      change (default 0 (Some eo)) with eo. cbv zeta.
      rewrite (check_boundary_unsigned _ _ _ _ Hs).
      rewrite (check_boundary_unsigned _ _ _ _ He). simpl.
      unfold bind at 1. unfold bind at 1. unfold ret at 1.
      unfold bind at 1. unfold bind at 1. rewrite Hs.
      unfold bind at 1. rewrite He. simpl.
      destruct (misordered w (startNode, so) (document w, 0)); simpl;
        rewrite Hord; reflexivity.
    + unfold collapsed. cbn. rewrite bool_decide_eq_true_2 by reflexivity.
      apply Z.eqb_refl.
Qed.

End RangeEdges.

(** After [clear], the [div] (3) of the tree of the second engine has no
    children, and its text (5) no parent. *)
Lemma clear_empties_witness :
  exists w1 d t,
    Dom.clear (H := Dom.Engine.host) (Dom.NodeRef 3%positive) Dom.Engine.tree
    = Ok (Some 3%positive, w1) /\
    Dom.nodes w1 !! 3%positive = Some d /\ Dom.childNodes d = [] /\
    Dom.nodes w1 !! 5%positive = Some t /\ Dom.parentNode t = None.
Proof.
  destruct (clear_empties (H := Dom.Engine.host) Dom.Engine.tree 3%positive
              (Dom.Engine.element_node "div" (Some 2%positive)
                 [4%positive; 5%positive; 6%positive]) eq_refl)
    as (w1 & Hrun & Hp & Hgone & _).
  - left. reflexivity.
  - apply (bool_decide_unpack _). vm_compute. exact I.
  - intros k Hk. apply list_elem_of_In in Hk. simpl in Hk.
    destruct Hk as [<-|[<-|[<-|[]]]]; eexists; reflexivity.
  - exists w1. eexists.
    exists (Dom.set_parentNode None (Dom.blank 3 "#text" "x" (Some 3%positive))).
    split; [exact Hrun|]. split; [exact Hp|].
    split; [reflexivity|]. split; [|reflexivity].
    apply Hgone; [|reflexivity].
    apply list_elem_of_In. simpl. tauto.
Defined.

(** On the sample page the [span] (5) has no parent and cannot be
    selected, and the text (4), of five characters, has no offset 9, and
    none at -1, which counts as 2^32 - 1. *)
Lemma range_refused_or_collapsed_witness :
  Dom.range (H := Dom.Sample.host) (Some 5%positive) None None None
    Dom.Sample.page = Throw (DOMException "InvalidNodeTypeError") /\
  Dom.range (H := Dom.Sample.host) (Some 4%positive) (Some 9)
    (Some 4%positive) None Dom.Sample.page
  = Throw (DOMException "IndexSizeError") /\
  Dom.range (H := Dom.Sample.host) (Some 4%positive) (Some (-1))
    (Some 4%positive) None Dom.Sample.page
  = Throw (DOMException "IndexSizeError").
Proof.
  destruct (range_refused_or_collapsed (H := Dom.Sample.host) Dom.Sample.page)
    as (Hselect & Hoffset & _).
  split; [|split].
  - apply (Hselect 5%positive _ None None eq_refl eq_refl).
  - apply (Hoffset 4%positive 4%positive _ 9 None eq_refl).
    + discriminate.
    + vm_compute. reflexivity.
  - apply (Hoffset 4%positive 4%positive _ (-1) None eq_refl).
    + discriminate.
    + vm_compute. reflexivity.
Defined.

(** ** Waiting for the document *)

Section ReadyOnce.

Import Ready.

Lemma nobody_listens (p : page) (f : function) :
  nobody_waits p -> (("DOMContentLoaded", f) ∉ listeners p).
Proof.
  intros Hnone Hin. unfold nobody_waits in Hnone.
  rewrite Forall_forall in Hnone. apply (Hnone _ Hin). reflexivity.
Qed.

Lemma nobody_selected (p : page) :
  nobody_waits p ->
  filter (fun l : string * function => l.1 = "DOMContentLoaded") (listeners p)
  = [].
Proof.
  unfold nobody_waits. induction (listeners p) as [|l ls IH]; intros Hnone;
    [reflexivity|].
  apply Forall_cons in Hnone as [Hl Hls].
  rewrite filter_cons_False by exact Hl. apply IH, Hls.
Qed.

Lemma filter_absent {A} `{EqDecision A} (x : A) (l : list A) :
  x ∉ l -> filter (fun y => y <> x) l = l.
Proof.
  induction l as [|y l IH]; intros Hout; [reflexivity|].
  apply not_elem_of_cons in Hout as [Hne Hout].
  rewrite filter_cons_True by congruence. rewrite IH by exact Hout.
  reflexivity.
Qed.

(** [ready] never calls its callback at once.  When the document is no
    longer loading, it registers no listener and leaves the callback to a
    timer of one millisecond, by which it is called once.  When the document
    is loading, the callback is called once when the document receives
    [DOMContentLoaded], the listener of [ready] is gone afterwards, and a
    second event calls nothing; and two calls of [ready] with one callback
    have it called twice. *)
Theorem ready_calls_once (p : page) (c : nat) :
  (readyState p <> "loading" ->
   ready (Given c) p = setTimeout (Given c) 1 p /\
   listeners (ready (Given c) p) = listeners p /\
   calls (ready (Given c) p) = calls p /\
   (timers p = [] -> calls (run_timers (ready (Given c) p)) = calls p ++ [c])) /\
  (readyState p = "loading" -> nobody_waits p ->
   calls (ready (Given c) p) = calls p /\
   timers (ready (Given c) p) = timers p /\
   calls (dispatch "DOMContentLoaded" (ready (Given c) p)) = calls p ++ [c] /\
   listeners (dispatch "DOMContentLoaded" (ready (Given c) p)) = listeners p /\
   dispatch "DOMContentLoaded"
     (dispatch "DOMContentLoaded" (ready (Given c) p))
   = dispatch "DOMContentLoaded" (ready (Given c) p) /\
   calls (dispatch "DOMContentLoaded" (ready (Given c) (ready (Given c) p)))
   = calls p ++ [c; c]).
Proof.
  split.
  - intros Hstate. unfold ready.
    destruct (String.eqb_spec (readyState p) "loading") as [Heq|_];
      [contradiction|].
    cbn [negb]. split; [reflexivity|]. split; [reflexivity|].
    split; [reflexivity|].
    intros Htimers. unfold run_timers, setTimeout. cbn. rewrite Htimers.
    reflexivity.
  - intros Hstate Hnone.
    set (f := OnDocumentReady (next_function p) (Given c)).
    set (g := OnDocumentReady (S (next_function p)) (Given c)).
    assert (Hready : ready (Given c) p =
                     {| readyState := readyState p;
                        listeners := listeners p ++ [("DOMContentLoaded", f)];
                        timers := timers p; calls := calls p;
                        next_function := S (next_function p) |}).
    { unfold ready. rewrite Hstate. cbn [String.eqb Ascii.eqb Bool.eqb negb].
      cbv zeta. unfold on, addEventListener. cbn [listeners].
      rewrite bool_decide_eq_false_2 by (apply nobody_listens, Hnone).
      reflexivity. }
    assert (Hselect : forall l : list (string * function),
               filter (fun l : string * function => l.1 = "DOMContentLoaded")
                 (listeners p ++ l)
               = filter (fun l : string * function => l.1 = "DOMContentLoaded")
                   l).
    { intros l. rewrite filter_app, (nobody_selected p Hnone). reflexivity. }
    assert (Hfg : f <> g) by (unfold f, g; intros [= Heq]; lia).
    assert (Hdispatch :
              dispatch "DOMContentLoaded" (ready (Given c) p) =
              {| readyState := readyState p; listeners := listeners p;
                 timers := timers p; calls := calls p ++ [c];
                 next_function := S (next_function p) |}).
    { rewrite Hready. unfold dispatch. cbn [listeners].
      rewrite Hselect. rewrite filter_cons_True by reflexivity.
      rewrite filter_nil. cbn [map snd foldl listeners].
      rewrite bool_decide_eq_true_2
        by (apply elem_of_app; right; apply list_elem_of_singleton; reflexivity).
      unfold f at 1. cbn [call]. fold f.
      unfold off, removeEventListener, with_listeners. cbn.
      rewrite filter_app, filter_cons_False, filter_nil, app_nil_r
        by (intros Hne; apply Hne; reflexivity).
      rewrite filter_absent by (apply nobody_listens, Hnone). reflexivity. }
    rewrite Hdispatch, Hready. cbn [calls timers listeners].
    split; [reflexivity|]. split; [reflexivity|]. split; [reflexivity|].
    split; [reflexivity|]. split.
    + unfold dispatch. cbn [listeners]. rewrite (nobody_selected p Hnone).
      reflexivity.
    + unfold ready. cbn [readyState next_function]. rewrite Hstate.
      cbn [String.eqb Ascii.eqb Bool.eqb negb]. cbv zeta. fold g.
      unfold on, addEventListener. cbn [listeners].
      rewrite bool_decide_eq_false_2.
      2:{ rewrite elem_of_app, list_elem_of_singleton.
          intros [Hin|Heq]; [exact (nobody_listens p g Hnone Hin)|].
          injection Heq as Heq. lia. }
      unfold dispatch, with_listeners. cbn [listeners].
      rewrite <- app_assoc. rewrite Hselect. cbn [app].
      rewrite filter_cons_True by reflexivity.
      rewrite filter_cons_True by reflexivity.
      rewrite filter_nil. cbn [map snd foldl listeners].
      rewrite (bool_decide_eq_true_2
                 (("DOMContentLoaded", f)
                  ∈ listeners p
                    ++ [("DOMContentLoaded", f); ("DOMContentLoaded", g)])).
      2:{ apply elem_of_app. right. apply elem_of_cons. auto. }
      assert (Hcall :
                call f
                  {| readyState := "loading";
                     listeners :=
                       listeners p
                       ++ [("DOMContentLoaded", f); ("DOMContentLoaded", g)];
                     timers := timers p; calls := calls p;
                     next_function := S (S (next_function p)) |}
                = {| readyState := "loading";
                     listeners := listeners p ++ [("DOMContentLoaded", g)];
                     timers := timers p; calls := calls p ++ [c];
                     next_function := S (S (next_function p)) |}).
      { unfold f at 1. cbn [call]. fold f.
        unfold off, removeEventListener, with_listeners.
        cbn [listeners readyState timers calls next_function].
        rewrite filter_app.
        rewrite filter_absent by (apply nobody_listens, Hnone).
        rewrite filter_cons_False by (intros Hne; apply Hne; reflexivity).
        rewrite filter_cons_True by (intros [= Heq]; lia).
        rewrite filter_nil. reflexivity. }
      cbn [readyState listeners timers calls next_function].
      rewrite Hcall. cbn [listeners].
      rewrite bool_decide_eq_true_2.
      2:{ apply elem_of_app. right. apply list_elem_of_singleton. reflexivity. }
      unfold g at 1. cbn [call calls].
      unfold off, removeEventListener, with_listeners. cbn [calls].
      rewrite <- app_assoc. reflexivity.
Qed.

End ReadyOnce.

(** On a page that is loading, with nobody waiting and nothing called:
    after [ready] and the event, the callback 7 was called once. *)
Lemma ready_calls_once_witness :
  Ready.calls
    (Ready.dispatch "DOMContentLoaded"
       (Ready.ready (Ready.Given 7) (Ready.mkPage "loading" [] [] [] 0)))
  = [7%nat].
Proof.
  destruct (ready_calls_once (Ready.mkPage "loading" [] [] [] 0) 7)
    as [_ Hloading].
  destruct (Hloading eq_refl) as (_ & _ & Hcalled & _).
  - constructor.
  - exact Hcalled.
Defined.
